(** * Strategic signal lifecycle, confluence, risk governor and position tracker

    A shallow embedding of the core services of the trading system
    (application/services/*.py, analyzers/confluence/context_filters.py,
    domain/entities/*.py) together with the properties of its specification.

    Conventions of the embedding:
    - Python floats are idealised as rationals [Q]; integers are [Z].
    - A [datetime] is a number of microseconds ([Z]); a [timedelta] is a
      difference of two of them.  Every call of [datetime.now()] inside one
      modelled call reads the same [now], which is passed as an argument.
    - A dict keyed by identifiers is a [gmap]; a dict whose iteration order is
      observable is a list in insertion order.
    - Publishing on the event bus appends to the component's own log.
    - A Python exception leaving a function is the [Raised] outcome, carrying
      the state as mutated up to the raise. *)

From Stdlib Require Import ZArith QArith Qminmax Qabs Qround String List Lia Lqa.
From stdpp Require Import gmap strings list fin_maps pretty.
Import ListNotations.
Local Open Scope string_scope.
Local Open Scope list_scope.

(** ** Python primitives *)

Inductive PyError := KeyError | TypeError | RuntimeError | ValidationError.

Inductive Outcome (S A : Type) :=
| Returned (a : A) (s : S)
| Raised (e : PyError) (s : S).
Arguments Returned {S A} a s.
Arguments Raised {S A} e s.

Definition final_state {S A} (o : Outcome S A) : S :=
  match o with Returned _ s => s | Raised _ s => s end.

Definition returned {S A} (o : Outcome S A) : option A :=
  match o with Returned a _ => Some a | Raised _ _ => None end.

Definition Qleb (x y : Q) : bool := Qle_bool x y.
Definition Qltb (x y : Q) : bool := negb (Qle_bool y x).
Definition Qgeb (x y : Q) : bool := Qle_bool y x.
Definition Qgtb (x y : Q) : bool := negb (Qle_bool x y).

(** [min(a, b)] and [max(a, b)] of Python: the first argument wins ties. *)
Definition py_min (a b : Q) : Q := if Qltb b a then b else a.
Definition py_max (a b : Q) : Q := if Qgtb b a then b else a.

(** [int(x)]: truncation toward zero. *)
Definition py_int (x : Q) : Z := Z.quot (Qnum x) (Z.pos (Qden x)).

(** Truthiness of an optional float: [None] and [0.0] are falsy. *)
Definition truthy (x : option Q) : option Q :=
  match x with
  | Some v => if Qeq_bool v 0 then None else Some v
  | None => None
  end.

(** [x or y] on an optional float with a float fallback. *)
Definition py_or (x : option Q) (y : Q) : Q :=
  match truthy x with Some v => v | None => y end.

(** [deque(maxlen=n).append(x)]: the oldest entries fall off the left. *)
Definition deque_append {A} (maxlen : nat) (d : list A) (x : A) : list A :=
  let d' := d ++ [x] in drop (length d' - maxlen) d'.

Definition usec_per_second : Z := 1000000.
Definition seconds (n : Z) : Z := n * usec_per_second.

(** [timedelta.seconds]: the seconds component of the normalised
    (days, seconds, microseconds) triple; whole days are not part of it. *)
Definition timedelta_seconds (d : Z) : Z := (d mod seconds 86400) / usec_per_second.

(** [timedelta.total_seconds()]. *)
Definition timedelta_total_seconds (d : Z) : Q := Qmake d 1000000.

(** ** domain/entities/strategic_signal.py *)

Inductive SetupType :=
| REVERSAL_SLOW | REVERSAL_VIOLENT | BREAKOUT_IGNITION
| PULLBACK_REJECTION | DIVERGENCE_SETUP.

Inductive SignalState :=
| PENDING | ACTIVE | EXECUTED | EXPIRED | STOPPED | TARGET_HIT.

Inductive ConflictStatus := NO_CONFLICT | MINOR_CONFLICT | MAJOR_CONFLICT.

Inductive EntryType := MARKET | LIMIT | STOP | ADAPTIVE.

#[global] Instance SetupType_eq_dec : EqDecision SetupType.
Proof. solve_decision. Defined.
#[global] Instance SignalState_eq_dec : EqDecision SignalState.
Proof. solve_decision. Defined.
#[global] Instance ConflictStatus_eq_dec : EqDecision ConflictStatus.
Proof. solve_decision. Defined.
#[global] Instance EntryType_eq_dec : EqDecision EntryType.
Proof. solve_decision. Defined.

(** The adjustment dict built by the context filters; each key is either
    absent or bound. *)
Record Adjustments := mkAdjustments {
  tighten_stop : option Q;
  widen_stop : option Q;
  reduce_size : option Q;
  use_limit_orders : option bool
}.

Definition no_adjustments : Adjustments := mkAdjustments None None None None.

(** [bool(adjustments)]: a dict is truthy when it has a key. *)
Definition adjustments_nonempty (a : Adjustments) : bool :=
  match tighten_stop a, widen_stop a, reduce_size a, use_limit_orders a with
  | None, None, None, None => false
  | _, _, _, _ => true
  end.

Definition override {A} (new old : option A) : option A :=
  match new with Some _ => new | None => old end.

(** [a.update(b)]. *)
Definition adjustments_update (a b : Adjustments) : Adjustments :=
  mkAdjustments (override (tighten_stop b) (tighten_stop a))
                (override (widen_stop b) (widen_stop a))
                (override (reduce_size b) (reduce_size a))
                (override (use_limit_orders b) (use_limit_orders a)).

(** The free-form [setup_details] payload: what the detector put there, kept
    opaque, and the one key the core writes. *)
Record SetupDetails := mkSetupDetails {
  detector_payload : list (string * string);
  filter_adjustments : option Adjustments
}.

Module StrategicSignal.

Record t := mk {
  id : string;
  timestamp : Z;
  symbol : string;
  setup_type : SetupType;
  direction : string;
  state : SignalState;
  entry_price : Q;
  entry_type : EntryType;
  stop_loss : Q;
  targets : list Q;
  confidence : Q;
  risk_reward : Q;
  conflict_status : ConflictStatus;
  confluence_factors : list string;
  expiration_time : Z;
  time_to_expiry_seconds : Z;
  setup_details : SetupDetails;
  created_by : string;
  execution_price : option Q;
  execution_time : option Z;
  exit_price : option Q;
  exit_time : option Z;
  pnl : option Q
}.

Definition set_state (v : SignalState) (s : t) : t :=
  mk (id s) (timestamp s) (symbol s) (setup_type s) (direction s) v (entry_price s) (entry_type s) (stop_loss s) (targets s) (confidence s) (risk_reward s) (conflict_status s) (confluence_factors s) (expiration_time s) (time_to_expiry_seconds s) (setup_details s) (created_by s) (execution_price s) (execution_time s) (exit_price s) (exit_time s) (pnl s).

Definition set_entry_type (v : EntryType) (s : t) : t :=
  mk (id s) (timestamp s) (symbol s) (setup_type s) (direction s) (state s) (entry_price s) v (stop_loss s) (targets s) (confidence s) (risk_reward s) (conflict_status s) (confluence_factors s) (expiration_time s) (time_to_expiry_seconds s) (setup_details s) (created_by s) (execution_price s) (execution_time s) (exit_price s) (exit_time s) (pnl s).

Definition set_stop_loss (v : Q) (s : t) : t :=
  mk (id s) (timestamp s) (symbol s) (setup_type s) (direction s) (state s) (entry_price s) (entry_type s) v (targets s) (confidence s) (risk_reward s) (conflict_status s) (confluence_factors s) (expiration_time s) (time_to_expiry_seconds s) (setup_details s) (created_by s) (execution_price s) (execution_time s) (exit_price s) (exit_time s) (pnl s).

Definition set_confidence (v : Q) (s : t) : t :=
  mk (id s) (timestamp s) (symbol s) (setup_type s) (direction s) (state s) (entry_price s) (entry_type s) (stop_loss s) (targets s) v (risk_reward s) (conflict_status s) (confluence_factors s) (expiration_time s) (time_to_expiry_seconds s) (setup_details s) (created_by s) (execution_price s) (execution_time s) (exit_price s) (exit_time s) (pnl s).

Definition set_conflict_status (v : ConflictStatus) (s : t) : t :=
  mk (id s) (timestamp s) (symbol s) (setup_type s) (direction s) (state s) (entry_price s) (entry_type s) (stop_loss s) (targets s) (confidence s) (risk_reward s) v (confluence_factors s) (expiration_time s) (time_to_expiry_seconds s) (setup_details s) (created_by s) (execution_price s) (execution_time s) (exit_price s) (exit_time s) (pnl s).

Definition set_confluence_factors (v : list string) (s : t) : t :=
  mk (id s) (timestamp s) (symbol s) (setup_type s) (direction s) (state s) (entry_price s) (entry_type s) (stop_loss s) (targets s) (confidence s) (risk_reward s) (conflict_status s) v (expiration_time s) (time_to_expiry_seconds s) (setup_details s) (created_by s) (execution_price s) (execution_time s) (exit_price s) (exit_time s) (pnl s).

Definition set_expiration (v : Z) (secs : Z) (s : t) : t :=
  mk (id s) (timestamp s) (symbol s) (setup_type s) (direction s) (state s) (entry_price s) (entry_type s) (stop_loss s) (targets s) (confidence s) (risk_reward s) (conflict_status s) (confluence_factors s) v secs (setup_details s) (created_by s) (execution_price s) (execution_time s) (exit_price s) (exit_time s) (pnl s).

Definition set_setup_details (v : SetupDetails) (s : t) : t :=
  mk (id s) (timestamp s) (symbol s) (setup_type s) (direction s) (state s) (entry_price s) (entry_type s) (stop_loss s) (targets s) (confidence s) (risk_reward s) (conflict_status s) (confluence_factors s) (expiration_time s) (time_to_expiry_seconds s) v (created_by s) (execution_price s) (execution_time s) (exit_price s) (exit_time s) (pnl s).

Definition set_execution (price : option Q) (time : option Z) (s : t) : t :=
  mk (id s) (timestamp s) (symbol s) (setup_type s) (direction s) (state s) (entry_price s) (entry_type s) (stop_loss s) (targets s) (confidence s) (risk_reward s) (conflict_status s) (confluence_factors s) (expiration_time s) (time_to_expiry_seconds s) (setup_details s) (created_by s) price time (exit_price s) (exit_time s) (pnl s).

Definition set_exit (price : option Q) (time : option Z) (s : t) : t :=
  mk (id s) (timestamp s) (symbol s) (setup_type s) (direction s) (state s) (entry_price s) (entry_type s) (stop_loss s) (targets s) (confidence s) (risk_reward s) (conflict_status s) (confluence_factors s) (expiration_time s) (time_to_expiry_seconds s) (setup_details s) (created_by s) (execution_price s) (execution_time s) price time (pnl s).

Definition set_pnl (v : option Q) (s : t) : t :=
  mk (id s) (timestamp s) (symbol s) (setup_type s) (direction s) (state s) (entry_price s) (entry_type s) (stop_loss s) (targets s) (confidence s) (risk_reward s) (conflict_status s) (confluence_factors s) (expiration_time s) (time_to_expiry_seconds s) (setup_details s) (created_by s) (execution_price s) (execution_time s) (exit_price s) (exit_time s) v.

(** The optional keyword arguments of [update_state]. *)
Record Kwargs := mkKwargs {
  kw_execution_price : option Q;
  kw_exit_price : option Q
}.

Definition no_kwargs : Kwargs := mkKwargs None None.

Definition is_expired (now : Z) (s : t) : bool := (expiration_time s <=? now)%Z.

Definition update_state (new_state : SignalState) (kw : Kwargs) (now : Z) (s : t) : t :=
  let s := set_state new_state s in
  match new_state, kw_execution_price kw, kw_exit_price kw with
  | EXECUTED, Some p, _ => set_execution (Some p) (Some now) s
  | STOPPED, _, Some p | TARGET_HIT, _, Some p =>
      let s := set_exit (Some p) (Some now) s in
      match truthy (execution_price s) with
      | Some e =>
          if direction s =? "COMPRA"
          then set_pnl (Some ((p - e) * 10)%Q) s
          else set_pnl (Some ((e - p) * 10)%Q) s
      | None => s
      end
  | _, _, _ => s
  end.

End StrategicSignal.

(** ** application/services/setup_lifecycle_manager.py *)

Module Lifecycle.

Record Stats := mkStats {
  total_created : Z;
  total_executed : Z;
  total_expired : Z;
  total_stopped : Z;
  total_targets_hit : Z
}.

(** What the manager does to the outside world, in order: events handed to
    the bus, one-shot timers started, registered callbacks invoked. *)
Inductive Effect :=
| STRATEGIC_SIGNAL_CREATED (signal : StrategicSignal.t) (timeout_seconds : Z)
| STRATEGIC_SIGNAL_STATE_CHANGED (signal_id : string) (old_state new_state : SignalState)
                                 (signal : StrategicSignal.t)
| STRATEGIC_SIGNAL_EXPIRED (signal : StrategicSignal.t) (reason : string)
| TimerStarted (delay_seconds : Q) (signal_id : string)
| CallbackInvoked (handle : nat) (signal : StrategicSignal.t).

Record SetupLifecycleManager := mkManager {
  active_signals : gmap string StrategicSignal.t;
  signal_history : list StrategicSignal.t;
  timeout_config : list (SetupType * Z);
  running : bool;
  state_callbacks : SignalState -> list nat;
  stats : Stats;
  effects : list Effect
}.

Definition with_active (v : gmap string StrategicSignal.t) (m : SetupLifecycleManager) :=
  mkManager v (signal_history m) (timeout_config m) (running m) (state_callbacks m) (stats m) (effects m).
Definition with_history (v : list StrategicSignal.t) (m : SetupLifecycleManager) :=
  mkManager (active_signals m) v (timeout_config m) (running m) (state_callbacks m) (stats m) (effects m).
Definition with_stats (v : Stats) (m : SetupLifecycleManager) :=
  mkManager (active_signals m) (signal_history m) (timeout_config m) (running m) (state_callbacks m) v (effects m).
Definition emit (e : Effect) (m : SetupLifecycleManager) :=
  mkManager (active_signals m) (signal_history m) (timeout_config m) (running m) (state_callbacks m) (stats m) (effects m ++ [e]).

(** The [setup_timeouts] section of the configuration: each key may be absent. *)
Record TimeoutSettings := mkTimeoutSettings {
  cfg_reversal_slow : option Z;
  cfg_reversal_violent : option Z;
  cfg_breakout_ignition : option Z;
  cfg_pullback_rejection : option Z;
  cfg_divergence_setup : option Z
}.

Definition init (cfg : TimeoutSettings) : SetupLifecycleManager :=
  mkManager ∅ []
    [ (REVERSAL_SLOW, default 600%Z (cfg_reversal_slow cfg));
      (REVERSAL_VIOLENT, default 300%Z (cfg_reversal_violent cfg));
      (BREAKOUT_IGNITION, default 900%Z (cfg_breakout_ignition cfg));
      (PULLBACK_REJECTION, default 600%Z (cfg_pullback_rejection cfg));
      (DIVERGENCE_SETUP, default 480%Z (cfg_divergence_setup cfg)) ]
    false (fun _ => []) (mkStats 0 0 0 0 0) [].

(** [self.timeout_config.get(setup_type, 300)]. *)
Fixpoint timeout_get (cfg : list (SetupType * Z)) (k : SetupType) (dflt : Z) : Z :=
  match cfg with
  | [] => dflt
  | (k', v) :: rest => if decide (k' = k) then v else timeout_get rest k dflt
  end.

Definition create_signal (signal : StrategicSignal.t) (now : Z)
           (m : SetupLifecycleManager) : Outcome SetupLifecycleManager bool :=
  let timeout_seconds := timeout_get (timeout_config m) (StrategicSignal.setup_type signal) 300 in
  let signal := StrategicSignal.set_expiration (now + seconds timeout_seconds) timeout_seconds signal in
  let signal := StrategicSignal.set_state PENDING signal in
  let m := with_active (<[StrategicSignal.id signal := signal]> (active_signals m)) m in
  let st := stats m in
  let m := with_stats (mkStats (total_created st + 1) (total_executed st) (total_expired st)
                               (total_stopped st) (total_targets_hit st)) m in
  let m := emit (STRATEGIC_SIGNAL_CREATED signal timeout_seconds) m in
  let m := emit (TimerStarted 2 (StrategicSignal.id signal)) m in
  Returned true m.

(** The dict literal of [_is_valid_transition]. *)
Definition valid_transitions (from_state : SignalState) : option (list SignalState) :=
  match from_state with
  | PENDING => Some [ACTIVE; EXPIRED]
  | ACTIVE => Some [EXECUTED; EXPIRED]
  | EXECUTED => Some [STOPPED; TARGET_HIT]
  | EXPIRED => Some []
  | STOPPED => Some []
  | TARGET_HIT => Some []
  end.

Definition _is_valid_transition (from_state to_state : SignalState) : bool :=
  bool_decide (to_state ∈ default [] (valid_transitions from_state)).

(** [del self.active_signals[signal.id]] raises [KeyError] on an absent key. *)
Definition _archive_signal (signal : StrategicSignal.t)
           (m : SetupLifecycleManager) : Outcome SetupLifecycleManager unit :=
  let m := with_history (deque_append 100 (signal_history m) signal) m in
  match active_signals m !! StrategicSignal.id signal with
  | Some _ => Returned tt (with_active (delete (StrategicSignal.id signal) (active_signals m)) m)
  | None => Raised KeyError m
  end.

Definition run_callbacks (handles : list nat) (signal : StrategicSignal.t)
           (m : SetupLifecycleManager) : SetupLifecycleManager :=
  fold_left (fun m h => emit (CallbackInvoked h signal) m) handles m.
Arguments run_callbacks : simpl never.

Definition update_stats (new_state : SignalState) (st : Stats) : Stats :=
  match new_state with
  | EXECUTED => mkStats (total_created st) (total_executed st + 1) (total_expired st)
                        (total_stopped st) (total_targets_hit st)
  | EXPIRED => mkStats (total_created st) (total_executed st) (total_expired st + 1)
                       (total_stopped st) (total_targets_hit st)
  | STOPPED => mkStats (total_created st) (total_executed st) (total_expired st)
                       (total_stopped st + 1) (total_targets_hit st)
  | TARGET_HIT => mkStats (total_created st) (total_executed st) (total_expired st)
                          (total_stopped st) (total_targets_hit st + 1)
  | _ => st
  end.

Definition is_final (s : SignalState) : bool :=
  bool_decide (s ∈ [EXPIRED; STOPPED; TARGET_HIT]).

Definition transition_state (signal_id : string) (new_state : SignalState)
           (kw : StrategicSignal.Kwargs) (now : Z)
           (m : SetupLifecycleManager) : Outcome SetupLifecycleManager bool :=
  match active_signals m !! signal_id with
  | None => Returned false m
  | Some signal =>
      let old_state := StrategicSignal.state signal in
      if negb (_is_valid_transition old_state new_state) then Returned false m
      else
        let signal := StrategicSignal.update_state new_state kw now signal in
        let m := with_active (<[signal_id := signal]> (active_signals m)) m in
        let m := emit (STRATEGIC_SIGNAL_STATE_CHANGED signal_id old_state new_state signal) m in
        let m := run_callbacks (state_callbacks m new_state) signal m in
        let m := with_stats (update_stats new_state (stats m)) m in
        if is_final new_state then
          match _archive_signal signal m with
          | Returned _ m => Returned true m
          | Raised e m => Raised e m
          end
        else Returned true m
  end.

Definition _auto_activate_signal (signal_id : string) (now : Z)
           (m : SetupLifecycleManager) : Outcome SetupLifecycleManager unit :=
  match active_signals m !! signal_id with
  | Some signal =>
      if decide (StrategicSignal.state signal = PENDING) then
        match transition_state signal_id ACTIVE StrategicSignal.no_kwargs now m with
        | Returned _ m => Returned tt m
        | Raised e m => Raised e m
        end
      else Returned tt m
  | None => Returned tt m
  end.

(** Every entry of the active map is filed under the id of its signal:
    [create_signal] is the only writer of new keys. *)
Definition keyed_by_id (m : SetupLifecycleManager) : Prop :=
  forall k s, active_signals m !! k = Some s -> StrategicSignal.id s = k.

(** The transition table as the specification lists it. *)
Definition transition_table : list (SignalState * SignalState) :=
  [ (PENDING, ACTIVE); (PENDING, EXPIRED);
    (ACTIVE, EXECUTED); (ACTIVE, EXPIRED);
    (EXECUTED, STOPPED); (EXECUTED, TARGET_HIT) ].

(** What [create_signal] files under the id of the signal. *)
Definition registered (signal : StrategicSignal.t) (now : Z)
           (m : SetupLifecycleManager) : StrategicSignal.t :=
  let timeout := timeout_get (timeout_config m)
                   (StrategicSignal.setup_type signal) 300 in
  StrategicSignal.set_state PENDING
    (StrategicSignal.set_expiration (now + seconds timeout) timeout signal).

End Lifecycle.

(** ** domain/entities/signal.py *)

Inductive SignalSource :=
| ARBITRAGE | TAPE_READING | CONFLUENCE | SYSTEM | MANIPULATION | STRATEGIC | DIVERGENCE_WARNING.

Inductive SignalLevel := INFO | WARNING | ALERT.

#[global] Instance SignalSource_eq_dec : EqDecision SignalSource.
Proof. solve_decision. Defined.
#[global] Instance SignalLevel_eq_dec : EqDecision SignalLevel.
Proof. solve_decision. Defined.

(** [signal.source.value.lower()]. *)
Definition source_key (s : SignalSource) : string :=
  match s with
  | ARBITRAGE => "arbitrage"
  | TAPE_READING => "tape_reading"
  | CONFLUENCE => "confluence"
  | SYSTEM => "system"
  | MANIPULATION => "manipulation"
  | STRATEGIC => "strategic"
  | DIVERGENCE_WARNING => "divergence_warning"
  end.

(** The two attributes of a divergence event that the core reads. *)
Record DivergenceEvent := mkDivergenceEvent {
  div_symbol : string;
  div_direction : string
}.

(** The [details] dict of a display signal, restricted to the keys the core
    reads; each key is either absent or bound to a value of the expected
    type. *)
Record Details := mkDetails {
  profit_reais : option Q;
  profit : option Q;
  confirmations : option (list string);
  original_pattern : option string;
  cvd_roc : option Q;
  divergence_event : option DivergenceEvent
}.

Definition no_details : Details := mkDetails None None None None None None.

Module Signal.

Record t := mk {
  source : SignalSource;
  level : SignalLevel;
  message : string;
  timestamp : Z;
  details : Details
}.

End Signal.

(** ** application/services/risk_management_service.py *)

Module Risk.

Inductive RiskLevel := LOW | MEDIUM | HIGH | CRITICAL.
Inductive SignalQuality := POOR | FAIR | GOOD | EXCELLENT.

#[global] Instance RiskLevel_eq_dec : EqDecision RiskLevel.
Proof. solve_decision. Defined.

(** The [circuit_breakers] dict: its five keys are bound from construction on
    and never removed. *)
Record CircuitBreakers := mkBreakers {
  cb_frequency : bool;
  cb_quality : bool;
  cb_drawdown : bool;
  cb_consecutive_losses : bool;
  cb_emergency : bool
}.

(** [self.circuit_breakers[breaker]] for an arbitrary key; [None] when
    [breaker not in self.circuit_breakers]. *)
Definition breaker_get (breaker : string) (b : CircuitBreakers) : option bool :=
  if breaker =? "frequency" then Some (cb_frequency b)
  else if breaker =? "quality" then Some (cb_quality b)
  else if breaker =? "drawdown" then Some (cb_drawdown b)
  else if breaker =? "consecutive_losses" then Some (cb_consecutive_losses b)
  else if breaker =? "emergency" then Some (cb_emergency b)
  else None.

Definition breaker_set (breaker : string) (v : bool) (b : CircuitBreakers) : CircuitBreakers :=
  if breaker =? "frequency" then mkBreakers v (cb_quality b) (cb_drawdown b) (cb_consecutive_losses b) (cb_emergency b)
  else if breaker =? "quality" then mkBreakers (cb_frequency b) v (cb_drawdown b) (cb_consecutive_losses b) (cb_emergency b)
  else if breaker =? "drawdown" then mkBreakers (cb_frequency b) (cb_quality b) v (cb_consecutive_losses b) (cb_emergency b)
  else if breaker =? "consecutive_losses" then mkBreakers (cb_frequency b) (cb_quality b) (cb_drawdown b) v (cb_emergency b)
  else if breaker =? "emergency" then mkBreakers (cb_frequency b) (cb_quality b) (cb_drawdown b) (cb_consecutive_losses b) v
  else b.

(** The [signal_timestamps] dict of bounded deques. *)
Record Timestamps := mkTimestamps {
  ts_all : list Z;          (* maxlen 500 *)
  ts_confluence : list Z;   (* maxlen 100 *)
  ts_arbitrage : list Z;    (* maxlen 200 *)
  ts_tape_reading : list Z  (* maxlen 300 *)
}.

Record Metrics := mkMetrics {
  total_signals : Z;
  signals_approved : Z;
  signals_rejected : Z;
  consecutive_losses : Z;
  daily_pnl : Q;
  peak_pnl : Q;
  current_drawdown : Q;
  risk_level : RiskLevel
}.

Inductive FrequencyReason :=
| PerMinute (count limit : Z)
| PerHour (count limit : Z)
| ConfluencePerHour (count limit : Z).

Inductive RiskFactor :=
| SystemCritical | SystemHigh | SystemMedium
| NearMaxDrawdown | ManyConsecutiveLosses | LowLiquidityHour | ExtremeVolatility.

(** The entries of [assessment['reasons']]; the numbers that the source
    formats into the text are kept as data. *)
Inductive Reason :=
| EmergencyBreaker
| ConsecutiveLossesBreaker (limit : Q)
| DrawdownBreaker (limit : Q)
| FrequencyBreaker
| QualityBreaker
| FrequencyLimit (why : FrequencyReason)
| InsufficientQuality (score : Q)
| HighContextualRisk (factors : list RiskFactor).

Record Assessment := mkAssessment {
  approved : bool;
  assessed_risk : RiskLevel;
  quality : SignalQuality;
  reasons : list Reason;
  recommendations : list string;
  assessed_at : Z
}.

Inductive Event :=
| SIGNAL_APPROVED (signal : Signal.t) (assessment : Assessment)
| SIGNAL_REJECTED (signal : Signal.t) (assessment : Assessment)
| RISK_OVERRIDE (breaker : string) (old_state new_state : bool) (reason : string) (at_time : Z).

Record RiskManagementService := mkService {
  max_signals_per_minute : Z;
  max_signals_per_hour : Z;
  max_confluence_per_hour : Z;
  signal_quality_threshold : Q;
  consecutive_losses_limit : Q;
  max_drawdown_percent : Q;
  emergency_stop_loss : Q;
  signal_history : list (Signal.t * Assessment * Z);
  signal_timestamps : Timestamps;
  performance_metrics : Metrics;
  circuit_breakers : CircuitBreakers;
  events : list Event
}.

Definition with_history v (s : RiskManagementService) :=
  mkService (max_signals_per_minute s) (max_signals_per_hour s) (max_confluence_per_hour s) (signal_quality_threshold s) (consecutive_losses_limit s) (max_drawdown_percent s) (emergency_stop_loss s) v (signal_timestamps s) (performance_metrics s) (circuit_breakers s) (events s).
Definition with_timestamps v (s : RiskManagementService) :=
  mkService (max_signals_per_minute s) (max_signals_per_hour s) (max_confluence_per_hour s) (signal_quality_threshold s) (consecutive_losses_limit s) (max_drawdown_percent s) (emergency_stop_loss s) (signal_history s) v (performance_metrics s) (circuit_breakers s) (events s).
Definition with_metrics v (s : RiskManagementService) :=
  mkService (max_signals_per_minute s) (max_signals_per_hour s) (max_confluence_per_hour s) (signal_quality_threshold s) (consecutive_losses_limit s) (max_drawdown_percent s) (emergency_stop_loss s) (signal_history s) (signal_timestamps s) v (circuit_breakers s) (events s).
Definition with_breakers v (s : RiskManagementService) :=
  mkService (max_signals_per_minute s) (max_signals_per_hour s) (max_confluence_per_hour s) (signal_quality_threshold s) (consecutive_losses_limit s) (max_drawdown_percent s) (emergency_stop_loss s) (signal_history s) (signal_timestamps s) (performance_metrics s) v (events s).
Definition publish (e : Event) (s : RiskManagementService) :=
  mkService (max_signals_per_minute s) (max_signals_per_hour s) (max_confluence_per_hour s) (signal_quality_threshold s) (consecutive_losses_limit s) (max_drawdown_percent s) (emergency_stop_loss s) (signal_history s) (signal_timestamps s) (performance_metrics s) (circuit_breakers s) (events s ++ [e]).

(** The [risk_management] section of the configuration: each key may be absent. *)
Record Settings := mkSettings {
  cfg_max_signals_per_minute : option Z;
  cfg_max_signals_per_hour : option Z;
  cfg_max_confluence_per_hour : option Z;
  cfg_signal_quality_threshold : option Q;
  cfg_consecutive_losses_limit : option Q;
  cfg_max_drawdown_percent : option Q;
  cfg_emergency_stop_loss : option Q
}.

Definition default_settings : Settings := mkSettings None None None None None None None.

Definition init (cfg : Settings) : RiskManagementService :=
  mkService
    (default 10%Z (cfg_max_signals_per_minute cfg))
    (default 100%Z (cfg_max_signals_per_hour cfg))
    (default 20%Z (cfg_max_confluence_per_hour cfg))
    (default 0.4%Q (cfg_signal_quality_threshold cfg))
    (default 5%Q (cfg_consecutive_losses_limit cfg))
    (default 2.0%Q (cfg_max_drawdown_percent cfg))
    (default 1000.0%Q (cfg_emergency_stop_loss cfg))
    []
    (mkTimestamps [] [] [] [])
    (mkMetrics 0 0 0 0 0 0 0 LOW)
    (mkBreakers false false false false false)
    [].

Definition _calculate_current_risk_level (s : RiskManagementService) : RiskLevel :=
  let cb := circuit_breakers s in
  let metrics := performance_metrics s in
  let losses := inject_Z (consecutive_losses metrics) in
  if cb_emergency cb then CRITICAL
  else if cb_consecutive_losses cb || cb_drawdown cb then CRITICAL
  else if Qgeb losses (consecutive_losses_limit s) then CRITICAL
  else if Qgeb losses (consecutive_losses_limit s * 0.6) then HIGH
  else if Qgeb losses (consecutive_losses_limit s * 0.3) then MEDIUM
  else if Qgeb (current_drawdown metrics) (max_drawdown_percent s) then CRITICAL
  else if Qgeb (current_drawdown metrics) (max_drawdown_percent s * 0.7) then HIGH
  else if Qgeb (current_drawdown metrics) (max_drawdown_percent s * 0.4) then MEDIUM
  else if Qleb (daily_pnl metrics) (- emergency_stop_loss s) then CRITICAL
  else if Qleb (daily_pnl metrics) (- emergency_stop_loss s * 0.5) then HIGH
  else if Qleb (daily_pnl metrics) (- emergency_stop_loss s * 0.2) then MEDIUM
  else LOW.

(** Returns [(all_clear, triggered)]. *)
Definition _check_circuit_breakers (s : RiskManagementService) : bool * list Reason :=
  let cb := circuit_breakers s in
  let r := (true, []) in
  let r := if cb_emergency cb then (false, snd r ++ [EmergencyBreaker]) else r in
  let r := if cb_consecutive_losses cb
           then (false, snd r ++ [ConsecutiveLossesBreaker (consecutive_losses_limit s)]) else r in
  let r := if cb_drawdown cb
           then (false, snd r ++ [DrawdownBreaker (max_drawdown_percent s)]) else r in
  let r := if cb_frequency cb then (false, snd r ++ [FrequencyBreaker]) else r in
  let r := if cb_quality cb then (false, snd r ++ [QualityBreaker]) else r in
  r.

(** [sum(1 for ts in d if ts > bound)]. *)
Definition count_after (bound : Z) (d : list Z) : Z :=
  Z.of_nat (length (filter (fun ts => bound < ts)%Z d)).

(** Returns [None] when within limits, the reason otherwise. *)
Definition _check_signal_frequency (signal : Signal.t) (now : Z)
           (s : RiskManagementService) : option FrequencyReason :=
  let one_minute_ago := (now - seconds 60)%Z in
  let signals_last_minute := count_after one_minute_ago (ts_all (signal_timestamps s)) in
  if (max_signals_per_minute s <=? signals_last_minute)%Z
  then Some (PerMinute signals_last_minute (max_signals_per_minute s))
  else
    let one_hour_ago := (now - seconds 3600)%Z in
    let signals_last_hour := count_after one_hour_ago (ts_all (signal_timestamps s)) in
    if (max_signals_per_hour s <=? signals_last_hour)%Z
    then Some (PerHour signals_last_hour (max_signals_per_hour s))
    else
      let confluence_last_hour :=
        count_after one_hour_ago (ts_confluence (signal_timestamps s)) in
      if bool_decide (Signal.source signal = CONFLUENCE)
         && (max_confluence_per_hour s <=? confluence_last_hour)%Z
      then Some (ConfluencePerHour confluence_last_hour (max_confluence_per_hour s))
      else None.

Record QualityResult := mkQuality {
  q_score : Q;
  q_rating : SignalQuality;
  q_improvements : list string
}.

Definition high_quality_patterns : list string :=
  ["ESCORA_DETECTADA"; "DIVERGENCIA_ALTA"; "DIVERGENCIA_BAIXA"; "ICEBERG"].

(** The [criteria] texts of the source are only carried in the result dict
    and read by nobody; they are left out. *)
Definition _evaluate_signal_quality (signal : Signal.t) : QualityResult :=
  let details := Signal.details signal in
  (* 1. source, weight 1.5 *)
  let '(score, improvements) :=
    match Signal.source signal with
    | CONFLUENCE => (1.5%Q, [])
    | ARBITRAGE => (1.2%Q, [])
    | TAPE_READING => (0.8%Q, [])
    | _ => (0.4%Q, ["Sinais de confluência têm maior confiabilidade"])
    end in
  (* 2. level, weight 0.8 *)
  let score :=
    match Signal.level signal with
    | ALERT => (score + 0.8)%Q
    | WARNING => (score + 0.5)%Q
    | INFO => (score + 0.2)%Q
    end in
  (* 3. details, weight 1.5 *)
  let '(score, improvements) :=
    match profit_reais details, profit details with
    | None, None => (score, improvements)
    | pr, p =>
        let profit := default (default 0%Q p) pr in
        if Qgeb profit 50 then ((score + 0.8)%Q, improvements)
        else if Qgeb profit 20 then ((score + 0.5)%Q, improvements)
        else ((score + 0.2)%Q,
              improvements ++ ["Busque oportunidades com maior potencial de lucro"])
    end in
  let '(score, improvements) :=
    match confirmations details with
    | None => (score, improvements)
    | Some cs =>
        let num_confirmations := length cs in
        if (3 <=? num_confirmations)%nat then ((score + 0.7)%Q, improvements)
        else if (2 <=? num_confirmations)%nat then ((score + 0.5)%Q, improvements)
        else ((score + 0.2)%Q,
              improvements ++ ["Aguarde mais confirmações para maior segurança"])
    end in
  (* 4. pattern, weight 0.8 *)
  let pattern := default "" (original_pattern details) in
  let score :=
    if bool_decide (pattern ∈ high_quality_patterns) then (score + 0.8)%Q
    else if negb (pattern =? "") then (score + 0.4)%Q
    else score in
  let max_score := (1.5 + 0.8 + 1.5 + 0.8)%Q in
  let normalized_score := if Qgtb max_score 0 then (score / max_score)%Q else 0%Q in
  let rating :=
    if Qgeb normalized_score 0.8 then EXCELLENT
    else if Qgeb normalized_score 0.6 then GOOD
    else if Qgeb normalized_score 0.4 then FAIR
    else POOR in
  mkQuality normalized_score rating improvements.

(** [datetime.now().hour], the datetime being microseconds of local time. *)
Definition hour_of (now : Z) : Z := ((now / seconds 3600) mod 24)%Z.

Record ContextRisk := mkContextRisk {
  ctx_level : RiskLevel;
  ctx_score : Z;
  ctx_factors : list RiskFactor
}.

Definition _evaluate_contextual_risk (signal : Signal.t) (now : Z)
           (s : RiskManagementService) : ContextRisk :=
  let metrics := performance_metrics s in
  let '(risk_score, risk_factors) :=
    match _calculate_current_risk_level s with
    | CRITICAL => (3%Z, [SystemCritical])
    | HIGH => (2%Z, [SystemHigh])
    | MEDIUM => (1%Z, [SystemMedium])
    | LOW => (0%Z, [])
    end in
  let '(risk_score, risk_factors) :=
    if Qgtb (current_drawdown metrics) (max_drawdown_percent s * 0.7)
    then ((risk_score + 2)%Z, risk_factors ++ [NearMaxDrawdown])
    else (risk_score, risk_factors) in
  let '(risk_score, risk_factors) :=
    if Qgeb (inject_Z (consecutive_losses metrics)) (consecutive_losses_limit s * 0.7)
    then ((risk_score + 2)%Z, risk_factors ++ [ManyConsecutiveLosses])
    else (risk_score, risk_factors) in
  let current_hour := hour_of now in
  let '(risk_score, risk_factors) :=
    if (current_hour <? 10)%Z || (16 <? current_hour)%Z
    then ((risk_score + 1)%Z, risk_factors ++ [LowLiquidityHour])
    else (risk_score, risk_factors) in
  let '(risk_score, risk_factors) :=
    match cvd_roc (Signal.details signal) with
    | Some roc =>
        if Qgtb (Qabs roc) 150
        then ((risk_score + 1)%Z, risk_factors ++ [ExtremeVolatility])
        else (risk_score, risk_factors)
    | None => (risk_score, risk_factors)
    end in
  let level :=
    if (4 <=? risk_score)%Z then CRITICAL
    else if (3 <=? risk_score)%Z then HIGH
    else if (2 <=? risk_score)%Z then MEDIUM
    else LOW in
  mkContextRisk level risk_score risk_factors.

Definition _get_risk_recommendations (q : QualityResult) : list string :=
  match q_rating q with
  | EXCELLENT => ["✅ Sinal de alta qualidade"]
  | GOOD => ["⚡ Sinal bom"]
  | _ => []
  end.

(** Appends to the deque filed under [key], when there is one. *)
Definition append_for_source (key : string) (now : Z) (t : Timestamps) : Timestamps :=
  if key =? "all" then mkTimestamps (deque_append 500 (ts_all t) now) (ts_confluence t) (ts_arbitrage t) (ts_tape_reading t)
  else if key =? "confluence" then mkTimestamps (ts_all t) (deque_append 100 (ts_confluence t) now) (ts_arbitrage t) (ts_tape_reading t)
  else if key =? "arbitrage" then mkTimestamps (ts_all t) (ts_confluence t) (deque_append 200 (ts_arbitrage t) now) (ts_tape_reading t)
  else if key =? "tape_reading" then mkTimestamps (ts_all t) (ts_confluence t) (ts_arbitrage t) (deque_append 300 (ts_tape_reading t) now)
  else t.

Definition _record_signal_approval (signal : Signal.t) (assessment : Assessment) (now : Z)
           (s : RiskManagementService) : RiskManagementService :=
  let m := performance_metrics s in
  let s := with_metrics (mkMetrics (total_signals m + 1) (signals_approved m + 1)
                           (signals_rejected m) (consecutive_losses m) (daily_pnl m)
                           (peak_pnl m) (current_drawdown m) (risk_level m)) s in
  let s := with_timestamps (append_for_source "all" now (signal_timestamps s)) s in
  let s := with_timestamps
             (append_for_source (source_key (Signal.source signal)) now (signal_timestamps s)) s in
  let s := with_history (deque_append 1000 (signal_history s) (signal, assessment, now)) s in
  publish (SIGNAL_APPROVED signal assessment) s.

Definition evaluate_signal (signal : Signal.t) (now : Z) (s : RiskManagementService)
  : bool * Assessment * RiskManagementService :=
  (* 1. circuit breakers *)
  let cb_check := _check_circuit_breakers s in
  if negb (fst cb_check)
  then (false, mkAssessment false CRITICAL POOR (snd cb_check) [] now, s)
  else
    (* 2. frequency *)
    match _check_signal_frequency signal now s with
    | Some why => (false, mkAssessment false HIGH POOR [FrequencyLimit why] [] now, s)
    | None =>
        (* 3. quality *)
        let quality := _evaluate_signal_quality signal in
        if Qltb (q_score quality) (signal_quality_threshold s)
        then (false,
              mkAssessment false MEDIUM (q_rating quality)
                [InsufficientQuality (q_score quality)] (q_improvements quality) now, s)
        else
          (* 4. contextual risk *)
          let context_risk := _evaluate_contextual_risk signal now s in
          if bool_decide (ctx_level context_risk ∈ [HIGH; CRITICAL])
          then (false,
                mkAssessment false (ctx_level context_risk) (q_rating quality)
                  [HighContextualRisk (ctx_factors context_risk)] [] now, s)
          else
            (* 5. approved *)
            let assessment :=
              mkAssessment true (ctx_level context_risk) (q_rating quality) []
                (_get_risk_recommendations quality) now in
            (true, assessment, _record_signal_approval signal assessment now s)
    end.

Definition _handle_signal_generated (signal : Signal.t) (now : Z)
           (s : RiskManagementService) : RiskManagementService :=
  let '(ok, assessment, s) := evaluate_signal signal now s in
  if ok then s
  else
    let m := performance_metrics s in
    let s := with_metrics (mkMetrics (total_signals m) (signals_approved m)
                             (signals_rejected m + 1) (consecutive_losses m) (daily_pnl m)
                             (peak_pnl m) (current_drawdown m) (risk_level m)) s in
    publish (SIGNAL_REJECTED signal assessment) s.

Definition _update_circuit_breakers (s : RiskManagementService) : RiskManagementService :=
  let m := performance_metrics s in
  let cb := circuit_breakers s in
  with_breakers
    (mkBreakers (cb_frequency cb) (cb_quality cb)
       (Qgeb (current_drawdown m) (max_drawdown_percent s))
       (Qgeb (inject_Z (consecutive_losses m)) (consecutive_losses_limit s))
       (Qleb (daily_pnl m) (- emergency_stop_loss s)))
    s.

(** [trade_result.get('pnl', 0)] is passed as an optional number. *)
Definition _handle_trade_closed (trade_pnl : option Q)
           (s : RiskManagementService) : RiskManagementService :=
  let pnl := default 0%Q trade_pnl in
  let m := performance_metrics s in
  let daily := (daily_pnl m + pnl)%Q in
  let peak := if Qgtb daily (peak_pnl m) then daily else peak_pnl m in
  let drawdown := (peak - daily)%Q in
  let drawdown_pct := if Qgtb peak 0 then (drawdown / peak * 100)%Q else 0%Q in
  let losses := if Qltb pnl 0 then (consecutive_losses m + 1)%Z else 0%Z in
  let s := with_metrics (mkMetrics (total_signals m) (signals_approved m) (signals_rejected m)
                           losses daily peak drawdown_pct (risk_level m)) s in
  _update_circuit_breakers s.

Definition reset_daily_metrics (now : Z) (s : RiskManagementService) : RiskManagementService :=
  let m := performance_metrics s in
  let s := with_metrics (mkMetrics (total_signals m) (signals_approved m) (signals_rejected m)
                           (consecutive_losses m) 0 0 0 (risk_level m)) s in
  let cb := circuit_breakers s in
  let s := with_breakers (mkBreakers (cb_frequency cb) (cb_quality cb) (cb_drawdown cb)
                            (cb_consecutive_losses cb) false) s in
  let cutoff := (now - seconds (24 * 3600))%Z in
  let keep := filter (fun ts => cutoff < ts)%Z in
  let t := signal_timestamps s in
  with_timestamps (mkTimestamps (keep (ts_all t)) (keep (ts_confluence t))
                     (keep (ts_arbitrage t)) (keep (ts_tape_reading t))) s.

Definition manual_override (breaker : string) (active : bool) (reason : string) (now : Z)
           (s : RiskManagementService) : RiskManagementService :=
  match breaker_get breaker (circuit_breakers s) with
  | Some old_state =>
      let s := with_breakers (breaker_set breaker active (circuit_breakers s)) s in
      publish (RISK_OVERRIDE breaker old_state active reason now) s
  | None => s
  end.

(** Evaluating a stream of candidates, each at its own time. *)
Fixpoint evaluate_all (candidates : list (Signal.t * Z)) (s : RiskManagementService)
  : list bool * RiskManagementService :=
  match candidates with
  | [] => ([], s)
  | (signal, now) :: rest =>
      let '(ok, _, s) := evaluate_signal signal now s in
      let '(oks, s) := evaluate_all rest s in
      (ok :: oks, s)
  end.

End Risk.

(** The four subscriptions of [_subscribe_to_events]. *)
Module RiskBus.
Import Risk.

(** The body only logs, when the streak of losses is positive. *)
Definition _handle_trade_executed (s : RiskManagementService) : RiskManagementService := s.

(** The body is its docstring. *)
Definition _handle_market_update (s : RiskManagementService) : RiskManagementService := s.

Inductive Delivery :=
| SIGNAL_GENERATED (signal : Signal.t)
| TRADE_EXECUTED
| TRADE_CLOSED (trade_pnl : option Q)
| MARKET_DATA_UPDATED.

Definition handle (d : Delivery) (now : Z) (s : RiskManagementService)
  : RiskManagementService :=
  match d with
  | SIGNAL_GENERATED signal => _handle_signal_generated signal now s
  | TRADE_EXECUTED => _handle_trade_executed s
  | TRADE_CLOSED trade_pnl => _handle_trade_closed trade_pnl s
  | MARKET_DATA_UPDATED => _handle_market_update s
  end.

Fixpoint deliver_all (ds : list (Delivery * Z)) (s : RiskManagementService)
  : RiskManagementService :=
  match ds with
  | [] => s
  | (d, now) :: rest => deliver_all rest (handle d now s)
  end.

Definition is_trade_closed (d : Delivery) : bool :=
  match d with
  | TRADE_CLOSED _ => true
  | _ => false
  end.

End RiskBus.

(** ** String formatting of numbers *)

Definition round_half_even (q : Q) : Z :=
  let f := Qfloor q in
  let r := (q - inject_Z f)%Q in
  if Qltb r 0.5 then f
  else if Qgtb r 0.5 then (f + 1)%Z
  else if Z.even f then f else (f + 1)%Z.

Fixpoint zero_pad (width : nat) (digits : string) : string :=
  match width with
  | O => digits
  | S w => if (String.length digits <? width)%nat
           then zero_pad w ("0" ++ digits)%string else digits
  end.

(** [f"{q:.<digits>f}"], on the rational the float stands for. *)
Definition format_fixed (digits : nat) (q : Q) : string :=
  let scale := (10 ^ Z.of_nat digits)%Z in
  let n := round_half_even (q * inject_Z scale) in
  let sign := if (n <? 0)%Z then "-" else "" in
  let whole := pretty (Z.abs n / scale)%Z in
  match digits with
  | O => (sign ++ whole)%string
  | _ => (sign ++ whole ++ "." ++ zero_pad digits (pretty (Z.abs n mod scale)%Z))%string
  end.

(** ** domain/entities/book.py, trade.py, market_data.py *)

Module BookLevel.
Record t := mk { price : Q; volume : Z }.
End BookLevel.

Module OrderBook.
Record t := mk { bids : list BookLevel.t; asks : list BookLevel.t }.
End OrderBook.

Module Trade.
Record t := mk {
  symbol : string;
  price : Q;
  volume : Z;
  side : string;
  timestamp : Z;
  time_str : string
}.
End Trade.

Module MarketSymbolData.
Record t := mk {
  trades : list Trade.t;
  book : OrderBook.t;
  last_price : Q;
  total_volume : Z
}.
End MarketSymbolData.

Module MarketData.
(** [data] is a dict in insertion order. *)
Record t := mk {
  timestamp : Z;
  data : list (string * MarketSymbolData.t)
}.

Fixpoint lookup (symbol : string) (d : list (string * MarketSymbolData.t))
  : option MarketSymbolData.t :=
  match d with
  | [] => None
  | (k, v) :: rest => if k =? symbol then Some v else lookup symbol rest
  end.
End MarketData.

(** ** analyzers/confluence/context_filters.py *)

Module FilterResult.
Record t := mk {
  passed : bool;
  score : Q;
  reason : string;
  adjustments : Adjustments;
  warnings : list string
}.
End FilterResult.

(** The consolidated dict returned by [apply_all]. *)
Module Consolidated.
Record t := mk {
  passed : bool;
  final_score : Q;
  confidence_multiplier : Q;
  filter_results : list (string * FilterResult.t);
  adjustments : Adjustments;
  warnings : list string;
  recommendation : string
}.
End Consolidated.

Module Filters.

Record ContextFilters := mkFilters {
  enabled : bool;
  manipulation_threshold : Q
}.

Definition init : ContextFilters := mkFilters true 5.0.

(** The two keys of the context dict that [apply_all] reads. *)
Record Context := mkContext {
  book : option OrderBook.t;
  volatility : option string
}.

Definition _check_basic_validity (signal : StrategicSignal.t) : FilterResult.t :=
  if Qleb (StrategicSignal.stop_loss signal) 0 || Qleb (StrategicSignal.entry_price signal) 0
  then FilterResult.mk false 0.0 "Preços inválidos" no_adjustments
         ["Preço de entrada ou stop inválido"]
  else if Qltb (StrategicSignal.risk_reward signal) 1.0
  then FilterResult.mk true 0.6 "Risk/reward baixo" no_adjustments ["R/R abaixo de 1:1"]
  else FilterResult.mk true 1.0 "Validações básicas OK" no_adjustments [].

Definition sum_volume (levels : list BookLevel.t) : Z :=
  fold_left (fun acc level => (acc + BookLevel.volume level)%Z) levels 0%Z.

Definition _check_manipulation (f : ContextFilters) (book : OrderBook.t) : FilterResult.t :=
  let clean := FilterResult.mk true 1.0 "" no_adjustments [] in
  match OrderBook.bids book, OrderBook.asks book with
  | [], _ | _, [] => clean
  | _, _ =>
      let bid_volume := sum_volume (take 5 (OrderBook.bids book)) in
      let ask_volume := sum_volume (take 5 (OrderBook.asks book)) in
      if (bid_volume =? 0)%Z || (ask_volume =? 0)%Z then clean
      else
        let imbalance_ratio := py_max (inject_Z bid_volume / inject_Z ask_volume)
                                      (inject_Z ask_volume / inject_Z bid_volume) in
        if Qgtb imbalance_ratio (manipulation_threshold f) then
          let heavier_side := if (ask_volume <? bid_volume)%Z then "compra" else "venda" in
          FilterResult.mk true 0.5 ""
            (mkAdjustments None None (Some 0.7%Q) (Some true))
            [("Book desbalanceado na " ++ heavier_side ++ " ("
                ++ format_fixed 1 imbalance_ratio ++ "x)")%string]
        else clean
  end.

Definition _adjust_for_volatility (volatility : string) : FilterResult.t :=
  let adjustments :=
    if volatility =? "HIGH" then mkAdjustments None (Some 1.3%Q) (Some 0.8%Q) None
    else if volatility =? "EXTREME" then mkAdjustments None (Some 1.5%Q) (Some 0.6%Q) None
    else if volatility =? "LOW" then mkAdjustments (Some 0.8%Q) None None None
    else no_adjustments in
  FilterResult.mk true
    (if bool_decide (volatility ∈ ["HIGH"; "EXTREME"]) then 0.8 else 1.0)
    "" adjustments [].

Definition _get_recommendation (passed : bool) (score : Q) : string :=
  if negb passed then "SKIP - Filtros não aprovaram"
  else if Qgeb score 0.8 then "PROCEED - Contexto favorável"
  else if Qgeb score 0.6 then "PROCEED_CAUTIOUS - Contexto moderado"
  else "WAIT - Aguarde melhor contexto".

Definition _create_pass_result : Consolidated.t :=
  Consolidated.mk true 1.0 1.0 [] no_adjustments [] "PROCEED - Filtros desabilitados".

Definition _create_fail_result (reason : string) (warnings : list string) : Consolidated.t :=
  Consolidated.mk false 0.0 0.5 [] no_adjustments warnings ("SKIP - " ++ reason)%string.

Definition sum_scores (results : list (string * FilterResult.t)) : Q :=
  fold_left (fun acc r => (acc + FilterResult.score (snd r))%Q) results 0%Q.

Definition apply_all (f : ContextFilters) (signal : StrategicSignal.t) (context : Context)
  : Consolidated.t :=
  if negb (enabled f) then _create_pass_result
  else
    let basic_result := _check_basic_validity signal in
    let results := [("basic", basic_result)] in
    if negb (FilterResult.passed basic_result)
    then _create_fail_result (FilterResult.reason basic_result)
                             (FilterResult.warnings basic_result)
    else
      let '(results, warnings, adjustments) :=
        match book context with
        | Some b =>
            let manip_result := _check_manipulation f b in
            (results ++ [("manipulation", manip_result)],
             FilterResult.warnings manip_result,
             adjustments_update no_adjustments (FilterResult.adjustments manip_result))
        | None => (results, [], no_adjustments)
        end in
      let '(results, adjustments) :=
        match volatility context with
        | Some v =>
            if v =? "" then (results, adjustments)
            else
              let vol_result := _adjust_for_volatility v in
              (results ++ [("volatility", vol_result)],
               adjustments_update adjustments (FilterResult.adjustments vol_result))
        | None => (results, adjustments)
        end in
      let total_score := (sum_scores results / inject_Z (Z.of_nat (length results)))%Q in
      let passed := Qgeb total_score 0.5
                    && negb (existsb (fun r => Qltb (FilterResult.score (snd r)) 0.3) results) in
      let confidence_multiplier := py_min (py_max total_score 0.5) 1.0 in
      Consolidated.mk passed total_score confidence_multiplier results adjustments
        (take 3 warnings) (_get_recommendation passed total_score).

End Filters.

(** ** application/services/strategic_signal_service.py *)

Module Factory.

(** One entry of [pending_confluence].  The source stores a reference to the
    candidate; of that object, later pairings read only [direction],
    [entry_price], [setup_type] and [timestamp], none of which is assigned
    after the entry is stored, so the entry is kept as the value it had. *)
Record Slot := mkSlot {
  slot_signal : StrategicSignal.t;
  slot_timestamp : Z
}.

Record ConfluenceConfig := mkConfluenceConfig {
  timeout_seconds : Z;
  price_divergence_max : Q;
  cvd_divergence_max : Q;
  direction_must_match : bool;
  confidence_boost : Q;
  confidence_penalty : Q
}.

Definition default_confluence_config : ConfluenceConfig :=
  mkConfluenceConfig 10 0.0005 200 true 0.15 0.20.

Record Stats := mkStats {
  signals_created : Z;
  signals_filtered : Z;
  confluence_matches : Z;
  confluence_conflicts : Z;
  signals_executed : Z
}.

Record StrategicSignalService := mkService {
  lifecycle_manager : Lifecycle.SetupLifecycleManager;
  context_filters : Filters.ContextFilters;
  pending_confluence : gmap string Slot;
  confluence_config : ConfluenceConfig;
  stats : Stats;
  last_market_data : option MarketData.t;
  published : list Signal.t   (* SIGNAL_GENERATED events, in order *)
}.

Definition with_lifecycle v (s : StrategicSignalService) :=
  mkService v (context_filters s) (pending_confluence s) (confluence_config s) (stats s) (last_market_data s) (published s).
Definition with_pending v (s : StrategicSignalService) :=
  mkService (lifecycle_manager s) (context_filters s) v (confluence_config s) (stats s) (last_market_data s) (published s).
Definition with_stats v (s : StrategicSignalService) :=
  mkService (lifecycle_manager s) (context_filters s) (pending_confluence s) (confluence_config s) v (last_market_data s) (published s).
Definition with_market_data v (s : StrategicSignalService) :=
  mkService (lifecycle_manager s) (context_filters s) (pending_confluence s) (confluence_config s) (stats s) v (published s).
Definition publish (e : Signal.t) (s : StrategicSignalService) :=
  mkService (lifecycle_manager s) (context_filters s) (pending_confluence s) (confluence_config s) (stats s) (last_market_data s) (published s ++ [e]).

Definition init (lifecycle : Lifecycle.SetupLifecycleManager) : StrategicSignalService :=
  mkService lifecycle Filters.init ∅ default_confluence_config (mkStats 0 0 0 0 0) None [].

Definition _determine_entry_type (setup_type : SetupType) : EntryType :=
  match setup_type with
  | REVERSAL_VIOLENT => MARKET
  | REVERSAL_SLOW | PULLBACK_REJECTION => LIMIT
  | BREAKOUT_IGNITION => STOP
  | _ => ADAPTIVE
  end.

(** The context dict has no top-level ['volatility'] key (the regime summary
    is filed under ['regime_info'], which no filter reads). *)
Definition _build_context (symbol : string) (s : StrategicSignalService) : Filters.Context :=
  let book :=
    match last_market_data s with
    | Some market_data =>
        match MarketData.lookup symbol (MarketData.data market_data) with
        | Some symbol_data => Some (MarketSymbolData.book symbol_data)
        | None => None
        end
    | None => None
    end in
  Filters.mkContext book None.

Inductive ConfluenceDetails :=
| WaitingPair
| OppositeDirections (signal1_direction signal2_direction : string)
| PriceDivergence (divergence : Q)
| IncompatibleSetups (setup1 setup2 : SetupType)
| OutOfStep (time_diff_seconds : Q)
| PerfectMatch (price_alignment time_alignment : Q).

Record ConfluenceResult := mkConfluence {
  status : ConflictStatus;
  details : ConfluenceDetails
}.

(** The dict literal of [_analyze_confluence]. *)
Definition compatible_setups (setup_type : SetupType) : option (list SetupType) :=
  match setup_type with
  | REVERSAL_SLOW => Some [REVERSAL_SLOW; DIVERGENCE_SETUP]
  | REVERSAL_VIOLENT => Some [REVERSAL_VIOLENT; REVERSAL_SLOW]
  | BREAKOUT_IGNITION => Some [BREAKOUT_IGNITION; PULLBACK_REJECTION]
  | PULLBACK_REJECTION => Some [PULLBACK_REJECTION; BREAKOUT_IGNITION]
  | DIVERGENCE_SETUP => Some [DIVERGENCE_SETUP; REVERSAL_SLOW]
  end.

Definition _analyze_confluence (cfg : ConfluenceConfig) (signal1 signal2 : StrategicSignal.t)
  : ConfluenceResult :=
  if negb (StrategicSignal.direction signal1 =? StrategicSignal.direction signal2)
  then mkConfluence MAJOR_CONFLICT
         (OppositeDirections (StrategicSignal.direction signal1)
                             (StrategicSignal.direction signal2))
  else
    let price_diff := Qabs (StrategicSignal.entry_price signal1
                            - StrategicSignal.entry_price signal2) in
    let avg_price := ((StrategicSignal.entry_price signal1
                       + StrategicSignal.entry_price signal2) / 2)%Q in
    let price_divergence := if Qgtb avg_price 0 then (price_diff / avg_price)%Q else 0%Q in
    if Qgtb price_divergence (price_divergence_max cfg)
    then mkConfluence MINOR_CONFLICT (PriceDivergence price_divergence)
    else if negb (bool_decide
                    (StrategicSignal.setup_type signal2
                       ∈ default [] (compatible_setups (StrategicSignal.setup_type signal1))))
    then mkConfluence MINOR_CONFLICT
           (IncompatibleSetups (StrategicSignal.setup_type signal1)
                               (StrategicSignal.setup_type signal2))
    else
      let time_diff :=
        Qabs (timedelta_total_seconds
                (StrategicSignal.timestamp signal1 - StrategicSignal.timestamp signal2)) in
      if Qgtb time_diff 30
      then mkConfluence MINOR_CONFLICT (OutOfStep time_diff)
      else mkConfluence NO_CONFLICT (PerfectMatch price_divergence time_diff).

Definition other_symbol_of (symbol : string) : string :=
  if symbol =? "WDO" then "DOL" else "WDO".

(** [(datetime.now() - data['timestamp']).seconds > timeout_seconds]. *)
Definition slot_timed_out (cfg : ConfluenceConfig) (now : Z) (slot : Slot) : bool :=
  (timeout_seconds cfg <? timedelta_seconds (now - slot_timestamp slot))%Z.

Definition _check_confluence (signal : StrategicSignal.t) (now : Z)
           (s : StrategicSignalService) : ConfluenceResult * StrategicSignalService :=
  let other_symbol := other_symbol_of (StrategicSignal.symbol signal) in
  let store (s : StrategicSignalService) :=
    (mkConfluence NO_CONFLICT WaitingPair,
     with_pending (<[StrategicSignal.symbol signal := mkSlot signal now]> (pending_confluence s)) s) in
  match pending_confluence s !! other_symbol with
  | Some other_data =>
      if slot_timed_out (confluence_config s) now other_data
      then store (with_pending (delete other_symbol (pending_confluence s)) s)
      else
        let confluence :=
          _analyze_confluence (confluence_config s) signal (slot_signal other_data) in
        (confluence, with_pending (delete other_symbol (pending_confluence s)) s)
  | None => store s
  end.

Definition _apply_filter_adjustments (adjustments : Adjustments)
           (signal : StrategicSignal.t) : StrategicSignal.t :=
  let entry := StrategicSignal.entry_price signal in
  let stop := StrategicSignal.stop_loss signal in
  let buy := StrategicSignal.direction signal =? "COMPRA" in
  let signal :=
    match tighten_stop adjustments, widen_stop adjustments with
    | Some factor, _ =>
        if buy then StrategicSignal.set_stop_loss (entry - (entry - stop) / factor) signal
        else StrategicSignal.set_stop_loss (entry + (stop - entry) / factor) signal
    | None, Some factor =>
        if buy then StrategicSignal.set_stop_loss (entry - (entry - stop) * factor) signal
        else StrategicSignal.set_stop_loss (entry + (stop - entry) * factor) signal
    | None, None => signal
    end in
  let signal :=
    match use_limit_orders adjustments with
    | Some _ =>
        if bool_decide (StrategicSignal.entry_type signal = MARKET)
        then StrategicSignal.set_entry_type LIMIT signal else signal
    | None => signal
    end in
  if adjustments_nonempty adjustments
  then StrategicSignal.set_setup_details
         (mkSetupDetails (detector_payload (StrategicSignal.setup_details signal))
                         (Some adjustments)) signal
  else signal.

Definition setup_type_value (t : SetupType) : string :=
  match t with
  | REVERSAL_SLOW => "REVERSAL_SLOW"
  | REVERSAL_VIOLENT => "REVERSAL_VIOLENT"
  | BREAKOUT_IGNITION => "BREAKOUT_IGNITION"
  | PULLBACK_REJECTION => "PULLBACK_REJECTION"
  | DIVERGENCE_SETUP => "DIVERGENCE_SETUP"
  end.

(** The display signal carries none of the detail keys the core reads. *)
Definition _emit_strategic_signal (signal : StrategicSignal.t) (now : Z)
           (s : StrategicSignalService) : StrategicSignalService :=
  let confidence_pct := py_int (StrategicSignal.confidence signal * 100) in
  let risk_reward_str := (format_fixed 1 (StrategicSignal.risk_reward signal) ++ ":1")%string in
  let message :=
    ("🎯 SETUP " ++ setup_type_value (StrategicSignal.setup_type signal) ++ " - "
       ++ StrategicSignal.direction signal ++ " @ "
       ++ format_fixed 2 (StrategicSignal.entry_price signal)
       ++ " [" ++ pretty confidence_pct ++ "%] RR: " ++ risk_reward_str)%string in
  publish (Signal.mk STRATEGIC
             (if Qgeb (StrategicSignal.confidence signal) 0.7 then ALERT else WARNING)
             message now no_details) s.

(** The arguments of [create_strategic_signal]. *)
Record Proposal := mkProposal {
  p_setup_type : SetupType;
  p_symbol : string;
  p_direction : string;
  p_entry_price : Q;
  p_stop_loss : Q;
  p_targets : list Q;
  p_confidence : Q;
  p_confluence_factors : list string;
  p_setup_details : SetupDetails;
  p_detected_by : string
}.

(** The field constraints that the [StrategicSignal] constructor validates. *)
Definition field_constraints_hold (entry_price stop_loss confidence risk_reward : Q) : bool :=
  Qgtb entry_price 0 && Qgtb stop_loss 0
  && Qgeb confidence 0 && Qleb confidence 1
  && Qgtb risk_reward 0.

(** [signal_id] is the fresh [uuid4] drawn by the call.  The result is
    [Some signal] for a created signal and [None] for a filtered one. *)
Definition create_strategic_signal (p : Proposal) (signal_id : string) (now : Z)
           (s : StrategicSignalService)
  : Outcome StrategicSignalService (option StrategicSignal.t) :=
  let risk := Qabs (p_entry_price p - p_stop_loss p) in
  let reward := match p_targets p with
                | t0 :: _ => Qabs (t0 - p_entry_price p)
                | [] => risk
                end in
  let risk_reward := if Qgtb risk 0 then (reward / risk)%Q else 0%Q in
  if negb (field_constraints_hold (p_entry_price p) (p_stop_loss p) (p_confidence p) risk_reward)
  then Raised ValidationError s
  else
    let signal :=
      StrategicSignal.mk signal_id now (p_symbol p) (p_setup_type p) (p_direction p) PENDING
        (p_entry_price p) (_determine_entry_type (p_setup_type p)) (p_stop_loss p) (p_targets p)
        (p_confidence p) risk_reward NO_CONFLICT (p_confluence_factors p)
        (now + seconds 300) 300 (p_setup_details p) (p_detected_by p)
        None None None None None in
    (* 1. context filters *)
    let context := _build_context (p_symbol p) s in
    let filter_results := Filters.apply_all (context_filters s) signal context in
    if negb (Consolidated.passed filter_results)
    then
      let st := stats s in
      (* the manipulation notice is guarded by
         ['MANIPULATION' in [w for w in warnings if 'manipulação' in w.lower()]],
         which no list of warnings satisfies: the one string equal to
         'MANIPULATION' does not contain 'manipulação' *)
      Returned None
        (with_stats (mkStats (signals_created st) (signals_filtered st + 1)
                       (confluence_matches st) (confluence_conflicts st) (signals_executed st)) s)
    else
      (* 2. confidence scaled by the filters *)
      let adjusted_confidence := (p_confidence p * Consolidated.confidence_multiplier filter_results)%Q in
      let signal := StrategicSignal.set_confidence (py_min adjusted_confidence 1.0) signal in
      (* 3. filter adjustments *)
      let signal := _apply_filter_adjustments (Consolidated.adjustments filter_results) signal in
      (* 4. confluence *)
      let '(confluence_result, s) := _check_confluence signal now s in
      let signal := StrategicSignal.set_conflict_status (status confluence_result) signal in
      let cfg := confluence_config s in
      let st := stats s in
      let '(signal, s, rejected) :=
        match status confluence_result with
        | NO_CONFLICT =>
            (StrategicSignal.set_confidence
               (py_min (StrategicSignal.confidence signal + confidence_boost cfg) 1.0) signal,
             with_stats (mkStats (signals_created st) (signals_filtered st)
                           (confluence_matches st + 1) (confluence_conflicts st)
                           (signals_executed st)) s,
             false)
        | MAJOR_CONFLICT =>
            let signal :=
              StrategicSignal.set_confidence
                (StrategicSignal.confidence signal * (1 - confidence_penalty cfg)) signal in
            (signal,
             with_stats (mkStats (signals_created st) (signals_filtered st)
                           (confluence_matches st) (confluence_conflicts st + 1)
                           (signals_executed st)) s,
             Qltb (StrategicSignal.confidence signal) 0.5)
        | MINOR_CONFLICT => (signal, s, false)
        end in
      if rejected then Returned None s
      else
        (* 5. filter warnings become confluence factors *)
        let signal :=
          match Consolidated.warnings filter_results with
          | [] => signal
          | ws => StrategicSignal.set_confluence_factors
                    (StrategicSignal.confluence_factors signal
                       ++ map (fun w => ("⚠️ " ++ w)%string) (take 2 ws)) signal
          end in
        (* 6. lifecycle manager; the registered object is the one returned *)
        match Lifecycle.create_signal signal now (lifecycle_manager s) with
        | Raised e m => Raised e (with_lifecycle m s)
        | Returned _ m =>
            let s := with_lifecycle m s in
            let signal := default signal (Lifecycle.active_signals m !! StrategicSignal.id signal) in
            let st := stats s in
            let s := with_stats (mkStats (signals_created st + 1) (signals_filtered st)
                                   (confluence_matches st) (confluence_conflicts st)
                                   (signals_executed st)) s in
            (* 7. display event *)
            Returned (Some signal) (_emit_strategic_signal signal now s)
        end.

Definition _handle_market_update (market_data : MarketData.t) (now : Z)
           (s : StrategicSignalService) : StrategicSignalService :=
  let s := with_market_data (Some market_data) s in
  with_pending
    (filter (fun kv => slot_timed_out (confluence_config s) now (snd kv) = false)
            (pending_confluence s)) s.

End Factory.

(** ** application/services/position_manager.py *)

Module Position.

(** [current_price] is declared a float; [_close_position] called with an
    exit price of [None] assigns [None] to it before [update_price] fails, so
    the attribute is modelled as optional. *)
Record t := mk {
  id : string;
  signal_id : string;
  symbol : string;
  direction : string;
  entry_price : Q;
  entry_time : Z;
  size : Z;
  stop_loss : Q;
  targets : list Q;
  current_price : option Q;
  pnl : Q;
  pnl_points : Q;
  status : string;
  exit_price : option Q;
  exit_time : option Z;
  exit_reason : option string;
  max_profit : Q;
  max_loss : Q;
  warnings_received : list string
}.

Definition set_stop_loss (v : Q) (p : t) : t :=
  mk (id p) (signal_id p) (symbol p) (direction p) (entry_price p) (entry_time p) (size p) v (targets p) (current_price p) (pnl p) (pnl_points p) (status p) (exit_price p) (exit_time p) (exit_reason p) (max_profit p) (max_loss p) (warnings_received p).

Definition set_current_price (v : option Q) (p : t) : t :=
  mk (id p) (signal_id p) (symbol p) (direction p) (entry_price p) (entry_time p) (size p) (stop_loss p) (targets p) v (pnl p) (pnl_points p) (status p) (exit_price p) (exit_time p) (exit_reason p) (max_profit p) (max_loss p) (warnings_received p).

Definition set_pnl (points money best worst : Q) (p : t) : t :=
  mk (id p) (signal_id p) (symbol p) (direction p) (entry_price p) (entry_time p) (size p) (stop_loss p) (targets p) (current_price p) money points (status p) (exit_price p) (exit_time p) (exit_reason p) best worst (warnings_received p).

Definition set_exit (price : option Q) (time : option Z) (reason : option string)
           (new_status : string) (p : t) : t :=
  mk (id p) (signal_id p) (symbol p) (direction p) (entry_price p) (entry_time p) (size p) (stop_loss p) (targets p) (current_price p) (pnl p) (pnl_points p) new_status price time reason (max_profit p) (max_loss p) (warnings_received p).

Definition add_warning (w : string) (p : t) : t :=
  mk (id p) (signal_id p) (symbol p) (direction p) (entry_price p) (entry_time p) (size p) (stop_loss p) (targets p) (current_price p) (pnl p) (pnl_points p) (status p) (exit_price p) (exit_time p) (exit_reason p) (max_profit p) (max_loss p) (warnings_received p ++ [w]).

(** [update_price(None)] assigns the attribute and then fails on the
    subtraction. *)
Definition update_price (price : option Q) (p : t) : Outcome t unit :=
  let p := set_current_price price p in
  match price with
  | None => Raised TypeError p
  | Some price =>
      let points := if direction p =? "COMPRA"
                    then (price - entry_price p)%Q else (entry_price p - price)%Q in
      let money := (points * inject_Z (size p) * 10)%Q in
      Returned tt (set_pnl points money (py_max (max_profit p) money)
                     (py_min (max_loss p) money) p)
  end.

(** [None] stands for the [TypeError] of comparing [None] with a float. *)
Definition should_stop (p : t) : option bool :=
  match current_price p with
  | Some price =>
      Some (if direction p =? "COMPRA"
            then Qleb price (stop_loss p) else Qgeb price (stop_loss p))
  | None => None
  end.

Fixpoint first_target_hit (buy : bool) (price : Q) (i : nat) (ts : list Q) : option nat :=
  match ts with
  | [] => None
  | target :: rest =>
      if (if buy then Qgeb price target else Qleb price target)
      then Some i else first_target_hit buy price (S i) rest
  end.

(** The outer [None] stands for the [TypeError]; with no target at all the
    loop body never runs and nothing is compared. *)
Definition check_targets (p : t) : option (option nat) :=
  match targets p, current_price p with
  | [], _ => Some None
  | _, Some price => Some (first_target_hit (direction p =? "COMPRA") price 0 (targets p))
  | _, None => None
  end.

End Position.

Module Positions.

Record Stats := mkStats {
  total_opened : Z;
  total_closed : Z;
  total_stopped : Z;
  total_target_hit : Z;
  total_pnl : Q;
  win_count : Z;
  loss_count : Z
}.

Inductive Event :=
| POSITION_OPENED (position : Position.t) (signal : StrategicSignal.t)
| POSITION_CLOSED (position : Position.t) (reason : string) (pnl : Q).

(** [positions] is the dict of open positions in insertion order; the key of
    an entry is the [id] of the position ([_open_position], its only writer,
    files each position under its own id). *)
Record PositionManager := mkManager {
  max_positions : Z;
  default_size : Z;
  auto_manage : bool;
  trailing_stop_enabled : bool;
  trailing_stop_distance : Q;
  positions : list Position.t;
  signal_to_position : gmap string string;
  closed_positions : list Position.t;
  stats : Stats;
  events : list Event
}.

Definition with_positions v (m : PositionManager) :=
  mkManager (max_positions m) (default_size m) (auto_manage m) (trailing_stop_enabled m) (trailing_stop_distance m) v (signal_to_position m) (closed_positions m) (stats m) (events m).
Definition with_signal_to_position v (m : PositionManager) :=
  mkManager (max_positions m) (default_size m) (auto_manage m) (trailing_stop_enabled m) (trailing_stop_distance m) (positions m) v (closed_positions m) (stats m) (events m).
Definition with_closed v (m : PositionManager) :=
  mkManager (max_positions m) (default_size m) (auto_manage m) (trailing_stop_enabled m) (trailing_stop_distance m) (positions m) (signal_to_position m) v (stats m) (events m).
Definition with_stats v (m : PositionManager) :=
  mkManager (max_positions m) (default_size m) (auto_manage m) (trailing_stop_enabled m) (trailing_stop_distance m) (positions m) (signal_to_position m) (closed_positions m) v (events m).
Definition publish (e : Event) (m : PositionManager) :=
  mkManager (max_positions m) (default_size m) (auto_manage m) (trailing_stop_enabled m) (trailing_stop_distance m) (positions m) (signal_to_position m) (closed_positions m) (stats m) (events m ++ [e]).

(** The position section of the configuration: each key may be absent. *)
Record Settings := mkSettings {
  cfg_max_positions : option Z;
  cfg_default_size : option Z;
  cfg_auto_manage : option bool;
  cfg_trailing_stop_enabled : option bool;
  cfg_trailing_stop_distance : option Q
}.

Definition init (cfg : Settings) : PositionManager :=
  mkManager (default 3%Z (cfg_max_positions cfg)) (default 1%Z (cfg_default_size cfg))
    (default true (cfg_auto_manage cfg)) (default false (cfg_trailing_stop_enabled cfg))
    (default 10.0%Q (cfg_trailing_stop_distance cfg))
    [] ∅ [] (mkStats 0 0 0 0 0 0 0) [].

(** *** The dict of open positions *)

Fixpoint dict_get (key : string) (d : list Position.t) : option Position.t :=
  match d with
  | [] => None
  | p :: rest => if Position.id p =? key then Some p else dict_get key rest
  end.

(** [d[p.id] = p]: an existing key keeps its place. *)
Fixpoint dict_set (p : Position.t) (d : list Position.t) : list Position.t :=
  match d with
  | [] => [p]
  | q :: rest => if Position.id q =? Position.id p then p :: rest else q :: dict_set p rest
  end.

(** [del d[key]]. *)
Definition dict_del (key : string) (d : list Position.t) : list Position.t :=
  filter (fun q => Position.id q <> key) d.

(** An in-place mutation of an object the dict holds. *)
Definition dict_mutate (p : Position.t) (d : list Position.t) : list Position.t :=
  map (fun q => if Position.id q =? Position.id p then p else q) d.

Definition can_open_position (m : PositionManager) : bool :=
  (Z.of_nat (length (positions m)) <? max_positions m)%Z.

Definition _calculate_position_size (signal : StrategicSignal.t) (m : PositionManager) : Z :=
  let base_size := default_size m in
  let size :=
    if Qgtb (StrategicSignal.confidence signal) 0.8 then py_int (inject_Z base_size * 1.5)
    else if Qltb (StrategicSignal.confidence signal) 0.6
    then Z.max 1 (py_int (inject_Z base_size * 0.7))
    else base_size in
  match StrategicSignal.setup_type signal with
  | REVERSAL_VIOLENT => Z.max 1 (py_int (inject_Z size * 0.8))
  | BREAKOUT_IGNITION => py_int (inject_Z size * 1.2)
  | _ => size
  end.

(** [stamp] is [datetime.now().strftime('%Y%m%d_%H%M%S')]. *)
Definition _open_position (signal : StrategicSignal.t) (now : Z) (stamp : string)
           (m : PositionManager) : PositionManager :=
  if negb (can_open_position m) then m
  else
    let position_id := ("POS_" ++ StrategicSignal.symbol signal ++ "_" ++ stamp)%string in
    let size := _calculate_position_size signal m in
    let entry := py_or (StrategicSignal.execution_price signal)
                       (StrategicSignal.entry_price signal) in
    let position :=
      Position.mk position_id (StrategicSignal.id signal) (StrategicSignal.symbol signal)
        (StrategicSignal.direction signal) entry now size (StrategicSignal.stop_loss signal)
        (StrategicSignal.targets signal) (Some entry) 0.0 0.0 "OPEN" None None None 0.0 0.0 [] in
    let m := with_positions (dict_set position (positions m)) m in
    let m := with_signal_to_position
               (<[StrategicSignal.id signal := position_id]> (signal_to_position m)) m in
    let st := stats m in
    let m := with_stats (mkStats (total_opened st + 1) (total_closed st) (total_stopped st)
                           (total_target_hit st) (total_pnl st) (win_count st) (loss_count st)) m in
    publish (POSITION_OPENED position signal) m.

Definition starts_with_TARGET (reason : string) : bool :=
  String.prefix "TARGET" reason.

Definition _close_position (position : Position.t) (reason : string) (exit_price : option Q)
           (now : Z) (m : PositionManager) : Outcome PositionManager unit :=
  let position :=
    Position.set_exit exit_price (Some now) (Some reason)
      (if reason =? "STOP_LOSS" then "STOPPED" else "CLOSED") position in
  match Position.update_price exit_price position with
  | Raised e position =>
      (* the object stays in the dict as mutated so far *)
      Raised e (with_positions (dict_mutate position (positions m)) m)
  | Returned _ position =>
      match dict_get (Position.id position) (positions m) with
      | None => Raised KeyError m
      | Some _ =>
          let m := with_positions (dict_del (Position.id position) (positions m)) m in
          let m :=
            match signal_to_position m !! Position.signal_id position with
            | Some _ => with_signal_to_position
                          (delete (Position.signal_id position) (signal_to_position m)) m
            | None => m
            end in
          let m := with_closed (deque_append 100 (closed_positions m) position) m in
          let st := stats m in
          let stopped := if reason =? "STOP_LOSS"
                         then (total_stopped st + 1)%Z else total_stopped st in
          let target_hit := if negb (reason =? "STOP_LOSS") && starts_with_TARGET reason
                            then (total_target_hit st + 1)%Z else total_target_hit st in
          let won := Qgtb (Position.pnl position) 0 in
          let m := with_stats
                     (mkStats (total_opened st) (total_closed st + 1) stopped target_hit
                        (total_pnl st + Position.pnl position)
                        (if won then (win_count st + 1)%Z else win_count st)
                        (if won then loss_count st else (loss_count st + 1)%Z)) m in
          Returned tt (publish (POSITION_CLOSED position reason (Position.pnl position)) m)
      end
  end.

Definition _tighten_stop (factor : Q) (position : Position.t) : Position.t :=
  let entry := Position.entry_price position in
  let stop := Position.stop_loss position in
  if Position.direction position =? "COMPRA"
  then Position.set_stop_loss (py_max stop (entry - (entry - stop) * factor)) position
  else Position.set_stop_loss (py_min stop (entry + (stop - entry) * factor)) position.

(** Called right after [update_price] with a number, so the price is there. *)
Definition _update_trailing_stop (m : PositionManager) (position : Position.t) : Position.t :=
  match Position.current_price position with
  | Some price =>
      if Position.direction position =? "COMPRA"
      then
        let new_stop := (price - trailing_stop_distance m)%Q in
        if Qgtb new_stop (Position.stop_loss position)
        then Position.set_stop_loss new_stop position else position
      else
        let new_stop := (price + trailing_stop_distance m)%Q in
        if Qltb new_stop (Position.stop_loss position)
        then Position.set_stop_loss new_stop position else position
  | None => position
  end.

(** *** Event handlers *)

(** Payload of STRATEGIC_SIGNAL_STATE_CHANGED as the handler reads it. *)
Record StateChanged := mkStateChanged {
  sc_signal_id : string;
  sc_new_state : SignalState;
  sc_signal : option StrategicSignal.t
}.

Definition _handle_signal_state_changed (data : StateChanged) (now : Z) (stamp : string)
           (m : PositionManager) : Outcome PositionManager unit :=
  match sc_signal data with
  | None => Returned tt m
  | Some signal =>
      if bool_decide (sc_new_state data = EXECUTED) && can_open_position m
      then Returned tt (_open_position signal now stamp m)
      else
        match signal_to_position m !! sc_signal_id data with
        | Some position_id =>
            match dict_get position_id (positions m) with
            | Some position =>
                match sc_new_state data with
                | STOPPED =>
                    _close_position position "SIGNAL_STOPPED"
                      (StrategicSignal.exit_price signal) now m
                | TARGET_HIT =>
                    _close_position position "TARGET_HIT"
                      (StrategicSignal.exit_price signal) now m
                | _ => Returned tt m
                end
            | None => Returned tt m
            end
        | None => Returned tt m
        end
  end.

Definition _handle_signal_expired (signal : option StrategicSignal.t) (now : Z)
           (m : PositionManager) : Outcome PositionManager unit :=
  match signal with
  | None => Returned tt m
  | Some signal =>
      match signal_to_position m !! StrategicSignal.id signal with
      | Some position_id =>
          match dict_get position_id (positions m) with
          | Some position =>
              if Qltb (Position.pnl position) 0
              then _close_position position "SIGNAL_EXPIRED"
                     (Position.current_price position) now m
              else Returned tt m
          | None => Returned tt m
          end
      | None => Returned tt m
      end
  end.

(** The loop of [_handle_divergence_warning] over [self.positions.values()],
    [todo] being what the iterator has still to yield.  The loop runs on the
    live dict: once a position has been closed inside it the dict has changed
    size, and the iterator raises [RuntimeError] when asked for the next
    value, also when none is left. *)
Fixpoint warn_positions (todo : list Position.t) (symbol direction warning : string) (now : Z)
         (m : PositionManager) : Outcome PositionManager unit :=
  match todo with
  | [] => Returned tt m
  | position :: rest =>
      if (Position.symbol position =? symbol) && (Position.direction position =? direction)
      then
        let position := Position.add_warning warning position in
        let m := with_positions (dict_mutate position (positions m)) m in
        if (2 <=? length (Position.warnings_received position))%nat && auto_manage m
        then
          match _close_position position "MULTIPLE_WARNINGS"
                  (Position.current_price position) now m with
          | Returned _ m => Raised RuntimeError m
          | Raised e m => Raised e m
          end
        else warn_positions rest symbol direction warning now m
      else warn_positions rest symbol direction warning now m
  end.

Definition _handle_divergence_warning (signal : Signal.t) (now : Z)
           (m : PositionManager) : Outcome PositionManager unit :=
  match divergence_event (Signal.details signal) with
  | None => Returned tt m
  | Some divergence_event =>
      let symbol := div_symbol divergence_event in
      let direction := if div_direction divergence_event =? "BULLISH"
                       then "VENDA" else "COMPRA" in
      warn_positions (positions m) symbol direction
        ("DIVERGENCE_" ++ div_direction divergence_event)%string now m
  end.

(** [data.get('symbol')]: absent, or a string that may be empty. *)
Definition _handle_manipulation_warning (symbol : option string)
           (m : PositionManager) : Outcome PositionManager unit :=
  match symbol with
  | None => Returned tt m
  | Some symbol =>
      if symbol =? "" then Returned tt m
      else
        Returned tt
          (with_positions
             (map (fun position =>
                     if Position.symbol position =? symbol
                     then
                       let position := Position.add_warning "MANIPULATION_RISK" position in
                       if auto_manage m then _tighten_stop 0.5 position else position
                     else position)
                  (positions m)) m)
  end.

(** The inner loop of [_handle_market_update] over [positions_to_check], a
    list built before the loop. *)
Fixpoint check_positions (todo : list Position.t) (current_price : Q) (now : Z)
         (m : PositionManager) : Outcome PositionManager unit :=
  match todo with
  | [] => Returned tt m
  | position :: rest =>
      match Position.update_price (Some current_price) position with
      | Raised e position => Raised e (with_positions (dict_mutate position (positions m)) m)
      | Returned _ position =>
          let m := with_positions (dict_mutate position (positions m)) m in
          match Position.should_stop position with
          | None => Raised TypeError m
          | Some true =>
              match _close_position position "STOP_LOSS" (Some current_price) now m with
              | Returned _ m => check_positions rest current_price now m
              | Raised e m => Raised e m
              end
          | Some false =>
              match Position.check_targets position with
              | None => Raised TypeError m
              | Some (Some target_hit) =>
                  match _close_position position
                          ("TARGET_" ++ pretty (target_hit + 1)%nat)%string
                          (Some current_price) now m with
                  | Returned _ m => check_positions rest current_price now m
                  | Raised e m => Raised e m
                  end
              | Some None =>
                  let m :=
                    if trailing_stop_enabled m
                       && Qgtb (Position.pnl_points position) (trailing_stop_distance m)
                    then with_positions
                           (dict_mutate (_update_trailing_stop m position) (positions m)) m
                    else m in
                  check_positions rest current_price now m
              end
          end
      end
  end.

(** The outer loop over [market_data.data.values()]. *)
Fixpoint update_symbols (todo : list MarketSymbolData.t) (now : Z)
         (m : PositionManager) : Outcome PositionManager unit :=
  match todo with
  | [] => Returned tt m
  | symbol_data :: rest =>
      match MarketSymbolData.trades symbol_data with
      | [] => update_symbols rest now m
      | first :: _ =>
          let symbol := Trade.symbol first in
          let current_price :=
            Trade.price (List.last (MarketSymbolData.trades symbol_data) first) in
          let positions_to_check :=
            filter (fun p => Position.symbol p = symbol) (positions m) in
          match check_positions positions_to_check current_price now m with
          | Returned _ m => update_symbols rest now m
          | Raised e m => Raised e m
          end
      end
  end.

Definition _handle_market_update (market_data : MarketData.t) (now : Z)
           (m : PositionManager) : Outcome PositionManager unit :=
  update_symbols (map snd (MarketData.data market_data)) now m.

Fixpoint close_each (todo : list Position.t) (reason : string) (now : Z)
         (m : PositionManager) : Outcome PositionManager unit :=
  match todo with
  | [] => Returned tt m
  | position :: rest =>
      match _close_position position reason (Position.current_price position) now m with
      | Returned _ m => close_each rest reason now m
      | Raised e m => Raised e m
      end
  end.

Definition close_all_positions (reason : string) (now : Z)
           (m : PositionManager) : Outcome PositionManager unit :=
  close_each (positions m) reason now m.

Definition _handle_risk_override (breaker : string) (new_state : bool) (now : Z)
           (m : PositionManager) : Outcome PositionManager unit :=
  if (breaker =? "emergency") && new_state
  then close_all_positions "EMERGENCY_STOP" now m
  else Returned tt m.

(** What the event bus can deliver to the position manager. *)
Inductive Delivery :=
| STRATEGIC_SIGNAL_STATE_CHANGED (data : StateChanged)
| STRATEGIC_SIGNAL_EXPIRED (signal : option StrategicSignal.t)
| DIVERGENCE_WARNING (signal : Signal.t)
| MANIPULATION_DETECTED (symbol : option string)
| MARKET_DATA_UPDATED (market_data : MarketData.t)
| RISK_OVERRIDE (breaker : string) (new_state : bool).

Definition handle (d : Delivery) (now : Z) (stamp : string)
           (m : PositionManager) : Outcome PositionManager unit :=
  match d with
  | STRATEGIC_SIGNAL_STATE_CHANGED data => _handle_signal_state_changed data now stamp m
  | STRATEGIC_SIGNAL_EXPIRED signal => _handle_signal_expired signal now m
  | DIVERGENCE_WARNING signal => _handle_divergence_warning signal now m
  | MANIPULATION_DETECTED symbol => _handle_manipulation_warning symbol m
  | MARKET_DATA_UPDATED market_data => _handle_market_update market_data now m
  | RISK_OVERRIDE breaker new_state => _handle_risk_override breaker new_state now m
  end.

(** The bus catches what a handler raises; the manager goes on from the
    state the handler left. *)
Fixpoint deliver_all (ds : list (Delivery * Z * string)) (m : PositionManager)
  : PositionManager :=
  match ds with
  | [] => m
  | (d, now, stamp) :: rest => deliver_all rest (final_state (handle d now stamp m))
  end.

(** *** Notions used in the statements *)

(** [m'] has the configuration of [m] and no more open positions. *)
Definition no_growth (m m' : PositionManager) : Prop :=
  max_positions m' = max_positions m /\
  (length (positions m') <= length (positions m))%nat.

(** The number of open positions is at most the ceiling. *)
Definition within_ceiling (m : PositionManager) : Prop :=
  (Z.of_nat (length (positions m)) <= max_positions m)%Z.

(** What [_close_position] leaves of a position closed at a known price. *)
Definition closed_at (position : Position.t) (reason : string) (price : Q) (now : Z)
  : Position.t :=
  final_state
    (Position.update_price (Some price)
       (Position.set_exit (Some price) (Some now) (Some reason)
          (if reason =? "STOP_LOSS" then "STOPPED" else "CLOSED") position)).

End Positions.

(** ** Sample data used by the concrete instances below *)

Module Samples.

Definition wdo_buy : StrategicSignal.t :=
  StrategicSignal.mk "sig-1" 0 "WDO" REVERSAL_SLOW "COMPRA" PENDING 5000 LIMIT 4990 [5020%Q]
    0.65 2 NO_CONFLICT [] (seconds 300) 300 (mkSetupDetails [] None) "SYSTEM"
    None None None None None.

Definition default_timeouts : Lifecycle.TimeoutSettings :=
  Lifecycle.mkTimeoutSettings None None None None None.

(** A manager in which [wdo_buy] has been registered at time 0. *)
Definition manager_with_wdo_buy : Lifecycle.SetupLifecycleManager :=
  final_state (Lifecycle.create_signal wdo_buy 0 (Lifecycle.init default_timeouts)).

(** A well-rated candidate: confluence source, alert level, no details. *)
Definition confluence_alert : Signal.t :=
  Signal.mk CONFLUENCE ALERT "confluence" 0 no_details.

(** Twelve o'clock of day 0. *)
Definition noon : Z := seconds (12 * 3600).

(** The governor after one trade closed with a loss of 1000. *)
Definition service_after_big_loss : Risk.RiskManagementService :=
  Risk._handle_trade_closed (Some (-1000)%Q) (Risk.init Risk.default_settings).

(** The scenario of the specification: entry 5000, stop 4990, one target at
    5020, confidence 0.65, a buy on WDO. *)
Definition scenario : Factory.Proposal :=
  Factory.mkProposal REVERSAL_SLOW "WDO" "COMPRA" 5000 4990 [5020%Q] 0.65 []
    (mkSetupDetails [] None) "reversal_detector".

(** A sell on DOL at the same price. *)
Definition dol_sell : Factory.Proposal :=
  Factory.mkProposal REVERSAL_SLOW "DOL" "VENDA" 5000 5010 [4980%Q] 0.65 []
    (mkSetupDetails [] None) "reversal_detector".

(** A fresh factory: no market data seen, no candidate waiting. *)
Definition fresh_factory : Factory.StrategicSignalService :=
  Factory.init (Lifecycle.init default_timeouts).

(** The factory after [dol_sell] was proposed at time 0: it waits in the DOL
    slot. *)
Definition factory_with_dol_waiting : Factory.StrategicSignalService :=
  final_state (Factory.create_strategic_signal dol_sell "sig-dol" 0 fresh_factory).

(** The WDO candidate as it reaches the confluence step. *)
Definition wdo_candidate (now : Z) : StrategicSignal.t :=
  StrategicSignal.mk "sig-wdo" now "WDO" REVERSAL_SLOW "COMPRA" PENDING 5000 LIMIT 4990 [5020%Q]
    0.65 2 NO_CONFLICT [] (now + seconds 300) 300 (mkSetupDetails [] None) "reversal_detector"
    None None None None None.

(** A position manager that may hold one position at a time. *)
Definition one_position_only : Positions.Settings :=
  Positions.mkSettings (Some 1%Z) None None None None.

Definition executed (signal : StrategicSignal.t) : Positions.Delivery :=
  Positions.STRATEGIC_SIGNAL_STATE_CHANGED
    (Positions.mkStateChanged (StrategicSignal.id signal) EXECUTED (Some signal)).

(** A second signal, a sell on DOL. *)
Definition dol_sell_signal : StrategicSignal.t :=
  StrategicSignal.mk "sig-2" 0 "DOL" REVERSAL_SLOW "VENDA" PENDING 5000 LIMIT 5010 [4980%Q]
    0.65 2 NO_CONFLICT [] (seconds 300) 300 (mkSetupDetails [] None) "SYSTEM"
    None None None None None.

(** Two signals reported EXECUTED one second apart. *)
Definition two_executions : list (Positions.Delivery * Z * string) :=
  [ (executed wdo_buy, seconds 10, "20240102_100000");
    (executed dol_sell_signal, seconds 11, "20240102_100001") ].

Definition wdo_trade (price : Q) : Trade.t :=
  Trade.mk "WDO" price 1 "BUY" 0 "10:00:05".

Definition wdo_tick (price : Q) : Positions.Delivery :=
  Positions.MARKET_DATA_UPDATED
    (MarketData.mk 0 [("WDO", MarketSymbolData.mk [wdo_trade price] (OrderBook.mk [] []) price 1)]).

(** The default manager after [wdo_buy] was executed at 5000 and the market
    ticked at 4995: one open position, 5 points under water. *)
Definition manager_losing : Positions.PositionManager :=
  Positions.deliver_all
    [ (executed wdo_buy, seconds 10, "20240102_100000");
      (wdo_tick 4995, seconds 15, "20240102_100005") ]
    (Positions.init (Positions.mkSettings None None None None None)).

Definition losing_position : Position.t :=
  Position.mk "POS_WDO_20240102_100000" "sig-1" "WDO" "COMPRA" 5000 (seconds 10) 1 4990
    [5020%Q] (Some 4995%Q) ((4995 - 5000) * inject_Z 1 * 10) (4995 - 5000) "OPEN"
    None None None 0.0 ((4995 - 5000) * inject_Z 1 * 10) [].

(** The default manager after [wdo_buy] was executed and one manipulation
    warning for WDO was delivered. *)
Definition manager_after_manipulation_warning : Positions.PositionManager :=
  Positions.deliver_all
    [ (executed wdo_buy, seconds 10, "20240102_100000");
      (Positions.MANIPULATION_DETECTED (Some "WDO"), seconds 20, "20240102_100010") ]
    (Positions.init (Positions.mkSettings None None None None None)).

(** Its one position: the stop was tightened from 4990 to 4995. *)
Definition warned_position : Position.t :=
  Eval vm_compute in
    default losing_position (head (Positions.positions manager_after_manipulation_warning)).

(** A bearish divergence on WDO: it goes against the buys. *)
Definition bearish_wdo : Signal.t :=
  Signal.mk DIVERGENCE_WARNING WARNING "divergence" 0
    (mkDetails None None None None None (Some (mkDivergenceEvent "WDO" "BEARISH"))).

End Samples.

(** ** More of domain/entities/strategic_signal.py *)

Module SignalQueries.

Definition is_active (now : Z) (s : StrategicSignal.t) : bool :=
  bool_decide (StrategicSignal.state s = ACTIVE)
  && (now <? StrategicSignal.expiration_time s)%Z.

(** [max(self.expiration_time - datetime.now(), timedelta(0))], in microseconds. *)
Definition time_remaining (now : Z) (s : StrategicSignal.t) : Z :=
  Z.max (StrategicSignal.expiration_time s - now) 0.

Definition get_risk_points (s : StrategicSignal.t) : Q :=
  if StrategicSignal.direction s =? "COMPRA"
  then (StrategicSignal.entry_price s - StrategicSignal.stop_loss s)%Q
  else (StrategicSignal.stop_loss s - StrategicSignal.entry_price s)%Q.

(** [l[i]] of Python for an integer index: a negative index counts from the
    end, and [None] stands for the [IndexError]. *)
Definition py_index {A} (l : list A) (i : Z) : option A :=
  if (0 <=? i)%Z then l !! Z.to_nat i
  else if (0 <=? Z.of_nat (length l) + i)%Z then l !! Z.to_nat (Z.of_nat (length l) + i)
  else None.

(** The guard returns 0 for an empty list and for an index at or past the
    end; below that the list is indexed, and [None] stands for the
    [IndexError] of an index below [-len(targets)]. *)
Definition get_reward_points (target_index : Z) (s : StrategicSignal.t) : option Q :=
  match StrategicSignal.targets s with
  | [] => Some 0%Q
  | targets =>
      if (Z.of_nat (length targets) <=? target_index)%Z then Some 0%Q
      else
        match py_index targets target_index with
        | Some target =>
            Some (if StrategicSignal.direction s =? "COMPRA"
                  then (target - StrategicSignal.entry_price s)%Q
                  else (StrategicSignal.entry_price s - target)%Q)
        | None => None
        end
  end.

End SignalQueries.

(** ** More of application/services/setup_lifecycle_manager.py *)

Module LifecycleSweep.
Import Lifecycle.

Definition get_signal_by_id (signal_id : string) (m : SetupLifecycleManager)
  : option StrategicSignal.t :=
  active_signals m !! signal_id.

(** The test shared by the monitor and the manual sweep:
    [signal.is_expired() and signal.state in [PENDING, ACTIVE]]. *)
Definition due (now : Z) (signal : StrategicSignal.t) : bool :=
  StrategicSignal.is_expired now signal
  && bool_decide (StrategicSignal.state signal ∈ [PENDING; ACTIVE]).

(** One pass of the body of [_monitor_loop].  [signal_ids] is the snapshot
    [list(self.active_signals.keys())], in the order the dict yields its
    keys.  The event carries the signal object, which the transition has
    updated.  An exception ends the pass (the loop catches it, sleeps, and
    starts the next one). *)
Fixpoint monitor_pass (signal_ids : list string) (now : Z)
         (m : SetupLifecycleManager) : Outcome SetupLifecycleManager unit :=
  match signal_ids with
  | [] => Returned tt m
  | signal_id :: rest =>
      match active_signals m !! signal_id with
      | None => monitor_pass rest now m
      | Some signal =>
          if due now signal then
            match transition_state signal_id EXPIRED StrategicSignal.no_kwargs now m with
            | Returned _ m =>
                monitor_pass rest now
                  (emit (STRATEGIC_SIGNAL_EXPIRED
                           (StrategicSignal.update_state EXPIRED StrategicSignal.no_kwargs
                              now signal) "timeout") m)
            | Raised e m => Raised e m
            end
          else monitor_pass rest now m
      end
  end.

Fixpoint expire_each (expired_ids : list string) (now : Z)
         (m : SetupLifecycleManager) : Outcome SetupLifecycleManager unit :=
  match expired_ids with
  | [] => Returned tt m
  | signal_id :: rest =>
      match transition_state signal_id EXPIRED StrategicSignal.no_kwargs now m with
      | Returned _ m => expire_each rest now m
      | Raised e m => Raised e m
      end
  end.

(** [cleanup_expired]; [signal_ids] are the keys of [self.active_signals] in
    the order the dict yields them. *)
Definition cleanup_expired (signal_ids : list string) (now : Z)
           (m : SetupLifecycleManager) : Outcome SetupLifecycleManager Z :=
  let expired_ids :=
    filter (fun sid => from_option (due now) false (active_signals m !! sid) = true)
           signal_ids in
  match expire_each expired_ids now m with
  | Returned _ m => Returned (Z.of_nat (length expired_ids)) m
  | Raised e m => Raised e m
  end.

(** How far a state is along the life of a signal. *)
Definition stage (s : SignalState) : nat :=
  match s with
  | PENDING => 0
  | ACTIVE => 1
  | EXECUTED => 2
  | EXPIRED | STOPPED | TARGET_HIT => 3
  end.

(** A chain of states in which every step is a permitted transition. *)
Fixpoint permitted_chain (from_state : SignalState) (steps : list SignalState) : bool :=
  match steps with
  | [] => true
  | to_state :: rest => _is_valid_transition from_state to_state && permitted_chain to_state rest
  end.

(** The active map after the due signals among [signal_ids] were expired. *)
Definition after_expiry (signal_ids : list string) (now : Z)
           (before : gmap string StrategicSignal.t) (k : string) : option StrategicSignal.t :=
  match before !! k with
  | Some s => if bool_decide (k ∈ signal_ids) && due now s then None else Some s
  | None => None
  end.

(** Every effect but the dedicated expiry event. *)
Definition not_expiry_event (e : Effect) : Prop :=
  match e with
  | STRATEGIC_SIGNAL_EXPIRED _ _ => False
  | _ => True
  end.

End LifecycleSweep.

(** ** The lifecycle manager over a store of signal objects *)

(** [Lifecycle] keeps each signal in the active map and in the history by
    value, which is what the program does as long as every object handed to
    [create_signal] is a new one.  Here the signal objects live in a store
    and the map and the history hold references to them, so that an object
    which is registered again is one object wherever it is held, as in the
    program: [create_signal] and [update_state] assign to the object, and
    [_archive_signal] appends the object itself. *)
Module LifecycleObjects.

(** A reference to a signal object: its index in the store. *)
Definition ref := nat.

Record ObjectManager := mkObjects {
  objects : list StrategicSignal.t;
  active_signals : gmap string ref;
  signal_history : list ref;
  timeout_config : list (SetupType * Z);
  state_callbacks : SignalState -> list nat;
  stats : Lifecycle.Stats;
  effects : list Lifecycle.Effect
}.

Definition with_objects (v : list StrategicSignal.t) (m : ObjectManager) :=
  mkObjects v (active_signals m) (signal_history m) (timeout_config m) (state_callbacks m) (stats m) (effects m).
Definition with_active (v : gmap string ref) (m : ObjectManager) :=
  mkObjects (objects m) v (signal_history m) (timeout_config m) (state_callbacks m) (stats m) (effects m).
Definition with_history (v : list ref) (m : ObjectManager) :=
  mkObjects (objects m) (active_signals m) v (timeout_config m) (state_callbacks m) (stats m) (effects m).
Definition with_stats (v : Lifecycle.Stats) (m : ObjectManager) :=
  mkObjects (objects m) (active_signals m) (signal_history m) (timeout_config m) (state_callbacks m) v (effects m).
(** An event or callback receives the object; the log keeps it as it is at
    that moment. *)
Definition emit (e : Lifecycle.Effect) (m : ObjectManager) :=
  mkObjects (objects m) (active_signals m) (signal_history m) (timeout_config m) (state_callbacks m) (stats m) (effects m ++ [e]).

Definition init (cfg : Lifecycle.TimeoutSettings) : ObjectManager :=
  mkObjects [] ∅ [] (Lifecycle.timeout_config (Lifecycle.init cfg))
    (fun _ => []) (Lifecycle.mkStats 0 0 0 0 0) [].

(** The caller builds a signal: a new object in the store. *)
Definition new_object (signal : StrategicSignal.t) (m : ObjectManager) : ref * ObjectManager :=
  (length (objects m), with_objects (objects m ++ [signal]) m).

(** [create_signal(signal)], [signal] being the object at [r].  A reference
    outside the store is not an object of the program; the call then stands
    for a [TypeError] and changes nothing. *)
Definition create_signal (r : ref) (now : Z)
           (m : ObjectManager) : Outcome ObjectManager bool :=
  match objects m !! r with
  | None => Raised TypeError m
  | Some signal =>
      let timeout_seconds :=
        Lifecycle.timeout_get (timeout_config m) (StrategicSignal.setup_type signal) 300 in
      let signal :=
        StrategicSignal.set_expiration (now + seconds timeout_seconds) timeout_seconds signal in
      let signal := StrategicSignal.set_state PENDING signal in
      let m := with_objects (<[r := signal]> (objects m)) m in
      let m := with_active (<[StrategicSignal.id signal := r]> (active_signals m)) m in
      let st := stats m in
      let m := with_stats
                 (Lifecycle.mkStats (Lifecycle.total_created st + 1) (Lifecycle.total_executed st)
                    (Lifecycle.total_expired st) (Lifecycle.total_stopped st)
                    (Lifecycle.total_targets_hit st)) m in
      let m := emit (Lifecycle.STRATEGIC_SIGNAL_CREATED signal timeout_seconds) m in
      let m := emit (Lifecycle.TimerStarted 2 (StrategicSignal.id signal)) m in
      Returned true m
  end.

(** [self.signal_history.append(signal)] appends the object itself. *)
Definition _archive_signal (r : ref) (m : ObjectManager) : Outcome ObjectManager unit :=
  match objects m !! r with
  | None => Raised TypeError m
  | Some signal =>
      let m := with_history (deque_append 100 (signal_history m) r) m in
      match active_signals m !! StrategicSignal.id signal with
      | Some _ =>
          Returned tt (with_active (delete (StrategicSignal.id signal) (active_signals m)) m)
      | None => Raised KeyError m
      end
  end.

Definition run_callbacks (handles : list nat) (signal : StrategicSignal.t)
           (m : ObjectManager) : ObjectManager :=
  fold_left (fun m h => emit (Lifecycle.CallbackInvoked h signal) m) handles m.
Arguments run_callbacks : simpl never.

Definition transition_state (signal_id : string) (new_state : SignalState)
           (kw : StrategicSignal.Kwargs) (now : Z)
           (m : ObjectManager) : Outcome ObjectManager bool :=
  match active_signals m !! signal_id with
  | None => Returned false m
  | Some r =>
      match objects m !! r with
      | None => Raised TypeError m
      | Some signal =>
          let old_state := StrategicSignal.state signal in
          if negb (Lifecycle._is_valid_transition old_state new_state) then Returned false m
          else
            let signal := StrategicSignal.update_state new_state kw now signal in
            let m := with_objects (<[r := signal]> (objects m)) m in
            let m := emit (Lifecycle.STRATEGIC_SIGNAL_STATE_CHANGED
                             signal_id old_state new_state signal) m in
            let m := run_callbacks (state_callbacks m new_state) signal m in
            let m := with_stats (Lifecycle.update_stats new_state (stats m)) m in
            if Lifecycle.is_final new_state then
              match _archive_signal r m with
              | Returned _ m => Returned true m
              | Raised e m => Raised e m
              end
            else Returned true m
      end
  end.

(** The state of the object that [signal_id] is filed under, if any. *)
Definition state_of (signal_id : string) (m : ObjectManager) : option StrategicSignal.t :=
  match active_signals m !! signal_id with
  | Some r => objects m !! r
  | None => None
  end.

Definition _auto_activate_signal (signal_id : string) (now : Z)
           (m : ObjectManager) : Outcome ObjectManager unit :=
  match state_of signal_id m with
  | Some signal =>
      if decide (StrategicSignal.state signal = PENDING) then
        match transition_state signal_id ACTIVE StrategicSignal.no_kwargs now m with
        | Returned _ m => Returned tt m
        | Raised e m => Raised e m
        end
      else Returned tt m
  | None => Returned tt m
  end.

(** One pass of the body of [_monitor_loop] over the snapshot [signal_ids];
    the event carries the object, as the transition has left it. *)
Fixpoint monitor_pass (signal_ids : list string) (now : Z)
         (m : ObjectManager) : Outcome ObjectManager unit :=
  match signal_ids with
  | [] => Returned tt m
  | signal_id :: rest =>
      match active_signals m !! signal_id with
      | None => monitor_pass rest now m
      | Some r =>
          match objects m !! r with
          | None => monitor_pass rest now m
          | Some signal =>
              if LifecycleSweep.due now signal then
                match transition_state signal_id EXPIRED StrategicSignal.no_kwargs now m with
                | Returned _ m =>
                    monitor_pass rest now
                      (emit (Lifecycle.STRATEGIC_SIGNAL_EXPIRED
                               (default signal (objects m !! r)) "timeout") m)
                | Raised e m => Raised e m
                end
              else monitor_pass rest now m
          end
      end
  end.

Fixpoint expire_each (expired_ids : list string) (now : Z)
         (m : ObjectManager) : Outcome ObjectManager unit :=
  match expired_ids with
  | [] => Returned tt m
  | signal_id :: rest =>
      match transition_state signal_id EXPIRED StrategicSignal.no_kwargs now m with
      | Returned _ m => expire_each rest now m
      | Raised e m => Raised e m
      end
  end.

Definition cleanup_expired (signal_ids : list string) (now : Z)
           (m : ObjectManager) : Outcome ObjectManager Z :=
  let expired_ids :=
    filter (fun sid => from_option (LifecycleSweep.due now) false (state_of sid m) = true)
           signal_ids in
  match expire_each expired_ids now m with
  | Returned _ m => Returned (Z.of_nat (length expired_ids)) m
  | Raised e m => Raised e m
  end.

(** The calls a client of the manager can make; the one-shot timer is one of
    them.  [create_signal] is called either on a signal built for the call
    or on an object that exists already (one registered before, archived or
    not). *)
Inductive Call :=
| CreateNew (signal : StrategicSignal.t)
| CreateAgain (r : ref)
| TransitionState (signal_id : string) (new_state : SignalState) (kw : StrategicSignal.Kwargs)
| AutoActivate (signal_id : string)
| MonitorPass (signal_ids : list string)
| CleanupExpired (signal_ids : list string).

Definition call (c : Call) (now : Z) (m : ObjectManager) : ObjectManager :=
  match c with
  | CreateNew signal =>
      let '(r, m) := new_object signal m in final_state (create_signal r now m)
  | CreateAgain r => final_state (create_signal r now m)
  | TransitionState signal_id new_state kw =>
      final_state (transition_state signal_id new_state kw now m)
  | AutoActivate signal_id => final_state (_auto_activate_signal signal_id now m)
  | MonitorPass signal_ids => final_state (monitor_pass signal_ids now m)
  | CleanupExpired signal_ids => final_state (cleanup_expired signal_ids now m)
  end.

Fixpoint call_all (cs : list (Call * Z)) (m : ObjectManager) : ObjectManager :=
  match cs with
  | [] => m
  | (c, now) :: rest => call_all rest (call c now m)
  end.

(** No object is registered twice. *)
Definition registers_new_objects (c : Call) : bool :=
  match c with
  | CreateAgain _ => false
  | _ => true
  end.

(** Every active entry refers to an object that carries the key as its id
    and is not in a final state; the history is within its [maxlen]. *)
Definition filed (m : ObjectManager) : Prop :=
  (forall k r, active_signals m !! k = Some r ->
               exists s, objects m !! r = Some s /\ StrategicSignal.id s = k /\
                         Lifecycle.is_final (StrategicSignal.state s) = false) /\
  (length (signal_history m) <= 100)%nat.

(** Every entry of the history refers to an object in a final state. *)
Definition archived (m : ObjectManager) : Prop :=
  forall r, r ∈ signal_history m ->
            exists s, objects m !! r = Some s /\
                      Lifecycle.is_final (StrategicSignal.state s) = true.

(** Two managers that hold the same objects in the same places. *)
Definition same_store (m m' : ObjectManager) : Prop :=
  objects m' = objects m /\ active_signals m' = active_signals m /\
  signal_history m' = signal_history m.

End LifecycleObjects.

(** ** Sequences of deliveries to the risk governor *)

Module RiskRuns.
Import Risk.

(** A run of TRADE_CLOSED events, each with its ['pnl']. *)
Definition close_trades (pnls : list Q) (s : RiskManagementService) : RiskManagementService :=
  fold_left (fun s pnl => _handle_trade_closed (Some pnl) s) pnls s.

(** What reaches the governor: candidates to evaluate, signals from the bus,
    closed trades, the daily reset and operator overrides. *)
Inductive Call :=
| EvaluateSignal (signal : Signal.t)
| SignalGenerated (signal : Signal.t)
| TradeClosed (trade_pnl : option Q)
| ResetDailyMetrics
| ManualOverride (breaker : string) (active : bool) (reason : string).

Definition call (c : Call) (now : Z) (s : RiskManagementService) : RiskManagementService :=
  match c with
  | EvaluateSignal signal => snd (evaluate_signal signal now s)
  | SignalGenerated signal => _handle_signal_generated signal now s
  | TradeClosed trade_pnl => _handle_trade_closed trade_pnl s
  | ResetDailyMetrics => reset_daily_metrics now s
  | ManualOverride breaker active reason => manual_override breaker active reason now s
  end.

Fixpoint call_all (cs : list (Call * Z)) (s : RiskManagementService) : RiskManagementService :=
  match cs with
  | [] => s
  | (c, now) :: rest => call_all rest (call c now s)
  end.

(** The deques are within their [maxlen]. *)
Definition within_maxlen (s : RiskManagementService) : Prop :=
  (length (ts_all (signal_timestamps s)) <= 500)%nat /\
  (length (ts_confluence (signal_timestamps s)) <= 100)%nat /\
  (length (ts_arbitrage (signal_timestamps s)) <= 200)%nat /\
  (length (ts_tape_reading (signal_timestamps s)) <= 300)%nat /\
  (length (signal_history s) <= 1000)%nat.

End RiskRuns.


(** ** Queries and book-keeping of the position manager *)

Module PositionQueries.
Import Positions.

(** [signal_to_position.get(signal_id)], then [positions.get(position_id)]
    when the id found is not empty. *)
Definition get_position_by_signal (signal_id : string) (m : PositionManager)
  : option Position.t :=
  match signal_to_position m !! signal_id with
  | Some position_id =>
      if position_id =? "" then None else dict_get position_id (positions m)
  | None => None
  end.

(** The test of [should_stop] and of [check_targets] on a price. *)
Definition beyond (buy : bool) (price level : Q) : bool :=
  if buy then Qgeb price level else Qleb price level.

(** From [m] to [m'] nothing was opened, and every position that left the
    dict was counted as closed, as a win or as a loss, and at most once as
    stopped or as a target hit. *)
Definition accounted (m m' : PositionManager) : Prop :=
  let st := stats m in
  let st' := stats m' in
  total_opened st' = total_opened st /\
  (total_closed st <= total_closed st')%Z /\
  (win_count st <= win_count st')%Z /\
  (loss_count st <= loss_count st')%Z /\
  (total_stopped st <= total_stopped st')%Z /\
  (total_target_hit st <= total_target_hit st')%Z /\
  (total_closed st' - total_closed st
   = (win_count st' - win_count st) + (loss_count st' - loss_count st))%Z /\
  ((total_stopped st' - total_stopped st) + (total_target_hit st' - total_target_hit st)
   <= total_closed st' - total_closed st)%Z /\
  (Z.of_nat (length (positions m')) + (total_closed st' - total_closed st)
   <= Z.of_nat (length (positions m)))%Z.

(** The books balance. *)
Definition balanced (m : PositionManager) : Prop :=
  let st := stats m in
  (total_closed st = win_count st + loss_count st)%Z /\
  (0 <= total_stopped st)%Z /\ (0 <= total_target_hit st)%Z /\
  (0 <= win_count st)%Z /\ (0 <= loss_count st)%Z /\
  (total_stopped st + total_target_hit st <= total_closed st)%Z /\
  (Z.of_nat (length (positions m)) + total_closed st <= total_opened st)%Z.

End PositionQueries.

(** ** Notions used in the statements about the factory *)

Module FactoryQueries.
Import Factory.




End FactoryQueries.

(** * Properties *)

(** ** Signal lifecycle manager *)

Section LifecycleProperties.
Import Lifecycle.

Lemma update_state_id new_state kw now s :
  StrategicSignal.id (StrategicSignal.update_state new_state kw now s) = StrategicSignal.id s.
Proof.
  unfold StrategicSignal.update_state.
  destruct new_state, (StrategicSignal.kw_execution_price kw),
    (StrategicSignal.kw_exit_price kw); cbn; try reflexivity;
    destruct (truthy _); try reflexivity;
    destruct (String.eqb _ _); reflexivity.
Qed.

Lemma update_state_state new_state kw now s :
  StrategicSignal.state (StrategicSignal.update_state new_state kw now s) = new_state.
Proof.
  unfold StrategicSignal.update_state.
  destruct new_state, (StrategicSignal.kw_execution_price kw),
    (StrategicSignal.kw_exit_price kw); cbn; try reflexivity;
    destruct (truthy _); try reflexivity;
    destruct (String.eqb _ _); reflexivity.
Qed.

Lemma is_valid_transition_table from_state to_state :
  _is_valid_transition from_state to_state = true <->
  In (from_state, to_state) transition_table.
Proof.
  split.
  - destruct from_state, to_state; vm_compute; intros H; try discriminate H; tauto.
  - unfold transition_table; cbn; intros H.
    repeat (destruct H as [H | H]; [injection H as <- <-; reflexivity |]).
    destruct H.
Qed.

Lemma final_state_rejects from_state to_state :
  In from_state [EXPIRED; STOPPED; TARGET_HIT] ->
  _is_valid_transition from_state to_state = false.
Proof.
  cbn; intros [<- | [<- | [<- | []]]]; destruct to_state; reflexivity.
Qed.

Lemma run_callbacks_active handles signal m :
  active_signals (run_callbacks handles signal m) = active_signals m.
Proof.
  unfold run_callbacks. revert m.
  induction handles as [| h handles IH]; intros m; cbn; [reflexivity |].
  rewrite IH. reflexivity.
Qed.

Lemma init_keyed_by_id cfg : keyed_by_id (init cfg).
Proof. intros k s H. cbn in H. rewrite lookup_empty in H. discriminate H. Qed.

Lemma create_signal_keyed_by_id signal now m :
  keyed_by_id m -> keyed_by_id (final_state (create_signal signal now m)).
Proof.
  intros Hm k s. cbn.
  destruct (decide (StrategicSignal.id signal = k)) as [<- | Hne].
  - rewrite lookup_insert_eq. intros [= <-]. reflexivity.
  - rewrite lookup_insert_ne by exact Hne. apply Hm.
Qed.

(** C1. [transition_state] returns true exactly when the id is in the
    active set and (current state, new state) is one of the six pairs of the
    transition table; a signal in one of the final states EXPIRED, STOPPED,
    TARGET_HIT is refused whatever the request; and a refusal leaves the
    whole manager (signals, history, statistics, event log) as it was. *)
Theorem transition_state_legality :
  forall m signal_id new_state kw now,
    keyed_by_id m ->
    exists b m',
      transition_state signal_id new_state kw now m = Returned b m' /\
      (b = true <->
       exists s, active_signals m !! signal_id = Some s /\
                 In (StrategicSignal.state s, new_state) transition_table) /\
      (forall s, active_signals m !! signal_id = Some s ->
                 In (StrategicSignal.state s) [EXPIRED; STOPPED; TARGET_HIT] ->
                 b = false) /\
      (b = false -> m' = m).
Proof.
  intros m signal_id new_state kw now Hkeyed.
  unfold transition_state.
  destruct (active_signals m !! signal_id) as [s |] eqn:Hlook.
  - destruct (_is_valid_transition (StrategicSignal.state s) new_state) eqn:Hvalid; cbn [negb].
    + assert (Hin : In (StrategicSignal.state s, new_state) transition_table)
        by (apply is_valid_transition_table; exact Hvalid).
      assert (Hnotfinal : forall s0, Some s = Some s0 ->
                In (StrategicSignal.state s0) [EXPIRED; STOPPED; TARGET_HIT] -> true = false).
      { intros s0 [= <-] Hfin. rewrite (final_state_rejects _ new_state Hfin) in Hvalid.
        discriminate Hvalid. }
      destruct (is_final new_state).
      * unfold _archive_signal. cbn [active_signals with_history with_stats].
        rewrite run_callbacks_active. cbn [active_signals emit with_active].
        rewrite update_state_id, (Hkeyed _ _ Hlook), lookup_insert_eq.
        eexists _, _. split; [reflexivity |].
        split; [split; [eauto | reflexivity] |].
        split; [exact Hnotfinal | discriminate].
      * eexists _, _. split; [reflexivity |].
        split; [split; [eauto | reflexivity] |].
        split; [exact Hnotfinal | discriminate].
    + exists false, m. split; [reflexivity |].
      split; [| split; [reflexivity | reflexivity]].
      split; [discriminate |].
      intros (s0 & [= <-] & Hin).
      apply is_valid_transition_table in Hin. congruence.
  - exists false, m. split; [reflexivity |].
    split; [| split; [discriminate | reflexivity]].
    split; [discriminate |].
    intros (s0 & Hs0 & _). discriminate Hs0.
Qed.

Lemma transition_state_legality_witness :
  keyed_by_id Samples.manager_with_wdo_buy /\
  exists b m',
    transition_state "sig-1" ACTIVE StrategicSignal.no_kwargs (seconds 2)
      Samples.manager_with_wdo_buy = Returned b m' /\
    (b = true <->
     exists s, active_signals Samples.manager_with_wdo_buy !! "sig-1" = Some s /\
               In (StrategicSignal.state s, ACTIVE) transition_table) /\
    (forall s, active_signals Samples.manager_with_wdo_buy !! "sig-1" = Some s ->
               In (StrategicSignal.state s) [EXPIRED; STOPPED; TARGET_HIT] ->
               b = false) /\
    (b = false -> m' = Samples.manager_with_wdo_buy).
Proof.
  assert (H : keyed_by_id Samples.manager_with_wdo_buy)
    by (apply create_signal_keyed_by_id, init_keyed_by_id).
  split; [exact H |].
  apply (transition_state_legality Samples.manager_with_wdo_buy "sig-1" ACTIVE
           StrategicSignal.no_kwargs (seconds 2) H).
Defined.

(** C5, as stated, fails: a second [create_signal] with an id that is
    already in the active set is accepted (it returns true) and replaces the
    registered signal. *)
Lemma create_signal_accepts_present_id :
  active_signals Samples.manager_with_wdo_buy !! "sig-1" <> None /\
  exists m',
    create_signal Samples.wdo_buy (seconds 5) Samples.manager_with_wdo_buy = Returned true m' /\
    (StrategicSignal.expiration_time <$> active_signals m' !! "sig-1") = Some (seconds 605).
Proof.
  split; [vm_compute; discriminate |].
  eexists. split; [reflexivity |]. vm_compute. reflexivity.
Qed.

(** C5, amended. [create_signal] never refuses: for every signal, whether or
    not its id is already in the active set, it returns true, files the
    signal under its id as PENDING with expiration = now + the timeout of its
    setup kind (300 s when the table has no entry), leaves the other ids
    untouched, publishes the creation event and starts the 2-second timer;
    when that timer fires on the resulting manager the signal becomes
    ACTIVE. *)
Theorem create_signal_always_accepts :
  forall signal now m,
    let timeout := timeout_get (timeout_config m) (StrategicSignal.setup_type signal) 300 in
    let registered :=
      StrategicSignal.set_state PENDING
        (StrategicSignal.set_expiration (now + seconds timeout) timeout signal) in
    exists m',
      create_signal signal now m = Returned true m' /\
      active_signals m' !! StrategicSignal.id signal = Some registered /\
      (forall k, k <> StrategicSignal.id signal ->
                 active_signals m' !! k = active_signals m !! k) /\
      effects m' = effects m ++ [STRATEGIC_SIGNAL_CREATED registered timeout;
                                 TimerStarted 2 (StrategicSignal.id signal)] /\
      total_created (stats m') = (total_created (stats m) + 1)%Z /\
      forall fired, exists m'',
        _auto_activate_signal (StrategicSignal.id signal) fired m' = Returned tt m'' /\
        (StrategicSignal.state <$> active_signals m'' !! StrategicSignal.id signal) = Some ACTIVE.
Proof.
  intros signal now m timeout registered.
  eexists. split; [reflexivity |].
  cbn [active_signals with_active with_stats emit effects stats total_created].
  change (StrategicSignal.id (StrategicSignal.set_state _ _)) with (StrategicSignal.id signal).
  split; [apply lookup_insert_eq |].
  split; [intros k Hk; apply lookup_insert_ne; congruence |].
  split; [rewrite <- app_assoc; reflexivity |].
  split; [reflexivity |].
  intros fired. unfold _auto_activate_signal, transition_state.
  cbn [active_signals with_active with_stats emit].
  rewrite lookup_insert_eq. cbn.
  eexists. split; [reflexivity |].
  cbn [active_signals with_active with_stats emit].
  rewrite run_callbacks_active. cbn [active_signals with_active with_stats emit].
  rewrite lookup_insert_eq. reflexivity.
Qed.

End LifecycleProperties.

(** ** Risk governor *)

Section RiskProperties.
Import Risk.

(** [evaluate_signal] changes the service only on the approval path. *)
Lemma evaluate_signal_rejected_unchanged signal now s :
  fst (fst (evaluate_signal signal now s)) = false ->
  snd (evaluate_signal signal now s) = s.
Proof.
  unfold evaluate_signal.
  destruct (negb (fst (_check_circuit_breakers s))); [reflexivity |].
  destruct (_check_signal_frequency signal now s); [reflexivity |].
  destruct (Qltb _ _); [reflexivity |].
  destruct (bool_decide _); [reflexivity |].
  cbn. discriminate.
Qed.

Lemma emergency_not_all_clear s :
  cb_emergency (circuit_breakers s) = true ->
  fst (_check_circuit_breakers s) = false.
Proof.
  intros H. unfold _check_circuit_breakers. rewrite H.
  destruct (cb_consecutive_losses _), (cb_drawdown _), (cb_frequency _), (cb_quality _);
    reflexivity.
Qed.

(** C2, as stated, fails: the emergency breaker, set by a trade that closed
    at -1000, is cleared by the next trade-closed event (+100 brings the daily
    P&L to -900, above the stop), with no daily reset and no manual override
    in between; the next candidate is then approved. *)
Lemma trade_closed_clears_emergency :
  cb_emergency (circuit_breakers Samples.service_after_big_loss) = true /\
  fst (fst (evaluate_signal Samples.confluence_alert Samples.noon
              Samples.service_after_big_loss)) = false /\
  cb_emergency (circuit_breakers
                  (_handle_trade_closed (Some 100%Q) Samples.service_after_big_loss)) = false /\
  fst (fst (evaluate_signal Samples.confluence_alert Samples.noon
              (_handle_trade_closed (Some 100%Q) Samples.service_after_big_loss))) = true.
Proof. vm_compute. repeat split. Qed.

Lemma signal_generated_keeps_breakers signal now s :
  circuit_breakers (_handle_signal_generated signal now s) = circuit_breakers s.
Proof.
  unfold _handle_signal_generated, evaluate_signal.
  destruct (negb (fst (_check_circuit_breakers s))); [reflexivity |].
  destruct (_check_signal_frequency signal now s); [reflexivity |].
  destruct (Qltb _ _); [reflexivity |].
  destruct (bool_decide _); reflexivity.
Qed.

Lemma other_deliveries_keep_breakers ds :
  forall s,
    Forall (fun d => RiskBus.is_trade_closed (fst d) = false) ds ->
    circuit_breakers (RiskBus.deliver_all ds s) = circuit_breakers s.
Proof.
  induction ds as [| [d now] rest IH]; intros s Hds; cbn [RiskBus.deliver_all];
    [reflexivity |].
  apply Forall_cons in Hds as [Hd Hrest]. rewrite (IH _ Hrest).
  destruct d as [signal | | trade_pnl |]; cbn [RiskBus.handle];
    [apply signal_generated_keeps_breakers | reflexivity | discriminate Hd | reflexivity].
Qed.

(** C2, amended. In every state in which the emergency breaker is true,
    [evaluate_signal] returns approved = false with risk level CRITICAL and
    changes nothing. The breaker is cleared by a daily reset and by a manual
    override to false, and each trade-closed event recomputes it as
    (daily P&L after the trade <= -emergency stop), so a trade-closed event
    keeps it set exactly when the updated daily P&L is still at or below the
    stop. Nothing else clears it: a manual override of another breaker
    leaves it alone, and through any run of the other deliveries of the bus
    (signals generated, trades executed, market updates) it stays set and
    every evaluation is still rejected as CRITICAL. *)
Theorem emergency_blocks_until_recomputed :
  forall s, cb_emergency (circuit_breakers s) = true ->
    (forall signal now,
        exists a, evaluate_signal signal now s = (false, a, s) /\
                  approved a = false /\ assessed_risk a = CRITICAL) /\
    (forall now, cb_emergency (circuit_breakers (reset_daily_metrics now s)) = false) /\
    (forall active reason now,
        cb_emergency (circuit_breakers (manual_override "emergency" active reason now s)) = active) /\
    (forall breaker active reason now,
        breaker <> "emergency" ->
        cb_emergency (circuit_breakers (manual_override breaker active reason now s)) = true) /\
    (forall trade_pnl,
        cb_emergency (circuit_breakers (_handle_trade_closed trade_pnl s)) =
        Qleb (daily_pnl (performance_metrics s) + default 0%Q trade_pnl)
             (- emergency_stop_loss s)) /\
    (forall ds,
        Forall (fun d => RiskBus.is_trade_closed (fst d) = false) ds ->
        let s' := RiskBus.deliver_all ds s in
        cb_emergency (circuit_breakers s') = true /\
        forall signal now,
          exists a, evaluate_signal signal now s' = (false, a, s') /\
                    approved a = false /\ assessed_risk a = CRITICAL).
Proof.
  intros s Hem.
  assert (Hblocked : forall s0, cb_emergency (circuit_breakers s0) = true ->
            forall signal now,
              exists a, evaluate_signal signal now s0 = (false, a, s0) /\
                        approved a = false /\ assessed_risk a = CRITICAL).
  { intros s0 H0 signal now. unfold evaluate_signal.
    rewrite (emergency_not_all_clear s0 H0). cbn. eauto. }
  split; [| split; [| split; [| split; [| split]]]].
  - exact (Hblocked s Hem).
  - intros now. reflexivity.
  - intros active reason now. unfold manual_override. reflexivity.
  - intros breaker active reason now Hne. unfold manual_override, breaker_get, breaker_set.
    destruct (String.eqb_spec breaker "frequency") as [-> | _]; [exact Hem |].
    destruct (String.eqb_spec breaker "quality") as [-> | _]; [exact Hem |].
    destruct (String.eqb_spec breaker "drawdown") as [-> | _]; [exact Hem |].
    destruct (String.eqb_spec breaker "consecutive_losses") as [-> | _]; [exact Hem |].
    destruct (String.eqb_spec breaker "emergency") as [-> | _]; [congruence | exact Hem].
  - intros trade_pnl. reflexivity.
  - intros ds Hds s'.
    assert (Hem' : cb_emergency (circuit_breakers s') = true)
      by (subst s'; rewrite (other_deliveries_keep_breakers ds s Hds); exact Hem).
    split; [exact Hem' | exact (Hblocked s' Hem')].
Qed.

Lemma emergency_blocks_until_recomputed_witness :
  cb_emergency (circuit_breakers Samples.service_after_big_loss) = true /\
  (exists a,
      evaluate_signal Samples.confluence_alert Samples.noon Samples.service_after_big_loss
      = (false, a, Samples.service_after_big_loss) /\
      approved a = false /\ assessed_risk a = CRITICAL) /\
  cb_emergency
    (circuit_breakers
       (RiskBus.deliver_all
          [(RiskBus.SIGNAL_GENERATED Samples.confluence_alert, Samples.noon);
           (RiskBus.TRADE_EXECUTED, Samples.noon);
           (RiskBus.MARKET_DATA_UPDATED, Samples.noon)]
          Samples.service_after_big_loss)) = true.
Proof.
  split; [reflexivity |].
  destruct (emergency_blocks_until_recomputed Samples.service_after_big_loss eq_refl)
    as (H1 & _ & _ & _ & _ & H6).
  split; [apply H1 |].
  apply (H6 [(RiskBus.SIGNAL_GENERATED Samples.confluence_alert, Samples.noon);
             (RiskBus.TRADE_EXECUTED, Samples.noon);
             (RiskBus.MARKET_DATA_UPDATED, Samples.noon)]).
  repeat constructor.
Defined.

(** C10. A call of [evaluate_signal] that returns approved = false leaves the
    timestamp deques as they were; hence after any stream of candidates that
    were all rejected the deques are still the initial ones, and the frequency
    check answers every later question as it would have before the stream. *)
Theorem rejections_leave_frequency_tracking :
  (forall signal now s,
      fst (fst (evaluate_signal signal now s)) = false ->
      signal_timestamps (snd (evaluate_signal signal now s)) = signal_timestamps s) /\
  (forall candidates s,
      forallb negb (fst (evaluate_all candidates s)) = true ->
      signal_timestamps (snd (evaluate_all candidates s)) = signal_timestamps s /\
      forall signal now,
        _check_signal_frequency signal now (snd (evaluate_all candidates s)) =
        _check_signal_frequency signal now s).
Proof.
  split.
  - intros signal now s H. rewrite (evaluate_signal_rejected_unchanged _ _ _ H). reflexivity.
  - assert (Hsame : forall candidates s,
               forallb negb (fst (evaluate_all candidates s)) = true ->
               snd (evaluate_all candidates s) = s).
    { induction candidates as [| [signal now] rest IH]; intros s; cbn; [reflexivity |].
      pose proof (evaluate_signal_rejected_unchanged signal now s) as Hone.
      destruct (evaluate_signal signal now s) as [[ok a] s1]. cbn in Hone.
      specialize (IH s1).
      destruct (evaluate_all rest s1) as [oks s2]. cbn in *.
      intros Hall. apply andb_prop in Hall as [Hok Hrest].
      destruct ok; [discriminate Hok |].
      rewrite (IH Hrest). apply Hone. reflexivity. }
    intros candidates s Hall. rewrite (Hsame candidates s Hall). split; reflexivity.
Qed.

Lemma rejections_leave_frequency_tracking_witness :
  signal_timestamps
    (snd (evaluate_all [(Samples.confluence_alert, Samples.noon);
                        (Samples.confluence_alert, (Samples.noon + 1)%Z)]
            Samples.service_after_big_loss))
  = signal_timestamps Samples.service_after_big_loss.
Proof.
  apply (proj2 rejections_leave_frequency_tracking
           [(Samples.confluence_alert, Samples.noon);
            (Samples.confluence_alert, (Samples.noon + 1)%Z)]
           Samples.service_after_big_loss).
  reflexivity.
Defined.

End RiskProperties.

(** ** Arithmetic of the Python primitives *)

Section PrimitiveFacts.

Lemma Qleb_true x y : Qleb x y = true <-> (x <= y)%Q.
Proof. apply Qle_bool_iff. Qed.

Lemma Qgeb_true x y : Qgeb x y = true <-> (y <= x)%Q.
Proof. apply Qle_bool_iff. Qed.

Lemma Qltb_true x y : Qltb x y = true <-> (x < y)%Q.
Proof.
  unfold Qltb. rewrite negb_true_iff. split.
  - intros H. apply Qnot_le_lt. intros Hle.
    apply Qle_bool_iff in Hle. congruence.
  - intros H. destruct (Qle_bool y x) eqn:E; [| reflexivity].
    apply Qle_bool_iff in E. exfalso. exact (Qlt_not_le _ _ H E).
Qed.

Lemma Qltb_false x y : Qltb x y = false <-> (y <= x)%Q.
Proof.
  unfold Qltb. rewrite negb_false_iff. apply Qle_bool_iff.
Qed.

Lemma Qgtb_true x y : Qgtb x y = true <-> (y < x)%Q.
Proof. apply (Qltb_true y x). Qed.

Lemma Qgtb_false x y : Qgtb x y = false <-> (x <= y)%Q.
Proof. apply (Qltb_false y x). Qed.

Lemma py_min_le_r a b : (py_min a b <= b)%Q.
Proof.
  unfold py_min. destruct (Qltb b a) eqn:E.
  - apply Qle_refl.
  - apply Qltb_false in E. exact E.
Qed.

Lemma py_min_ge a b c : (c <= a)%Q -> (c <= b)%Q -> (c <= py_min a b)%Q.
Proof. intros Ha Hb. unfold py_min. destruct (Qltb b a); assumption. Qed.

Lemma py_max_ge_r a b : (b <= py_max a b)%Q.
Proof.
  unfold py_max. destruct (Qgtb b a) eqn:E.
  - apply Qle_refl.
  - apply Qgtb_false in E. exact E.
Qed.

Lemma py_max_le a b c : (a <= c)%Q -> (b <= c)%Q -> (py_max a b <= c)%Q.
Proof. intros Ha Hb. unfold py_max. destruct (Qgtb b a); assumption. Qed.

(** [min(max(x, 0.5), 1.0)] lies in [0.5, 1]. *)
Lemma clamp_half_one x :
  (0.5 <= py_min (py_max x 0.5) 1.0)%Q /\ (py_min (py_max x 0.5) 1.0 <= 1)%Q.
Proof.
  split.
  - apply py_min_ge; [apply py_max_ge_r | apply Qle_bool_iff; reflexivity].
  - eapply Qle_trans; [apply py_min_le_r | apply Qle_bool_iff; reflexivity].
Qed.

End PrimitiveFacts.

(** ** Confluence and signal factory *)

Section FactoryProperties.
Import Factory.

Lemma apply_all_multiplier_bounds f signal context :
  (0.5 <= Consolidated.confidence_multiplier (Filters.apply_all f signal context))%Q /\
  (Consolidated.confidence_multiplier (Filters.apply_all f signal context) <= 1)%Q.
Proof.
  unfold Filters.apply_all.
  destruct (negb (Filters.enabled f)); [split; apply Qle_bool_iff; reflexivity |].
  destruct (negb (FilterResult.passed _)); [split; apply Qle_bool_iff; reflexivity |].
  destruct (Filters.book context); destruct (Filters.volatility context) as [v |];
    try destruct (String.eqb v ""); cbn [Consolidated.confidence_multiplier];
    apply clamp_half_one.
Qed.

Lemma apply_filter_adjustments_confidence adjustments signal :
  StrategicSignal.confidence (_apply_filter_adjustments adjustments signal) =
  StrategicSignal.confidence signal.
Proof.
  unfold _apply_filter_adjustments.
  destruct (tighten_stop adjustments), (widen_stop adjustments),
    (use_limit_orders adjustments), (StrategicSignal.direction signal =? "COMPRA"),
    (adjustments_nonempty adjustments); cbn;
    repeat (match goal with |- context [bool_decide ?P] => destruct (bool_decide P) end; cbn);
    reflexivity.
Qed.

Lemma field_constraints_confidence e st c rr :
  field_constraints_hold e st c rr = true -> (0 <= c)%Q /\ (c <= 1)%Q.
Proof.
  unfold field_constraints_hold. intros H.
  repeat (apply andb_prop in H as [H ?]).
  split; [apply Qgeb_true | apply Qleb_true]; assumption.
Qed.

Lemma scaled_confidence_bounds c m :
  (0 <= c)%Q -> (c <= 1)%Q -> (0.5 <= m)%Q -> (m <= 1)%Q ->
  (0 <= py_min (c * m) 1.0)%Q /\ (py_min (c * m) 1.0 <= 1)%Q.
Proof.
  intros Hc0 Hc1 Hm0 Hm1. split.
  - apply py_min_ge; [| apply Qle_bool_iff; reflexivity].
    apply Qmult_le_0_compat; [exact Hc0 |].
    eapply Qle_trans; [| exact Hm0]. apply Qle_bool_iff; reflexivity.
  - eapply Qle_trans; [apply py_min_le_r | apply Qle_bool_iff; reflexivity].
Qed.

Lemma boosted_confidence_bounds c boost :
  (0 <= c)%Q -> (0 <= boost)%Q ->
  (0 <= py_min (c + boost) 1.0)%Q /\ (py_min (c + boost) 1.0 <= 1)%Q.
Proof.
  intros Hc Hb. split.
  - apply py_min_ge; [| apply Qle_bool_iff; reflexivity].
    replace 0%Q with (0 + 0)%Q by reflexivity. apply Qplus_le_compat; assumption.
  - eapply Qle_trans; [apply py_min_le_r | apply Qle_bool_iff; reflexivity].
Qed.

Lemma penalised_confidence_bounds c penalty :
  (0 <= c)%Q -> (c <= 1)%Q -> (0 <= penalty)%Q -> (penalty <= 1)%Q ->
  (0 <= c * (1 - penalty))%Q /\ (c * (1 - penalty) <= 1)%Q.
Proof.
  intros Hc0 Hc1 Hp0 Hp1.
  assert (H0 : (0 <= 1 - penalty)%Q).
  { unfold Qminus. rewrite <- (Qplus_opp_r penalty).
    apply Qplus_le_compat; [exact Hp1 | apply Qle_refl]. }
  assert (H1 : (1 - penalty <= 1)%Q).
  { unfold Qminus. rewrite <- (Qplus_0_r 1) at 2.
    apply Qplus_le_compat; [apply Qle_refl |].
    apply (Qopp_le_compat 0 penalty) in Hp0. exact Hp0. }
  split.
  - apply Qmult_le_0_compat; assumption.
  - rewrite <- (Qmult_1_r 1).
    eapply Qle_trans.
    + apply Qmult_le_compat_r; [exact Hc1 | exact H0].
    + rewrite !Qmult_1_l. exact H1.
Qed.

Lemma check_confluence_config signal now s :
  confluence_config (snd (_check_confluence signal now s)) = confluence_config s.
Proof.
  unfold _check_confluence.
  destruct (pending_confluence s !! _); [destruct (slot_timed_out _ _ _) |]; reflexivity.
Qed.

Lemma create_signal_registers signal now m :
  exists m', Lifecycle.create_signal signal now m = Returned true m' /\
             Lifecycle.active_signals m' !! StrategicSignal.id signal
             = Some (Lifecycle.registered signal now m).
Proof. eexists. split; [reflexivity |]. cbn. apply lookup_insert_eq. Qed.


Lemma registered_confidence signal now m :
  StrategicSignal.confidence (Lifecycle.registered signal now m) = StrategicSignal.confidence signal.
Proof. reflexivity. Qed.

(** Runs the registration step of [create_strategic_signal] in the goal, and
    hands the bounds of the confidence of the registered signal to [tac]. *)
Ltac register_then tac :=
  match goal with
  | |- context [Lifecycle.create_signal ?sg ?n ?m] =>
      let m' := fresh "m'" in
      let Heq := fresh "Heq" in
      let Hlook := fresh "Hlook" in
      destruct (create_signal_registers sg n m) as (m' & Heq & Hlook);
      rewrite Heq, Hlook; cbn [default];
      intros [= <- _];
      rewrite registered_confidence;
      match goal with |- context [Consolidated.warnings ?fr] =>
        destruct (Consolidated.warnings fr) end; cbn; tac
  end.

(** C6. Every signal that [create_strategic_signal] returns carries a
    confidence in [0, 1], whichever of the filter multiplier, the confluence
    boost and the major-conflict penalty were applied (for a boost that is not
    negative and a penalty fraction in [0, 1], as the configured 0.15 and 0.20
    are). *)
Theorem created_signal_confidence_in_unit_interval :
  forall p signal_id now s signal s',
    (0 <= confidence_boost (confluence_config s))%Q ->
    (0 <= confidence_penalty (confluence_config s))%Q ->
    (confidence_penalty (confluence_config s) <= 1)%Q ->
    create_strategic_signal p signal_id now s = Returned (Some signal) s' ->
    (0 <= StrategicSignal.confidence signal)%Q /\ (StrategicSignal.confidence signal <= 1)%Q.
Proof.
  intros p signal_id now s signal s' Hboost Hpen0 Hpen1.
  unfold create_strategic_signal.
  destruct (field_constraints_hold _ _ _ _) eqn:Hfc; cbn [negb]; [| discriminate].
  apply field_constraints_confidence in Hfc as [Hc0 Hc1].
  match goal with |- context [Filters.apply_all ?f ?sg ?ctx] =>
    pose proof (apply_all_multiplier_bounds f sg ctx) as [Hm0 Hm1];
    set (filter_results := Filters.apply_all f sg ctx) in * end.
  destruct (Consolidated.passed filter_results); cbn [negb]; [| discriminate].
  pose proof (scaled_confidence_bounds _ _ Hc0 Hc1 Hm0 Hm1) as [Hs0 Hs1].
  match goal with |- context [_check_confluence ?sg now s] =>
    assert (Hsg : StrategicSignal.confidence sg =
                  py_min (p_confidence p * Consolidated.confidence_multiplier filter_results) 1.0)
      by (rewrite apply_filter_adjustments_confidence; reflexivity);
    set (filtered := sg) in * end.
  pose proof (check_confluence_config filtered now s) as Hcfg.
  destruct (_check_confluence filtered now s) as [confluence_result s1].
  cbn [snd] in Hcfg. rewrite Hcfg.
  destruct (status confluence_result); cbv beta iota zeta.
  - (* NO_CONFLICT: boost *)
    register_then ltac:(rewrite Hsg; apply boosted_confidence_bounds; assumption).
  - (* MINOR_CONFLICT: unchanged *)
    register_then ltac:(rewrite Hsg; split; assumption).
  - (* MAJOR_CONFLICT: penalty, then the 0.5 floor *)
    destruct (Qltb _ _); [discriminate |].
    register_then ltac:(rewrite Hsg; apply penalised_confidence_bounds; assumption).
Qed.

Lemma created_signal_confidence_in_unit_interval_witness :
  exists signal s',
    create_strategic_signal Samples.scenario "sig-1" 0 Samples.fresh_factory
    = Returned (Some signal) s' /\
    (0 <= StrategicSignal.confidence signal)%Q /\ (StrategicSignal.confidence signal <= 1)%Q.
Proof.
  assert (H : exists signal s',
             create_strategic_signal Samples.scenario "sig-1" 0 Samples.fresh_factory
             = Returned (Some signal) s') by (vm_compute; eauto).
  destruct H as (signal & s' & H). exists signal, s'. split; [exact H |].
  apply (created_signal_confidence_in_unit_interval
           Samples.scenario "sig-1" 0 Samples.fresh_factory signal s');
    [apply Qle_bool_iff; vm_compute; reflexivity .. | exact H].
Defined.

(** With no candidate waiting for the other symbol, the confluence step
    stores the new candidate and answers NO_CONFLICT. *)
Lemma check_confluence_empty_slot signal now s :
  pending_confluence s !! other_symbol_of (StrategicSignal.symbol signal) = None ->
  _check_confluence signal now s =
  (mkConfluence NO_CONFLICT WaitingPair,
   with_pending (<[StrategicSignal.symbol signal := mkSlot signal now]> (pending_confluence s)) s).
Proof. intros H. unfold _check_confluence. rewrite H. reflexivity. Qed.

(** C4, on the scenario of the specification: no candidate is waiting for
    DOL, the WDO candidate is stored as waiting and the signal is created, but
    its confidence is raised from 0.65 to 0.80 by the confluence boost, and
    the pairing is counted as a confluence match. *)
Theorem unresolved_pairing_is_boosted :
  let o := create_strategic_signal Samples.scenario "sig-1" 0 Samples.fresh_factory in
  pending_confluence Samples.fresh_factory !! "DOL" = None /\
  exists signal,
    returned o = Some (Some signal) /\
    StrategicSignal.state signal = PENDING /\
    StrategicSignal.conflict_status signal = NO_CONFLICT /\
    is_Some (pending_confluence (final_state o) !! "WDO") /\
    (StrategicSignal.confidence signal == 0.8)%Q /\
    ~ (StrategicSignal.confidence signal == 0.65)%Q /\
    confluence_matches (stats (final_state o)) = 1%Z.
Proof.
  intros o. vm_compute in o. subst o.
  split; [vm_compute; reflexivity |].
  eexists. split; [reflexivity |].
  split; [reflexivity |]. split; [reflexivity |].
  split; [vm_compute; eauto |].
  split; [reflexivity |].
  split; [intros H; vm_compute in H; discriminate H | reflexivity].
Qed.

Lemma fresh_age_not_timed_out cfg now slot :
  (0 <= timeout_seconds cfg < 86400)%Z ->
  (0 <= now - slot_timestamp slot < seconds (timeout_seconds cfg))%Z ->
  slot_timed_out cfg now slot = false.
Proof.
  unfold slot_timed_out, timedelta_seconds, seconds, usec_per_second.
  intros Ht Hage. apply Z.ltb_ge.
  rewrite Z.mod_small by lia.
  apply Z.lt_le_incl, Z.div_lt_upper_bound; lia.
Qed.

(** The sound half of C3: a candidate of the other symbol that has waited
    for less than the timeout is compared with the new one, its slot is the
    one slot removed, and the slot of the new candidate's own symbol is not
    written. *)
Lemma fresh_slot_is_consumed signal now s slot :
  let other := other_symbol_of (StrategicSignal.symbol signal) in
  pending_confluence s !! other = Some slot ->
  (0 <= timeout_seconds (confluence_config s) < 86400)%Z ->
  (0 <= now - slot_timestamp slot < seconds (timeout_seconds (confluence_config s)))%Z ->
  _check_confluence signal now s =
  (_analyze_confluence (confluence_config s) signal (slot_signal slot),
   with_pending (delete other (pending_confluence s)) s) /\
  other <> StrategicSignal.symbol signal.
Proof.
  intros other Hslot Ht Hage. split.
  - unfold _check_confluence. fold other. rewrite Hslot.
    rewrite (fresh_age_not_timed_out _ _ _ Ht Hage). reflexivity.
  - unfold other, other_symbol_of.
    destruct (String.eqb_spec (StrategicSignal.symbol signal) "WDO") as [-> | Hne];
      [discriminate | congruence].
Qed.

(** The other half of C3 holds for ages that are a whole number of seconds
    below one day: such a slot, older than the timeout, is discarded, the new
    candidate is stored and the unresolved NO_CONFLICT is returned. *)
Lemma whole_second_stale_slot_is_discarded signal now s slot k :
  let other := other_symbol_of (StrategicSignal.symbol signal) in
  pending_confluence s !! other = Some slot ->
  (now - slot_timestamp slot = seconds k)%Z ->
  (0 <= timeout_seconds (confluence_config s) < k)%Z -> (k < 86400)%Z ->
  _check_confluence signal now s =
  (mkConfluence NO_CONFLICT WaitingPair,
   with_pending (<[StrategicSignal.symbol signal := mkSlot signal now]>
                   (delete other (pending_confluence s))) s).
Proof.
  intros other Hslot Hage Ht Hk.
  unfold _check_confluence. fold other. rewrite Hslot.
  assert (Hout : slot_timed_out (confluence_config s) now slot = true).
  { unfold slot_timed_out, timedelta_seconds. rewrite Hage.
    unfold seconds, usec_per_second.
    rewrite Z.mod_small by lia. rewrite Z.div_mul by lia. apply Z.ltb_lt. lia. }
  rewrite Hout. reflexivity.
Qed.

(** C3, where the code departs from it.  A DOL candidate is stored at time 0
    and the pairing timeout is 10 s.  A WDO candidate arriving 10.5 s later, or
    1 day and 3 s later, finds it older than the timeout, yet it is compared
    with it (MAJOR_CONFLICT, the directions differ) and is not stored in its
    own slot: staleness is decided on [timedelta.seconds], which drops the
    fraction of a second and the whole days.  At 11 s the slot is treated as
    stale, as the claim says. *)
Theorem stale_slot_is_still_paired :
  let s := Samples.factory_with_dol_waiting in
  let half_past_ten := 10500000%Z in
  let next_day := (seconds 86400 + seconds 3)%Z in
  timeout_seconds (confluence_config s) = 10%Z /\
  (slot_timestamp <$> pending_confluence s !! "DOL") = Some 0%Z /\
  (seconds 10 < half_past_ten - 0)%Z /\
  status (fst (_check_confluence (Samples.wdo_candidate half_past_ten) half_past_ten s))
    = MAJOR_CONFLICT /\
  pending_confluence (snd (_check_confluence (Samples.wdo_candidate half_past_ten)
                             half_past_ten s)) !! "WDO" = None /\
  (seconds 10 < next_day - 0)%Z /\
  status (fst (_check_confluence (Samples.wdo_candidate next_day) next_day s))
    = MAJOR_CONFLICT /\
  pending_confluence (snd (_check_confluence (Samples.wdo_candidate next_day)
                             next_day s)) !! "WDO" = None /\
  _check_confluence (Samples.wdo_candidate (seconds 11)) (seconds 11) s
  = (mkConfluence NO_CONFLICT WaitingPair,
     with_pending {[ "WDO" := mkSlot (Samples.wdo_candidate (seconds 11)) (seconds 11) ]} s).
Proof.
  cbv zeta. repeat match goal with |- _ /\ _ => split end; vm_compute; reflexivity.
Qed.

End FactoryProperties.

(** ** Position tracker *)

Section PositionProperties.
Import Positions.

(** *** The dict of open positions *)

Lemma length_dict_set p d : (length (dict_set p d) <= S (length d))%nat.
Proof.
  induction d as [| q d IH]; cbn; [lia |].
  destruct (Position.id q =? Position.id p); cbn; lia.
Qed.

Lemma length_dict_del key d : (length (dict_del key d) <= length d)%nat.
Proof. apply length_filter. Qed.

Lemma length_dict_mutate p d : length (dict_mutate p d) = length d.
Proof. apply length_map. Qed.

Lemma dict_get_id key d p : dict_get key d = Some p -> Position.id p = key.
Proof.
  induction d as [| q d IH]; cbn; [discriminate |].
  destruct (String.eqb_spec (Position.id q) key) as [Heq | _]; [| exact IH].
  intros [= <-]. exact Heq.
Qed.

Lemma dict_get_del_eq key d : dict_get key (dict_del key d) = None.
Proof.
  unfold dict_del. induction d as [| q d IH]; [reflexivity |].
  rewrite filter_cons. destruct (decide (Position.id q <> key)) as [Hne | _]; [| exact IH].
  cbn. destruct (String.eqb_spec (Position.id q) key); [contradiction | exact IH].
Qed.

Lemma dict_get_del_ne key other d :
  other <> key -> dict_get other (dict_del key d) = dict_get other d.
Proof.
  intros Hne. unfold dict_del. induction d as [| q d IH]; [reflexivity |].
  rewrite filter_cons. destruct (decide (Position.id q <> key)) as [Hq | Hq]; cbn.
  - destruct (Position.id q =? other); [reflexivity | exact IH].
  - destruct (String.eqb_spec (Position.id q) other) as [Heq | _]; [| exact IH].
    exfalso. apply Hq. congruence.
Qed.

Lemma dict_get_mutate_ne p other d :
  other <> Position.id p -> dict_get other (dict_mutate p d) = dict_get other d.
Proof.
  intros Hne. induction d as [| q d IH]; [reflexivity |]. cbn.
  destruct (String.eqb_spec (Position.id q) (Position.id p)) as [Heq | _].
  - destruct (String.eqb_spec (Position.id p) other) as [Hp | _]; [congruence |].
    destruct (String.eqb_spec (Position.id q) other) as [Hq | _]; [congruence | exact IH].
  - destruct (Position.id q =? other); [reflexivity | exact IH].
Qed.

Lemma dict_get_mutate_eq p d :
  is_Some (dict_get (Position.id p) d) ->
  dict_get (Position.id p) (dict_mutate p d) = Some p.
Proof.
  induction d as [| q d IH]; cbn; [intros [? [=]] |].
  destruct (String.eqb_spec (Position.id q) (Position.id p)) as [Heq | Hne]; cbn.
  - intros _. rewrite String.eqb_refl. reflexivity.
  - destruct (String.eqb_spec (Position.id q) (Position.id p)); [contradiction | exact IH].
Qed.

Lemma dict_get_middle pre p post :
  is_Some (dict_get (Position.id p) (pre ++ p :: post)).
Proof.
  induction pre as [| q pre IH]; cbn.
  - rewrite String.eqb_refl. eauto.
  - destruct (Position.id q =? Position.id p); [eauto | exact IH].
Qed.

(** *** The ceiling *)

Lemma no_growth_refl m : no_growth m m.
Proof. split; [reflexivity | lia]. Qed.

Lemma no_growth_trans m1 m2 m3 : no_growth m1 m2 -> no_growth m2 m3 -> no_growth m1 m3.
Proof. intros [H1 H2] [H3 H4]. split; [congruence | lia]. Qed.

Lemma no_growth_mutate p m : no_growth m (with_positions (dict_mutate p (positions m)) m).
Proof. split; [reflexivity |]. cbn. rewrite length_dict_mutate. lia. Qed.

Lemma close_position_no_growth position reason exit_price now m :
  no_growth m (final_state (_close_position position reason exit_price now m)).
Proof.
  unfold _close_position.
  destruct (Position.update_price exit_price _) as [[] p | e p]; cbn [final_state].
  - destruct (dict_get (Position.id p) (positions m)); cbn [final_state];
      [| apply no_growth_refl].
    split.
    + cbn. destruct (_ !! _); reflexivity.
    + cbn. destruct (_ !! _); cbn; apply length_dict_del.
  - apply no_growth_mutate.
Qed.

Lemma warn_positions_no_growth todo symbol direction warning now m :
  no_growth m (final_state (warn_positions todo symbol direction warning now m)).
Proof.
  revert m. induction todo as [| p todo IH]; intros m; cbn [warn_positions];
    [apply no_growth_refl |].
  destruct (_ && _); [| apply IH].
  set (m1 := with_positions _ m).
  assert (H1 : no_growth m m1) by apply no_growth_mutate.
  destruct (_ && auto_manage m1).
  - pose proof (close_position_no_growth (Position.add_warning warning p) "MULTIPLE_WARNINGS"
                  (Position.current_price (Position.add_warning warning p)) now m1) as H2.
    destruct (_close_position _ _ _ _ m1); cbn [final_state] in *;
      exact (no_growth_trans _ _ _ H1 H2).
  - exact (no_growth_trans _ _ _ H1 (IH m1)).
Qed.

Lemma check_positions_no_growth todo current_price now m :
  no_growth m (final_state (check_positions todo current_price now m)).
Proof.
  revert m. induction todo as [| p todo IH]; intros m; cbn [check_positions];
    [apply no_growth_refl |].
  destruct (Position.update_price (Some current_price) p) as [[] p1 | e p1];
    cbn [final_state]; [| apply no_growth_mutate].
  set (m1 := with_positions _ m).
  assert (H1 : no_growth m m1) by apply no_growth_mutate.
  destruct (Position.should_stop p1) as [[|] |]; cbn [final_state]; [| | exact H1].
  - pose proof (close_position_no_growth p1 "STOP_LOSS" (Some current_price) now m1) as H2.
    destruct (_close_position _ _ _ _ m1) as [[] m2 | e m2]; cbn [final_state] in *.
    + exact (no_growth_trans _ _ _ (no_growth_trans _ _ _ H1 H2) (IH m2)).
    + exact (no_growth_trans _ _ _ H1 H2).
  - destruct (Position.check_targets p1) as [[i |] |]; cbn [final_state]; [| | exact H1].
    + pose proof (close_position_no_growth p1 ("TARGET_" ++ pretty (i + 1)%nat)%string
                    (Some current_price) now m1) as H2.
      destruct (_close_position _ _ _ _ m1) as [[] m2 | e m2]; cbn [final_state] in *.
      * exact (no_growth_trans _ _ _ (no_growth_trans _ _ _ H1 H2) (IH m2)).
      * exact (no_growth_trans _ _ _ H1 H2).
    + eapply no_growth_trans; [| apply IH].
      destruct (_ && _); [| exact H1].
      exact (no_growth_trans _ _ _ H1 (no_growth_mutate _ m1)).
Qed.

Lemma update_symbols_no_growth todo now m :
  no_growth m (final_state (update_symbols todo now m)).
Proof.
  revert m. induction todo as [| d todo IH]; intros m; cbn [update_symbols];
    [apply no_growth_refl |].
  destruct (MarketSymbolData.trades d) as [| first trades]; [apply IH |].
  match goal with |- context [check_positions ?t ?c now m] =>
    pose proof (check_positions_no_growth t c now m) as H1;
    destruct (check_positions t c now m) as [[] m1 | e m1] end; cbn [final_state] in *.
  - exact (no_growth_trans _ _ _ H1 (IH m1)).
  - exact H1.
Qed.

Lemma close_each_no_growth todo reason now m :
  no_growth m (final_state (close_each todo reason now m)).
Proof.
  revert m. induction todo as [| p todo IH]; intros m; cbn [close_each];
    [apply no_growth_refl |].
  pose proof (close_position_no_growth p reason (Position.current_price p) now m) as H1.
  destruct (_close_position _ _ _ _ m) as [[] m1 | e m1]; cbn [final_state] in *.
  - exact (no_growth_trans _ _ _ H1 (IH m1)).
  - exact H1.
Qed.

Lemma no_growth_within_ceiling m m' : no_growth m m' -> within_ceiling m -> within_ceiling m'.
Proof. unfold within_ceiling. intros [H1 H2] H. rewrite H1. lia. Qed.

Lemma open_position_within_ceiling signal now stamp m :
  within_ceiling m ->
  within_ceiling (_open_position signal now stamp m) /\
  max_positions (_open_position signal now stamp m) = max_positions m.
Proof.
  unfold within_ceiling, _open_position, can_open_position. intros H.
  destruct (Z.ltb_spec (Z.of_nat (length (positions m))) (max_positions m)) as [Hlt | _];
    cbn [negb]; [| split; [exact H | reflexivity]].
  split; [| reflexivity]. cbn.
  match goal with |- context [dict_set ?p ?d] => pose proof (length_dict_set p d) end.
  lia.
Qed.

Lemma handle_within_ceiling d now stamp m :
  within_ceiling m ->
  within_ceiling (final_state (handle d now stamp m)) /\
  max_positions (final_state (handle d now stamp m)) = max_positions m.
Proof.
  intros H.
  assert (Hng : forall m', no_growth m m' ->
                           within_ceiling m' /\ max_positions m' = max_positions m).
  { intros m' Hm'. split; [exact (no_growth_within_ceiling _ _ Hm' H) | apply Hm']. }
  destruct d as [data | signal | signal | symbol | market_data | breaker new_state];
    cbn [handle].
  - unfold _handle_signal_state_changed.
    destruct (sc_signal data) as [signal |]; [| apply Hng, no_growth_refl].
    destruct (_ && _); [apply open_position_within_ceiling, H |].
    destruct (_ !! _) as [pid |]; [| apply Hng, no_growth_refl].
    destruct (dict_get pid (positions m)) as [p |]; [| apply Hng, no_growth_refl].
    destruct (sc_new_state data);
      try (apply Hng, no_growth_refl); apply Hng, close_position_no_growth.
  - unfold _handle_signal_expired.
    destruct signal as [signal |]; [| apply Hng, no_growth_refl].
    destruct (_ !! _) as [pid |]; [| apply Hng, no_growth_refl].
    destruct (dict_get pid (positions m)) as [p |]; [| apply Hng, no_growth_refl].
    destruct (Qltb _ _); [apply Hng, close_position_no_growth | apply Hng, no_growth_refl].
  - unfold _handle_divergence_warning.
    destruct (divergence_event _); [| apply Hng, no_growth_refl].
    apply Hng, warn_positions_no_growth.
  - unfold _handle_manipulation_warning.
    destruct symbol as [symbol |]; [| apply Hng, no_growth_refl].
    destruct (symbol =? ""); [apply Hng, no_growth_refl |].
    apply Hng. split; [reflexivity |]. cbn. rewrite length_map. lia.
  - apply Hng, update_symbols_no_growth.
  - unfold _handle_risk_override.
    destruct (_ && _); [| apply Hng, no_growth_refl].
    apply Hng, close_each_no_growth.
Qed.

(** C7. From the empty manager of any configuration whose ceiling is not
    negative, after any sequence of deliveries (each handled to its end or
    to the exception the bus catches) the number of open positions is at most
    [max_positions]; and a signal reported EXECUTED while the ceiling is
    reached opens nothing and leaves the manager, position map included, as
    it was. *)
Theorem open_positions_never_exceed_ceiling :
  forall cfg,
    (0 <= max_positions (init cfg))%Z ->
    (forall ds,
        (Z.of_nat (length (positions (deliver_all ds (init cfg))))
         <= max_positions (init cfg))%Z) /\
    (forall m data now stamp,
        sc_new_state data = EXECUTED ->
        can_open_position m = false ->
        _handle_signal_state_changed data now stamp m = Returned tt m).
Proof.
  intros cfg Hmax. split.
  - assert (Hall : forall ds m, within_ceiling m ->
               within_ceiling (deliver_all ds m) /\
               max_positions (deliver_all ds m) = max_positions m).
    { induction ds as [| [[d now] stamp] ds IH]; intros m Hm; cbn [deliver_all];
        [split; [exact Hm | reflexivity] |].
      destruct (handle_within_ceiling d now stamp m Hm) as [H1 H2].
      destruct (IH _ H1) as [H3 H4]. split; [exact H3 | congruence]. }
    intros ds. destruct (Hall ds (init cfg)) as [H1 H2].
    + unfold within_ceiling. cbn [positions init length]. exact Hmax.
    + unfold within_ceiling in H1. rewrite H2 in H1. exact H1.
  - intros m data now stamp Hstate Hfull. unfold _handle_signal_state_changed.
    rewrite Hfull, Hstate, andb_false_r.
    destruct (sc_signal data); [| reflexivity].
    destruct (_ !! _) as [pid |]; [| reflexivity].
    destruct (dict_get pid (positions m)); reflexivity.
Qed.

Lemma open_positions_never_exceed_ceiling_witness :
  (0 <= max_positions (init Samples.one_position_only))%Z /\
  (Z.of_nat (length (positions (deliver_all Samples.two_executions
                                  (init Samples.one_position_only))))
   <= max_positions (init Samples.one_position_only))%Z.
Proof.
  assert (H : (0 <= max_positions (init Samples.one_position_only))%Z)
    by (vm_compute; discriminate).
  split; [exact H |].
  apply (proj1 (open_positions_never_exceed_ceiling Samples.one_position_only H)).
Defined.

(** *** Closing a position *)

Lemma last_deque_append {A} n (d : list A) x : last (deque_append (S n) d x) = Some x.
Proof.
  unfold deque_append. rewrite drop_app_le by (rewrite length_app; cbn; lia).
  apply last_snoc.
Qed.

Lemma close_position_at_price position reason price now m :
  is_Some (dict_get (Position.id position) (positions m)) ->
  exists m',
    _close_position position reason (Some price) now m = Returned tt m' /\
    positions m' = dict_del (Position.id position) (positions m) /\
    last (closed_positions m') = Some (closed_at position reason price now) /\
    last (events m') = Some (POSITION_CLOSED (closed_at position reason price now) reason
                               (Position.pnl (closed_at position reason price now))) /\
    max_positions m' = max_positions m /\ auto_manage m' = auto_manage m.
Proof.
  intros [q Hq]. unfold _close_position. cbn [Position.update_price].
  cbn [Position.id Position.set_pnl Position.set_current_price Position.set_exit].
  rewrite Hq. eexists. split; [reflexivity |].
  split; [destruct (_ !! _); reflexivity |].
  split; [destruct (_ !! _); cbn; apply last_deque_append |].
  split; [cbn; apply last_snoc |].
  split; destruct (_ !! _); reflexivity.
Qed.

(** C8. On a signal-expired event whose signal is linked to an open position
    (the signal id maps to a position id that is in the position map): when
    the running P&L of the position is strictly negative the position is
    closed, at its current price and with reason SIGNAL_EXPIRED, i.e. it
    leaves the map, is appended to the closed history and POSITION_CLOSED is
    published; when the P&L is not negative the manager is left exactly as it
    was. *)
Theorem expired_signal_closes_losing_position :
  forall m signal now position_id position price,
    signal_to_position m !! StrategicSignal.id signal = Some position_id ->
    dict_get position_id (positions m) = Some position ->
    Position.current_price position = Some price ->
    ((Position.pnl position < 0)%Q ->
     exists m' closed,
       _handle_signal_expired (Some signal) now m = Returned tt m' /\
       dict_get position_id (positions m') = None /\
       last (closed_positions m') = Some closed /\
       Position.id closed = position_id /\
       Position.exit_reason closed = Some "SIGNAL_EXPIRED" /\
       Position.exit_price closed = Some price /\
       Position.exit_time closed = Some now /\
       Position.status closed = "CLOSED" /\
       last (events m') = Some (POSITION_CLOSED closed "SIGNAL_EXPIRED" (Position.pnl closed)))
    /\
    (~ (Position.pnl position < 0)%Q ->
     _handle_signal_expired (Some signal) now m = Returned tt m).
Proof.
  intros m signal now position_id position price Hlink Hopen Hprice.
  pose proof (dict_get_id _ _ _ Hopen) as Hid.
  unfold _handle_signal_expired. rewrite Hlink, Hopen, Hprice. split.
  - intros Hloss. apply Qltb_true in Hloss. rewrite Hloss.
    destruct (close_position_at_price position "SIGNAL_EXPIRED" price now m)
      as (m' & Hclose & Hpos & Hclosed & Hevents & _).
    { rewrite Hid, Hopen. eauto. }
    exists m', (closed_at position "SIGNAL_EXPIRED" price now).
    split; [exact Hclose |].
    split; [rewrite Hpos, Hid; apply dict_get_del_eq |].
    split; [exact Hclosed |].
    split; [exact Hid |].
    repeat (split; [reflexivity |]). exact Hevents.
  - intros Hnot. destruct (Qltb (Position.pnl position) 0) eqn:E; [| reflexivity].
    apply Qltb_true in E. contradiction.
Qed.

Lemma expired_signal_closes_losing_position_witness :
  exists m' closed,
    _handle_signal_expired (Some Samples.wdo_buy) (seconds 60) Samples.manager_losing
    = Returned tt m' /\
    dict_get "POS_WDO_20240102_100000" (positions m') = None /\
    Position.exit_reason closed = Some "SIGNAL_EXPIRED" /\
    Position.exit_price closed = Some 4995%Q.
Proof.
  assert (Hlink : signal_to_position Samples.manager_losing
                    !! StrategicSignal.id Samples.wdo_buy = Some "POS_WDO_20240102_100000")
    by (vm_compute; reflexivity).
  assert (Hopen : dict_get "POS_WDO_20240102_100000" (positions Samples.manager_losing)
                  = Some Samples.losing_position) by (vm_compute; reflexivity).
  assert (Hprice : Position.current_price Samples.losing_position = Some 4995%Q)
    by (vm_compute; reflexivity).
  assert (Hloss : (Position.pnl Samples.losing_position < 0)%Q)
    by (vm_compute; reflexivity).
  destruct (proj1 (expired_signal_closes_losing_position Samples.manager_losing
                     Samples.wdo_buy (seconds 60) _ _ _ Hlink Hopen Hprice) Hloss)
    as (m' & closed & H1 & H2 & _ & _ & H3 & H4 & _).
  exists m', closed. repeat split; assumption.
Defined.


(** *** Divergence warnings *)

Lemma update_price_id price p :
  Position.id (final_state (Position.update_price price p)) = Position.id p.
Proof. destruct price; reflexivity. Qed.

Lemma close_position_other position reason exit_price now m key :
  key <> Position.id position ->
  dict_get key (positions (final_state (_close_position position reason exit_price now m)))
  = dict_get key (positions m).
Proof.
  intros Hne. unfold _close_position.
  match goal with |- context [Position.update_price exit_price ?q] =>
    pose proof (update_price_id exit_price q) as Hid;
    destruct (Position.update_price exit_price q) as [[] p | e p] end;
    cbn [final_state Position.id Position.set_exit] in *.
  - destruct (dict_get (Position.id p) (positions m)); cbn [final_state]; [| reflexivity].
    destruct (_ !! _); cbn; apply dict_get_del_ne; congruence.
  - cbn. apply dict_get_mutate_ne. congruence.
Qed.

Lemma warn_positions_other todo symbol direction warning now key :
  forall m,
    key ∉ map Position.id todo ->
    dict_get key (positions (final_state (warn_positions todo symbol direction warning now m)))
    = dict_get key (positions m).
Proof.
  induction todo as [| p todo IH]; intros m Hkey; cbn [warn_positions final_state];
    [reflexivity |].
  cbn [map] in Hkey. apply not_elem_of_cons in Hkey as [Hp Htodo].
  destruct (_ && _); [| apply IH, Htodo].
  set (m1 := with_positions _ m).
  assert (H1 : dict_get key (positions m1) = dict_get key (positions m))
    by (apply dict_get_mutate_ne; exact Hp).
  destruct (_ && auto_manage m1).
  - pose proof (close_position_other (Position.add_warning warning p) "MULTIPLE_WARNINGS"
                  (Position.current_price (Position.add_warning warning p)) now m1 key Hp) as H2.
    destruct (_close_position _ _ _ _ m1); cbn [final_state] in *; congruence.
  - rewrite (IH m1 Htodo). exact H1.
Qed.

(** The loop passes over positions it does not target and over targeted
    positions that had no warning yet, which it only marks. *)
Lemma warn_positions_pass symbol direction warning now pre rest :
  forall m,
    Forall (fun p => (Position.symbol p =? symbol) && (Position.direction p =? direction) = true ->
                     Position.warnings_received p = []) pre ->
    exists m1,
      warn_positions (pre ++ rest) symbol direction warning now m
      = warn_positions rest symbol direction warning now m1 /\
      auto_manage m1 = auto_manage m /\
      (forall key, key ∉ map Position.id pre ->
                   dict_get key (positions m1) = dict_get key (positions m)).
Proof.
  induction pre as [| p pre IH]; intros m Hpre; cbn [app warn_positions].
  - exists m. repeat split; reflexivity.
  - apply Forall_cons in Hpre as [Hp Hpre].
    destruct (_ && _) eqn:Hagainst.
    + pose proof (Hp eq_refl) as Hnone.
      cbn [Position.add_warning Position.warnings_received]. rewrite Hnone.
      cbn [app length Nat.leb andb].
      set (m0 := with_positions _ m).
      destruct (IH m0 Hpre) as (m1 & Heq & Hauto & Hget).
      exists m1. split; [exact Heq |]. split; [exact Hauto |].
      intros key Hkey. cbn [map] in Hkey. apply not_elem_of_cons in Hkey as [Hk Hkeys].
      rewrite (Hget key Hkeys). apply dict_get_mutate_ne. exact Hk.
    + destruct (IH m Hpre) as (m1 & Heq & Hauto & Hget).
      exists m1. split; [exact Heq |]. split; [exact Hauto |].
      intros key Hkey. cbn [map] in Hkey. apply not_elem_of_cons in Hkey as [_ Hkeys].
      apply Hget, Hkeys.
Qed.

(** C9, as stated, fails: a position that has received one manipulation
    warning is closed with MULTIPLE_WARNINGS by the first divergence warning
    against its direction. *)
Lemma first_divergence_warning_can_close :
  let m := Samples.manager_after_manipulation_warning in
  let o := _handle_divergence_warning Samples.bearish_wdo (seconds 30) m in
  auto_manage m = true /\
  map Position.warnings_received (positions m) = [["MANIPULATION_RISK"]] /\
  map Position.direction (positions m) = ["COMPRA"] /\
  positions (final_state o) = [] /\
  map Position.exit_reason (closed_positions (final_state o)) = [Some "MULTIPLE_WARNINGS"] /\
  map Position.warnings_received (closed_positions (final_state o))
  = [["MANIPULATION_RISK"; "DIVERGENCE_BEARISH"]].
Proof.
  intros m o. vm_compute in o. subst o m.
  repeat match goal with |- _ /\ _ => split end; vm_compute; reflexivity.
Qed.

Lemma dict_get_first pre p post :
  Position.id p ∉ map Position.id pre ->
  dict_get (Position.id p) (pre ++ p :: post) = Some p.
Proof.
  induction pre as [| q pre IH]; intros Hnot; cbn.
  - rewrite String.eqb_refl. reflexivity.
  - cbn [map] in Hnot. apply not_elem_of_cons in Hnot as [Hne Hnot].
    destruct (String.eqb_spec (Position.id q) (Position.id p)); [congruence |].
    apply IH, Hnot.
Qed.

Lemma warn_positions_app symbol direction warning now pre rest :
  forall m,
    warn_positions (pre ++ rest) symbol direction warning now m
    = match warn_positions pre symbol direction warning now m with
      | Returned _ m1 => warn_positions rest symbol direction warning now m1
      | Raised e m1 => Raised e m1
      end.
Proof.
  induction pre as [| p pre IH]; intros m; cbn [app warn_positions]; [reflexivity |].
  destruct (_ && _); [| apply IH].
  destruct (_ && _); [| apply IH].
  destruct (_close_position _ _ _ _ _); reflexivity.
Qed.

(** C9, amended. With auto-management on, a divergence warning is handed to
    the open positions in the order of the position dict, and it is appended
    to the list of received warnings of each position it reaches against
    whose direction it goes; manipulation warnings are in that list as well.
    A position for which it is the first warning of any kind is never closed
    by it.  A position that the loop reaches (every targeted position before
    it in the dict had no warning yet) stays open with that one warning if
    its list was empty, and is closed at its current price with reason
    MULTIPLE_WARNINGS if it already held a warning of any kind.  What the
    delivery does to the positions after one it has closed is not stated. *)
Theorem divergence_warning_closes_at_second_warning :
  forall m signal event now pre position post price,
    auto_manage m = true ->
    divergence_event (Signal.details signal) = Some event ->
    let symbol := div_symbol event in
    let direction := if div_direction event =? "BULLISH" then "VENDA" else "COMPRA" in
    let against p := (Position.symbol p =? symbol) && (Position.direction p =? direction) in
    let warned := Position.add_warning ("DIVERGENCE_" ++ div_direction event)%string position in
    let m' := final_state (_handle_divergence_warning signal now m) in
    positions m = pre ++ position :: post ->
    NoDup (map Position.id (positions m)) ->
    against position = true ->
    Position.current_price position = Some price ->
    (Position.warnings_received position = [] ->
     dict_get (Position.id position) (positions m') = Some position \/
     dict_get (Position.id position) (positions m') = Some warned) /\
    (Forall (fun p => against p = true -> Position.warnings_received p = []) pre ->
     (Position.warnings_received position = [] ->
      dict_get (Position.id position) (positions m') = Some warned) /\
     (Position.warnings_received position <> [] ->
      dict_get (Position.id position) (positions m') = None /\
      last (closed_positions m') = Some (closed_at warned "MULTIPLE_WARNINGS" price now) /\
      Position.exit_reason (closed_at warned "MULTIPLE_WARNINGS" price now)
      = Some "MULTIPLE_WARNINGS" /\
      Position.exit_price (closed_at warned "MULTIPLE_WARNINGS" price now) = Some price)).
Proof.
  intros m signal event now pre position post price Hauto Hevent
         symbol direction against warned m' Hpositions Hnodup Hagainst Hprice.
  subst m'. unfold _handle_divergence_warning. rewrite Hevent. fold symbol direction.
  set (warning := ("DIVERGENCE_" ++ div_direction event)%string) in *.
  rewrite Hpositions in Hnodup |- *.
  rewrite map_app in Hnodup. cbn [map] in Hnodup.
  apply NoDup_app in Hnodup as (_ & Hdisjoint & Hrest).
  apply NoDup_cons in Hrest as [Hpost _].
  assert (Hnotpre : Position.id position ∉ map Position.id pre).
  { intros Hin. apply (Hdisjoint _ Hin). left. }
  assert (Hstart : dict_get (Position.id position) (positions m) = Some position)
    by (rewrite Hpositions; apply dict_get_first, Hnotpre).
  (* what the loop does once it is at [position], from a manager that still
     holds it as it was *)
  assert (Hat : forall m1,
             auto_manage m1 = true ->
             dict_get (Position.id position) (positions m1) = Some position ->
             let o := final_state (warn_positions (position :: post) symbol direction
                                     warning now m1) in
             (Position.warnings_received position = [] ->
              dict_get (Position.id position) (positions o) = Some warned) /\
             (Position.warnings_received position <> [] ->
              dict_get (Position.id position) (positions o) = None /\
              last (closed_positions o)
              = Some (closed_at warned "MULTIPLE_WARNINGS" price now))).
  { intros m1 Hauto1 Hget o. subst o. cbn [warn_positions]. fold (against position).
    rewrite Hagainst. fold warned.
    set (m2 := with_positions (dict_mutate warned (positions m1)) m1).
    assert (Hthere : dict_get (Position.id position) (positions m2) = Some warned).
    { apply (dict_get_mutate_eq warned).
      change (Position.id warned) with (Position.id position). rewrite Hget. eauto. }
    split.
    - intros Hnone.
      assert (Hlen : (2 <=? length (Position.warnings_received warned))%nat = false).
      { unfold warned. cbn [Position.add_warning Position.warnings_received].
        rewrite Hnone. reflexivity. }
      rewrite Hlen. cbn [andb].
      rewrite (warn_positions_other post _ _ _ _ _ m2 Hpost). exact Hthere.
    - intros Hsome.
      assert (Hlen : (2 <=? length (Position.warnings_received warned))%nat = true).
      { unfold warned. cbn [Position.add_warning Position.warnings_received].
        rewrite length_app. destruct (Position.warnings_received position); [congruence |].
        cbn [length]. rewrite Nat.add_1_r. reflexivity. }
      rewrite Hlen. change (auto_manage m2) with (auto_manage m1). rewrite Hauto1.
      cbn [andb]. change (Position.current_price warned) with (Position.current_price position).
      rewrite Hprice.
      destruct (close_position_at_price warned "MULTIPLE_WARNINGS" price now m2)
        as (m3 & Hclose & Hpos & Hclosed & _).
      { change (Position.id warned) with (Position.id position). rewrite Hthere. eauto. }
      rewrite Hclose. cbn [final_state].
      split; [rewrite Hpos; apply dict_get_del_eq | exact Hclosed]. }
  split.
  - (* the first warning of any kind never closes *)
    intros Hnone. rewrite warn_positions_app.
    pose proof (warn_positions_other pre symbol direction warning now
                  (Position.id position) m Hnotpre) as Hkept.
    destruct (warn_positions pre symbol direction warning now m) as [[] m1 | e m1] eqn:Hpre;
      cbn [final_state] in Hkept.
    + right. apply (Hat m1); [| congruence | exact Hnone].
      clear - Hpre Hauto. revert m Hpre Hauto.
      induction pre as [| p pre IH]; intros m Hpre Hauto; cbn [warn_positions] in Hpre.
      * injection Hpre as <-. exact Hauto.
      * destruct (_ && _); [| exact (IH _ Hpre Hauto)].
        destruct (_ && _); [destruct (_close_position _ _ _ _ _); discriminate Hpre |].
        exact (IH _ Hpre Hauto).
    + left. cbn [final_state]. congruence.
  - intros Hpre.
    destruct (warn_positions_pass symbol direction warning now pre (position :: post) m Hpre)
      as (m1 & Heq & Hauto1 & Hget).
    rewrite Heq.
    destruct (Hat m1) as [Hfirst Hsecond];
      [congruence | rewrite (Hget _ Hnotpre); exact Hstart |].
    split; [exact Hfirst |].
    intros Hsome. destruct (Hsecond Hsome) as [Hgone Hlast].
    split; [exact Hgone |]. split; [exact Hlast |]. split; reflexivity.
Qed.

Lemma divergence_warning_closes_at_second_warning_witness :
  let m' := final_state (_handle_divergence_warning Samples.bearish_wdo (seconds 30)
                           Samples.manager_after_manipulation_warning) in
  dict_get "POS_WDO_20240102_100000" (positions m') = None /\
  (Position.exit_reason <$> last (closed_positions m')) = Some (Some "MULTIPLE_WARNINGS").
Proof.
  destruct (divergence_warning_closes_at_second_warning
              Samples.manager_after_manipulation_warning Samples.bearish_wdo
              (mkDivergenceEvent "WDO" "BEARISH") (seconds 30)
              [] Samples.warned_position [] 5000%Q) as [_ H].
  - vm_compute; reflexivity.
  - vm_compute; reflexivity.
  - vm_compute; reflexivity.
  - vm_compute. repeat constructor. intros Hin. inversion Hin.
  - vm_compute; reflexivity.
  - vm_compute; reflexivity.
  - destruct (H ltac:(constructor)) as [_ H2].
    destruct H2 as (H1 & H3 & _); [vm_compute; discriminate |].
    intros m'. subst m'. split; [exact H1 |]. rewrite H3. reflexivity.
Defined.

End PositionProperties.

(** * Further properties of the modelled code *)

(** ** Signal lifecycle manager, continued *)

Section LifecycleMoreProperties.
Import Lifecycle LifecycleSweep.

Lemma valid_transition_advances from_state to_state :
  _is_valid_transition from_state to_state = true ->
  (stage from_state < stage to_state)%nat.
Proof. destruct from_state, to_state; vm_compute; intros H; (discriminate H || lia). Qed.

(** X1. The transition table has no cycle: starting from any state, a chain of
    permitted transitions has at most three steps, and from PENDING a chain of
    three steps ends in STOPPED or TARGET_HIT. *)
Theorem permitted_chain_at_most_three_steps :
  forall from_state steps,
    permitted_chain from_state steps = true ->
    (length steps + stage from_state <= 3)%nat /\
    (from_state = PENDING -> length steps = 3%nat ->
     last steps = Some STOPPED \/ last steps = Some TARGET_HIT).
Proof.
  intros from_state steps H. split.
  - revert from_state H. induction steps as [| to_state rest IH]; intros from_state H; cbn.
    + destruct from_state; cbn; lia.
    + cbn in H. apply andb_prop in H as [Hstep Hrest].
      apply valid_transition_advances in Hstep. specialize (IH _ Hrest). lia.
  - intros -> Hlen.
    destruct steps as [| s1 [| s2 [| s3 [| ? ?]]]]; try discriminate Hlen.
    revert H. destruct s1, s2, s3; vm_compute; intros H; try discriminate H; auto.
Qed.

Lemma permitted_chain_at_most_three_steps_witness :
  (length [ACTIVE; EXECUTED; TARGET_HIT] + stage PENDING <= 3)%nat.
Proof.
  apply (permitted_chain_at_most_three_steps PENDING [ACTIVE; EXECUTED; TARGET_HIT]).
  reflexivity.
Defined.

Lemma run_callbacks_history handles signal m :
  signal_history (run_callbacks handles signal m) = signal_history m.
Proof.
  unfold run_callbacks. revert m.
  induction handles as [| h handles IH]; intros m; cbn; [reflexivity |].
  rewrite IH. reflexivity.
Qed.

(** What a permitted transition does to the active map and to the history. *)
Lemma transition_state_success m signal_id new_state kw now s :
  StrategicSignal.id s = signal_id ->
  active_signals m !! signal_id = Some s ->
  _is_valid_transition (StrategicSignal.state s) new_state = true ->
  exists m',
    transition_state signal_id new_state kw now m = Returned true m' /\
    active_signals m' =
      (if is_final new_state then delete signal_id (active_signals m)
       else <[signal_id := StrategicSignal.update_state new_state kw now s]> (active_signals m)) /\
    signal_history m' =
      (if is_final new_state
       then deque_append 100 (signal_history m) (StrategicSignal.update_state new_state kw now s)
       else signal_history m).
Proof.
  intros Hkeyed Hlook Hvalid. unfold transition_state. rewrite Hlook, Hvalid. cbn [negb].
  destruct (is_final new_state).
  - unfold _archive_signal. cbn [active_signals with_history with_stats].
    rewrite run_callbacks_active. cbn [active_signals emit with_active].
    rewrite update_state_id, Hkeyed, lookup_insert_eq.
    eexists. split; [reflexivity |].
    cbn [active_signals signal_history with_active with_history with_stats].
    rewrite run_callbacks_history.
    cbn [active_signals signal_history emit with_active].
    rewrite delete_insert_eq. split; reflexivity.
  - eexists. split; [reflexivity |].
    cbn [active_signals signal_history with_active with_history with_stats].
    rewrite run_callbacks_active, run_callbacks_history.
    cbn [active_signals signal_history emit with_active]. split; reflexivity.
Qed.

(** A refused transition returns false and the manager as it was. *)
Lemma transition_state_refused m signal_id new_state kw now :
  from_option (fun s => _is_valid_transition (StrategicSignal.state s) new_state) false
    (active_signals m !! signal_id) = false ->
  transition_state signal_id new_state kw now m = Returned false m.
Proof.
  unfold transition_state. destruct (active_signals m !! signal_id) as [s |]; cbn.
  - intros ->. reflexivity.
  - reflexivity.
Qed.

Lemma length_deque_append {A} n (d : list A) x :
  (length (deque_append n d x) <= n)%nat.
Proof. unfold deque_append. rewrite length_drop. lia. Qed.

Lemma due_is_valid now s :
  due now s = true -> _is_valid_transition (StrategicSignal.state s) EXPIRED = true.
Proof.
  unfold due. intros H. apply andb_prop in H as [_ H].
  apply bool_decide_eq_true in H.
  destruct (StrategicSignal.state s); try reflexivity; exfalso;
    repeat (apply elem_of_cons in H as [H | H]; [discriminate H |]); inversion H.
Qed.

Lemma run_callbacks_effects handles signal m e :
  e ∈ effects m -> e ∈ effects (run_callbacks handles signal m).
Proof.
  unfold run_callbacks. revert m.
  induction handles as [| h handles IH]; intros m H; cbn; [exact H |].
  apply IH. cbn. apply elem_of_app. left. exact H.
Qed.

Lemma transition_state_effects signal_id new_state kw now m e :
  e ∈ effects m -> e ∈ effects (final_state (transition_state signal_id new_state kw now m)).
Proof.
  intros H. unfold transition_state.
  destruct (active_signals m !! signal_id) as [s |]; [| exact H].
  destruct (negb _); [exact H |].
  assert (H1 : e ∈ effects
                 (with_stats (update_stats new_state (stats m))
                    (run_callbacks
                       (state_callbacks m new_state)
                       (StrategicSignal.update_state new_state kw now s)
                       (emit (STRATEGIC_SIGNAL_STATE_CHANGED signal_id (StrategicSignal.state s)
                                new_state (StrategicSignal.update_state new_state kw now s))
                          (with_active
                             (<[signal_id := StrategicSignal.update_state new_state kw now s]>
                                (active_signals m)) m))))).
  { cbn [effects with_stats]. apply run_callbacks_effects. cbn. apply elem_of_app. left. exact H. }
  destruct (is_final new_state); [| exact H1].
  unfold _archive_signal. destruct (_ !! _); exact H1.
Qed.

Lemma keyed_by_id_delete m m' signal_id :
  keyed_by_id m -> active_signals m' = delete signal_id (active_signals m) -> keyed_by_id m'.
Proof.
  intros Hm Heq k s. rewrite Heq. intros H.
  apply lookup_delete_Some in H as [_ H]. exact (Hm _ _ H).
Qed.

Lemma monitor_pass_effect signal_ids now :
  forall m,
    keyed_by_id m ->
    exists m',
      monitor_pass signal_ids now m = Returned tt m' /\
      keyed_by_id m' /\
      (forall k, active_signals m' !! k = after_expiry signal_ids now (active_signals m) k) /\
      (forall e, e ∈ effects m -> e ∈ effects m') /\
      (forall k s, k ∈ signal_ids -> active_signals m !! k = Some s -> due now s = true ->
                   STRATEGIC_SIGNAL_EXPIRED
                     (StrategicSignal.update_state EXPIRED StrategicSignal.no_kwargs now s)
                     "timeout" ∈ effects m').
Proof.
  induction signal_ids as [| signal_id rest IH]; intros m Hkeyed; cbn [monitor_pass].
  - exists m. split; [reflexivity |]. split; [exact Hkeyed |].
    split; [| split; [auto | intros k s Hk; inversion Hk]].
    intros k. unfold after_expiry. destruct (active_signals m !! k); [| reflexivity].
    rewrite bool_decide_eq_false_2 by apply not_elem_of_nil. reflexivity.
  - destruct (active_signals m !! signal_id) as [s0 |] eqn:Hlook.
    + destruct (due now s0) eqn:Hdue.
      * destruct (transition_state_success m signal_id EXPIRED StrategicSignal.no_kwargs now s0
                    (Hkeyed _ _ Hlook) Hlook (due_is_valid _ _ Hdue)) as (m1 & Heq & Hactive & _).
        rewrite Heq. cbn [is_final bool_decide decide_rel] in Hactive.
        change (is_final EXPIRED) with true in Hactive.
        set (m2 := emit _ m1).
        assert (Hkeyed2 : keyed_by_id m2) by exact (keyed_by_id_delete _ m1 _ Hkeyed Hactive).
        destruct (IH m2 Hkeyed2) as (m' & Hrun & Hkeyed' & Hmap & Hgrow & Hevents).
        exists m'. split; [exact Hrun |]. split; [exact Hkeyed' |].
        split; [| split].
        -- intros k. rewrite Hmap. unfold after_expiry.
           change (active_signals m2) with (active_signals m1). rewrite Hactive.
           destruct (decide (k = signal_id)) as [-> | Hne].
           ++ rewrite lookup_delete_eq, Hlook, Hdue.
              rewrite bool_decide_eq_true_2 by left. reflexivity.
           ++ rewrite lookup_delete_ne by congruence.
              destruct (active_signals m !! k); [| reflexivity].
              rewrite (bool_decide_ext (k ∈ signal_id :: rest) (k ∈ rest)); [reflexivity |].
              rewrite elem_of_cons. tauto.
        -- intros e He. apply Hgrow. unfold m2. cbn. apply elem_of_app. left.
           pose proof (transition_state_effects signal_id EXPIRED StrategicSignal.no_kwargs
                         now m e He) as H. rewrite Heq in H. exact H.
        -- intros k s Hk Hs Hd.
           destruct (decide (k = signal_id)) as [-> | Hne].
           ++ rewrite Hlook in Hs. injection Hs as <-.
              apply Hgrow. unfold m2. cbn. apply elem_of_app. right. left.
           ++ apply elem_of_cons in Hk as [? | Hk]; [contradiction |].
              apply (Hevents k s Hk); [| exact Hd].
              change (active_signals m2) with (active_signals m1).
              rewrite Hactive, lookup_delete_ne by congruence. exact Hs.
      * destruct (IH m Hkeyed) as (m' & Hrun & Hkeyed' & Hmap & Hgrow & Hevents).
        exists m'. split; [exact Hrun |]. split; [exact Hkeyed' |].
        split; [| split; [exact Hgrow |]].
        -- intros k. rewrite Hmap. unfold after_expiry.
           destruct (active_signals m !! k) as [s |] eqn:Hk; [| reflexivity].
           destruct (decide (k = signal_id)) as [-> | Hne].
           ++ rewrite Hlook in Hk. injection Hk as <-. rewrite Hdue, !andb_false_r. reflexivity.
           ++ rewrite (bool_decide_ext (k ∈ signal_id :: rest) (k ∈ rest)); [reflexivity |].
              rewrite elem_of_cons. tauto.
        -- intros k s Hk Hs Hd.
           apply elem_of_cons in Hk as [-> | Hk]; [congruence |].
           exact (Hevents k s Hk Hs Hd).
    + destruct (IH m Hkeyed) as (m' & Hrun & Hkeyed' & Hmap & Hgrow & Hevents).
      exists m'. split; [exact Hrun |]. split; [exact Hkeyed' |].
      split; [| split; [exact Hgrow |]].
      * intros k. rewrite Hmap. unfold after_expiry.
        destruct (active_signals m !! k) as [s |] eqn:Hk; [| reflexivity].
        destruct (decide (k = signal_id)) as [-> | Hne]; [congruence |].
        rewrite (bool_decide_ext (k ∈ signal_id :: rest) (k ∈ rest)); [reflexivity |].
        rewrite elem_of_cons. tauto.
      * intros k s Hk Hs Hd.
        apply elem_of_cons in Hk as [-> | Hk]; [congruence |].
        exact (Hevents k s Hk Hs Hd).
Qed.

(** X3. One pass of the expiry monitor over the keys of the active map, at
    time [now]: every signal whose expiration time has passed and that is
    PENDING or ACTIVE leaves the active map and a STRATEGIC_SIGNAL_EXPIRED
    event with reason "timeout" is published for it; every other signal
    (not yet expired, or EXECUTED) stays as it was; the pass ends without an
    exception. *)
Theorem monitor_pass_expires_what_is_due :
  forall m signal_ids now,
    keyed_by_id m ->
    (forall k, is_Some (active_signals m !! k) -> k ∈ signal_ids) ->
    exists m',
      monitor_pass signal_ids now m = Returned tt m' /\
      (forall k s, active_signals m' !! k = Some s <->
                   active_signals m !! k = Some s /\ due now s = false) /\
      (forall k s, active_signals m !! k = Some s -> due now s = true ->
                   STRATEGIC_SIGNAL_EXPIRED
                     (StrategicSignal.update_state EXPIRED StrategicSignal.no_kwargs now s)
                     "timeout" ∈ effects m').
Proof.
  intros m signal_ids now Hkeyed Hcover.
  destruct (monitor_pass_effect signal_ids now m Hkeyed)
    as (m' & Hrun & _ & Hmap & _ & Hevents).
  exists m'. split; [exact Hrun |]. split.
  - intros k s. rewrite Hmap. unfold after_expiry.
    destruct (active_signals m !! k) as [s0 |] eqn:Hk.
    + rewrite bool_decide_eq_true_2 by (apply Hcover; rewrite Hk; eauto). cbn [andb].
      destruct (due now s0) eqn:Hd.
      * split; [discriminate | intros [[= <-] H]; congruence].
      * split; [intros [= <-]; auto | intros [H _]; exact H].
    + split; [discriminate | intros [H _]; discriminate H].
  - intros k s Hs Hd. apply (Hevents k s); [| exact Hs | exact Hd].
    apply Hcover. rewrite Hs. eauto.
Qed.

Lemma monitor_pass_expires_what_is_due_witness :
  exists m',
    monitor_pass ["sig-1"] (seconds 601) Samples.manager_with_wdo_buy = Returned tt m' /\
    active_signals m' !! "sig-1" = None.
Proof.
  destruct (monitor_pass_expires_what_is_due Samples.manager_with_wdo_buy ["sig-1"] (seconds 601))
    as (m' & Hrun & Hmap & _).
  - apply create_signal_keyed_by_id, init_keyed_by_id.
  - intros k [s Hs]. cbn in Hs. apply lookup_insert_Some in Hs as [[<- _] | [_ Hs]]; [left |].
    rewrite lookup_empty in Hs. discriminate Hs.
  - exists m'. split; [exact Hrun |].
    destruct (active_signals m' !! "sig-1") as [s |] eqn:Hs; [| reflexivity].
    apply Hmap in Hs as [Hs Hdue]. vm_compute in Hs. injection Hs as <-.
    vm_compute in Hdue. discriminate Hdue.
Defined.

(** X4. A signal that is created, auto-activated, executed at price [e] and
    then closed (STOPPED or TARGET_HIT) at price [x] leaves the active map and
    is the newest entry of the history, with realized P&L (x - e) * 10 for a
    buy ("COMPRA") and (e - x) * 10 for any other direction.  The execution
    price must not be 0: a zero price is read as "not executed". *)
Theorem executed_then_closed_signal_pnl :
  forall m signal t0 t1 t2 t3 e x closing,
    closing = STOPPED \/ closing = TARGET_HIT ->
    ~ (e == 0)%Q ->
    let id := StrategicSignal.id signal in
    let m1 := final_state (create_signal signal t0 m) in
    let m2 := final_state (_auto_activate_signal id t1 m1) in
    let m3 := final_state (transition_state id EXECUTED
                             (StrategicSignal.mkKwargs (Some e) None) t2 m2) in
    exists m4 closed,
      transition_state id closing (StrategicSignal.mkKwargs None (Some x)) t3 m3
      = Returned true m4 /\
      active_signals m4 !! id = None /\
      last (signal_history m4) = Some closed /\
      StrategicSignal.state closed = closing /\
      StrategicSignal.execution_price closed = Some e /\
      StrategicSignal.exit_price closed = Some x /\
      StrategicSignal.pnl closed =
        Some (if StrategicSignal.direction signal =? "COMPRA"
              then ((x - e) * 10)%Q else ((e - x) * 10)%Q).
Proof.
  intros m signal t0 t1 t2 t3 e x closing Hclosing He id m1 m2 m3.
  assert (Hzero : Qeq_bool e 0 = false).
  { destruct (Qeq_bool e 0) eqn:E; [| reflexivity].
    apply Qeq_bool_iff in E. contradiction. }
  set (s1 := Lifecycle.registered signal t0 m).
  assert (H1 : active_signals m1 !! id = Some s1) by apply lookup_insert_eq.
  set (s2 := StrategicSignal.update_state ACTIVE StrategicSignal.no_kwargs t1 s1).
  assert (Hid2 : StrategicSignal.id s2 = id) by apply update_state_id.
  assert (Hst2 : StrategicSignal.state s2 = ACTIVE) by apply update_state_state.
  assert (H2 : active_signals m2 !! id = Some s2).
  { unfold m2, _auto_activate_signal. rewrite H1.
    destruct (decide (StrategicSignal.state s1 = PENDING)) as [_ | Hne];
      [| exfalso; apply Hne; reflexivity].
    destruct (transition_state_success m1 id ACTIVE StrategicSignal.no_kwargs t1 s1
                eq_refl H1 eq_refl) as (m' & Heq & Hactive & _).
    rewrite Heq. cbn [final_state]. rewrite Hactive. apply lookup_insert_eq. }
  set (kw3 := StrategicSignal.mkKwargs (Some e) None).
  set (s3 := StrategicSignal.update_state EXECUTED kw3 t2 s2).
  assert (Hid3 : StrategicSignal.id s3 = id)
    by (unfold s3; rewrite update_state_id; exact Hid2).
  assert (Hst3 : StrategicSignal.state s3 = EXECUTED) by apply update_state_state.
  assert (Hex3 : StrategicSignal.execution_price s3 = Some e) by reflexivity.
  assert (Hdir3 : StrategicSignal.direction s3 = StrategicSignal.direction signal).
  { unfold s3, s2, s1. reflexivity. }
  assert (H3 : active_signals m3 !! id = Some s3).
  { unfold m3. fold kw3.
    assert (Hv : _is_valid_transition (StrategicSignal.state s2) EXECUTED = true)
      by (rewrite Hst2; reflexivity).
    destruct (transition_state_success m2 id EXECUTED kw3 t2 s2 Hid2 H2 Hv)
      as (m' & Heq & Hactive & _).
    rewrite Heq. cbn [final_state]. rewrite Hactive. apply lookup_insert_eq. }
  set (kw4 := StrategicSignal.mkKwargs None (Some x)).
  assert (Hvalid : _is_valid_transition (StrategicSignal.state s3) closing = true)
    by (rewrite Hst3; destruct Hclosing as [-> | ->]; reflexivity).
  destruct (transition_state_success m3 id closing kw4 t3 s3 Hid3 H3 Hvalid)
    as (m4 & Heq & Hactive & Hhistory).
  assert (Hfinal : is_final closing = true) by (destruct Hclosing as [-> | ->]; reflexivity).
  rewrite Hfinal in Hactive, Hhistory.
  exists m4, (StrategicSignal.update_state closing kw4 t3 s3).
  split; [exact Heq |].
  split; [rewrite Hactive; apply lookup_delete_eq |].
  split; [rewrite Hhistory; apply last_deque_append |].
  split; [apply update_state_state |].
  clearbody s3. clear - Hclosing Hzero Hex3 Hdir3.
  rewrite <- Hdir3.
  destruct Hclosing as [-> | ->]; unfold StrategicSignal.update_state, kw4;
    cbn [StrategicSignal.kw_execution_price StrategicSignal.kw_exit_price
         StrategicSignal.execution_price StrategicSignal.set_exit StrategicSignal.set_state
         StrategicSignal.direction];
    rewrite Hex3; unfold truthy; rewrite Hzero;
    destruct (StrategicSignal.direction s3 =? "COMPRA"); repeat split; cbn;
      (exact Hex3 || reflexivity).
Qed.

Lemma executed_then_closed_signal_pnl_witness :
  exists m4 closed,
    transition_state "sig-1" STOPPED (StrategicSignal.mkKwargs None (Some 4990%Q)) (seconds 40)
      (final_state
         (transition_state "sig-1" EXECUTED (StrategicSignal.mkKwargs (Some 5000%Q) None)
            (seconds 20)
            (final_state
               (_auto_activate_signal "sig-1" (seconds 2)
                  (final_state
                     (create_signal Samples.wdo_buy 0 (init Samples.default_timeouts)))))))
    = Returned true m4 /\
    last (signal_history m4) = Some closed /\
    StrategicSignal.pnl closed = Some ((4990 - 5000) * 10)%Q.
Proof.
  destruct (executed_then_closed_signal_pnl (init Samples.default_timeouts) Samples.wdo_buy
              0 (seconds 2) (seconds 20) (seconds 40) 5000%Q 4990%Q STOPPED)
    as (m4 & closed & H1 & _ & H2 & _ & _ & _ & H3).
  - left. reflexivity.
  - intros H. vm_compute in H. discriminate H.
  - exists m4, closed. split; [exact H1 |]. split; [exact H2 | exact H3].
Defined.

Lemma run_callbacks_new_effects handles signal m e :
  e ∈ effects (run_callbacks handles signal m) -> e ∈ effects m \/ not_expiry_event e.
Proof.
  unfold run_callbacks. revert m.
  induction handles as [| h handles IH]; intros m H; cbn in H; [left; exact H |].
  apply IH in H as [H | H]; [| right; exact H].
  cbn in H. apply elem_of_app in H as [H | H]; [left; exact H |].
  apply list_elem_of_singleton in H as ->. right. exact I.
Qed.

Lemma transition_state_new_effects signal_id new_state kw now m e :
  e ∈ effects (final_state (transition_state signal_id new_state kw now m)) ->
  e ∈ effects m \/ not_expiry_event e.
Proof.
  unfold transition_state.
  destruct (active_signals m !! signal_id) as [s |]; [| auto].
  destruct (negb _); [auto |].
  assert (H1 : forall m1,
             e ∈ effects
               (with_stats (update_stats new_state (stats m1))
                  (run_callbacks
                     (state_callbacks m1 new_state)
                     (StrategicSignal.update_state new_state kw now s) m1)) ->
             e ∈ effects m1 \/ not_expiry_event e).
  { intros m1 H. cbn [effects with_stats] in H. exact (run_callbacks_new_effects _ _ _ _ H). }
  intros H.
  assert (H2 : e ∈ effects
                 (emit (STRATEGIC_SIGNAL_STATE_CHANGED signal_id (StrategicSignal.state s)
                          new_state (StrategicSignal.update_state new_state kw now s))
                    (with_active
                       (<[signal_id := StrategicSignal.update_state new_state kw now s]>
                          (active_signals m)) m))
               \/ not_expiry_event e).
  { apply H1. destruct (is_final new_state); [| exact H].
    unfold _archive_signal in H. destruct (_ !! _); exact H. }
  destruct H2 as [H2 | H2]; [| right; exact H2].
  cbn in H2. apply elem_of_app in H2 as [H2 | H2]; [left; exact H2 |].
  apply list_elem_of_singleton in H2 as ->. right. exact I.
Qed.

Lemma expire_each_effect expired_ids now :
  forall m,
    keyed_by_id m ->
    (forall k s, k ∈ expired_ids -> active_signals m !! k = Some s -> due now s = true) ->
    exists m',
      expire_each expired_ids now m = Returned tt m' /\
      (forall k, active_signals m' !! k =
                 if bool_decide (k ∈ expired_ids) then None else active_signals m !! k) /\
      (forall e, e ∈ effects m' -> e ∈ effects m \/ not_expiry_event e).
Proof.
  induction expired_ids as [| signal_id rest IH]; intros m Hkeyed Hdue; cbn [expire_each].
  - exists m. split; [reflexivity |]. split; [| auto].
    intros k. rewrite bool_decide_eq_false_2 by apply not_elem_of_nil. reflexivity.
  - destruct (active_signals m !! signal_id) as [s0 |] eqn:Hlook.
    + assert (Hd : due now s0 = true) by (apply (Hdue signal_id); [left | exact Hlook]).
      pose proof (transition_state_new_effects signal_id EXPIRED StrategicSignal.no_kwargs
                    now m) as Hnew.
      destruct (transition_state_success m signal_id EXPIRED StrategicSignal.no_kwargs now s0
                  (Hkeyed _ _ Hlook) Hlook (due_is_valid _ _ Hd)) as (m1 & Heq & Hactive & _).
      rewrite Heq in Hnew |- *. cbn [final_state] in Hnew.
      change (is_final EXPIRED) with true in Hactive.
      destruct (IH m1) as (m' & Hrun & Hmap & Heff).
      { exact (keyed_by_id_delete _ m1 _ Hkeyed Hactive). }
      { intros k s Hk. rewrite Hactive. intros Hs.
        apply lookup_delete_Some in Hs as [_ Hs]. apply (Hdue k s); [right; exact Hk | exact Hs]. }
      exists m'. split; [exact Hrun |]. split.
      * intros k. rewrite Hmap, Hactive.
        destruct (decide (k = signal_id)) as [-> | Hne].
        -- rewrite lookup_delete_eq, (bool_decide_eq_true_2 (signal_id ∈ signal_id :: rest))
             by left.
           destruct (bool_decide _); reflexivity.
        -- rewrite lookup_delete_ne by congruence.
           rewrite (bool_decide_ext (k ∈ signal_id :: rest) (k ∈ rest)); [reflexivity |].
           rewrite elem_of_cons. tauto.
      * intros e He. apply Heff in He as [He | He]; [| right; exact He]. apply Hnew, He.
    + rewrite transition_state_refused by (rewrite Hlook; reflexivity).
      destruct (IH m Hkeyed) as (m' & Hrun & Hmap & Heff).
      { intros k s Hk. apply Hdue. right. exact Hk. }
      exists m'. split; [exact Hrun |]. split; [| exact Heff].
      intros k. rewrite Hmap.
      destruct (decide (k = signal_id)) as [-> | Hne].
      * rewrite Hlook, (bool_decide_eq_true_2 (signal_id ∈ signal_id :: rest)) by left.
        destruct (bool_decide _); reflexivity.
      * rewrite (bool_decide_ext (k ∈ signal_id :: rest) (k ∈ rest)); [reflexivity |].
        rewrite elem_of_cons. tauto.
Qed.

(** X5. The manual sweep [cleanup_expired] over the keys of the active map
    removes from it exactly the signals that are expired and PENDING or
    ACTIVE, keeps every other signal as it was, and returns how many ids it
    selected; unlike the monitor it publishes no STRATEGIC_SIGNAL_EXPIRED
    event for them (only the state-change events and callbacks of the
    transitions). *)
Theorem cleanup_expired_sweeps_without_expiry_events :
  forall m signal_ids now,
    keyed_by_id m ->
    (forall k, is_Some (active_signals m !! k) -> k ∈ signal_ids) ->
    exists count m',
      cleanup_expired signal_ids now m = Returned count m' /\
      count = Z.of_nat (length (filter (fun k => from_option (due now) false
                                                   (active_signals m !! k) = true)
                                       signal_ids)) /\
      (forall k s, active_signals m' !! k = Some s <->
                   active_signals m !! k = Some s /\ due now s = false) /\
      (forall e, e ∈ effects m' -> e ∈ effects m \/ not_expiry_event e).
Proof.
  intros m signal_ids now Hkeyed Hcover. unfold cleanup_expired.
  set (expired_ids := filter _ signal_ids).
  destruct (expire_each_effect expired_ids now m Hkeyed) as (m' & Hrun & Hmap & Heff).
  { intros k s Hk Hs. apply list_elem_of_filter in Hk as [Hk _].
    rewrite Hs in Hk. exact Hk. }
  rewrite Hrun. eexists _, m'. split; [reflexivity |]. split; [reflexivity |].
  split; [| exact Heff].
  intros k s. rewrite Hmap.
  destruct (active_signals m !! k) as [s0 |] eqn:Hk.
  - destruct (due now s0) eqn:Hd.
    + rewrite bool_decide_eq_true_2.
      * split; [discriminate | intros [[= <-] H]; congruence].
      * apply list_elem_of_filter. rewrite Hk. split; [exact Hd |].
        apply Hcover. rewrite Hk. eauto.
    + rewrite bool_decide_eq_false_2.
      * split; [intros [= <-]; auto | intros [H _]; exact H].
      * intros Hin. apply list_elem_of_filter in Hin as [Hin _].
        rewrite Hk in Hin. cbn in Hin. congruence.
  - destruct (bool_decide _); (split; [discriminate | intros [H _]; discriminate H]).
Qed.

Lemma cleanup_expired_sweeps_without_expiry_events_witness :
  exists count m',
    cleanup_expired ["sig-1"] (seconds 601) Samples.manager_with_wdo_buy = Returned count m' /\
    count = 1%Z /\ active_signals m' !! "sig-1" = None.
Proof.
  destruct (cleanup_expired_sweeps_without_expiry_events
              Samples.manager_with_wdo_buy ["sig-1"] (seconds 601))
    as (count & m' & Hrun & Hcount & Hmap & _).
  - apply create_signal_keyed_by_id, init_keyed_by_id.
  - intros k [s Hs]. cbn in Hs. apply lookup_insert_Some in Hs as [[<- _] | [_ Hs]]; [left |].
    rewrite lookup_empty in Hs. discriminate Hs.
  - exists count, m'. split; [exact Hrun |]. split; [rewrite Hcount; vm_compute; reflexivity |].
    destruct (active_signals m' !! "sig-1") as [s |] eqn:Hs; [| reflexivity].
    apply Hmap in Hs as [Hs Hdue]. vm_compute in Hs. injection Hs as <-.
    vm_compute in Hdue. discriminate Hdue.
Defined.

End LifecycleMoreProperties.

(** ** The lifecycle manager over a store of objects *)

Section LifecycleObjectProperties.
Import LifecycleObjects.

Lemma filed_same_store m m' : same_store m m' -> filed m -> filed m'.
Proof. intros (Ho & Ha & Hh). unfold filed. rewrite Ho, Ha, Hh. tauto. Qed.

Lemma archived_same_store m m' : same_store m m' -> archived m -> archived m'.
Proof. intros (Ho & _ & Hh). unfold archived. rewrite Ho, Hh. tauto. Qed.

Lemma run_callbacks_same_store handles signal m :
  same_store m (run_callbacks handles signal m).
Proof.
  unfold run_callbacks. revert m.
  induction handles as [| h rest IH]; intros m; cbn [fold_left]; [repeat split |].
  destruct (IH (emit (Lifecycle.CallbackInvoked h signal) m)) as (Ho & Ha & Hh).
  repeat split; assumption.
Qed.

(** The active map refers to an object under one key only. *)
Lemma filed_one_key m k k' r :
  filed m -> active_signals m !! k = Some r -> active_signals m !! k' = Some r -> k = k'.
Proof.
  intros [Hf _] H1 H2.
  destruct (Hf _ _ H1) as (s & Hs & Hid & _). destruct (Hf _ _ H2) as (s' & Hs' & Hid' & _).
  congruence.
Qed.

Lemma create_signal_filed r now m : filed m -> filed (final_state (create_signal r now m)).
Proof.
  intros Hm. unfold create_signal.
  destruct (objects m !! r) as [signal |] eqn:Hr; cbn [final_state]; [| exact Hm].
  destruct Hm as [Hf Hlen]. split; [| exact Hlen].
  cbn [active_signals objects emit with_stats with_active with_objects
       StrategicSignal.id StrategicSignal.set_state StrategicSignal.set_expiration].
  intros k r' Hk. apply lookup_insert_Some in Hk as [[<- <-] | [Hne Hk]].
  - eexists. split; [apply list_lookup_insert_eq, (lookup_lt_Some _ _ _ Hr) |].
    split; reflexivity.
  - destruct (Hf _ _ Hk) as (s & Hs & Hid & Hfinal).
    exists s. split; [| split; assumption].
    rewrite list_lookup_insert_ne; [exact Hs |].
    intros <-. rewrite Hr in Hs. injection Hs as <-. congruence.
Qed.

Lemma create_signal_archived r now m :
  r ∉ signal_history m -> archived m -> archived (final_state (create_signal r now m)).
Proof.
  intros Hnew Hm. unfold create_signal.
  destruct (objects m !! r) as [signal |] eqn:Hr; cbn [final_state]; [| exact Hm].
  intros r' Hin. cbn [signal_history objects emit with_stats with_active with_objects] in *.
  destruct (Hm _ Hin) as (s & Hs & Hfinal). exists s. split; [| exact Hfinal].
  rewrite list_lookup_insert_ne; [exact Hs |]. intros <-. contradiction.
Qed.

Lemma new_object_filed signal m : filed m -> filed (snd (new_object signal m)).
Proof.
  intros [Hf Hlen]. split; [| exact Hlen]. cbn. intros k r Hk.
  destruct (Hf _ _ Hk) as (s & Hs & Hrest). exists s. split; [| exact Hrest].
  apply lookup_app_l_Some, Hs.
Qed.

Lemma new_object_archived signal m :
  archived m ->
  archived (snd (new_object signal m)) /\
  fst (new_object signal m) ∉ signal_history (snd (new_object signal m)).
Proof.
  intros Hm. split.
  - intros r Hin. cbn in *. destruct (Hm _ Hin) as (s & Hs & Hfinal).
    exists s. split; [apply lookup_app_l_Some, Hs | exact Hfinal].
  - cbn. intros Hin. destruct (Hm _ Hin) as (s & Hs & _).
    apply lookup_lt_Some in Hs. lia.
Qed.

Lemma elem_of_deque_append {A} n (d : list A) x y :
  y ∈ deque_append n d x -> y ∈ d \/ y = x.
Proof.
  unfold deque_append. intros H. apply (subseteq_drop _ _ _) in H.
  apply elem_of_app in H as [H | H]; [left; exact H |].
  right. apply list_elem_of_singleton in H. exact H.
Qed.

(** What a transition that is carried out does to the store. *)
Lemma transition_state_store signal_id new_state kw now m r signal :
  active_signals m !! signal_id = Some r ->
  objects m !! r = Some signal ->
  StrategicSignal.id signal = signal_id ->
  Lifecycle._is_valid_transition (StrategicSignal.state signal) new_state = true ->
  let m' := final_state (transition_state signal_id new_state kw now m) in
  objects m' = <[r := StrategicSignal.update_state new_state kw now signal]> (objects m) /\
  (if Lifecycle.is_final new_state
   then active_signals m' = delete signal_id (active_signals m) /\
        signal_history m' = deque_append 100 (signal_history m) r
   else active_signals m' = active_signals m /\ signal_history m' = signal_history m).
Proof.
  intros Hk Hr Hid Hvalid m'. subst m'. unfold transition_state.
  rewrite Hk, Hr, Hvalid. cbn [negb].
  match goal with |- context [run_callbacks ?h ?sg ?m0] =>
    destruct (run_callbacks_same_store h sg m0) as (Ho & Ha & Hh);
    set (m1 := run_callbacks h sg m0) in * end.
  cbn [objects active_signals signal_history emit with_objects] in Ho, Ha, Hh.
  clearbody m1.
  destruct (Lifecycle.is_final new_state).
  - unfold _archive_signal.
    cbn [objects active_signals signal_history with_stats with_history].
    rewrite Ho, list_lookup_insert_eq by (apply (lookup_lt_Some _ _ _ Hr)).
    rewrite update_state_id. rewrite Hid. rewrite Ha. rewrite Hk. cbn [final_state].
    cbn [objects active_signals signal_history with_stats with_history with_active].
    rewrite Ho, Hh. repeat split.
  - cbn [final_state objects active_signals signal_history with_stats].
    rewrite Ho, Ha, Hh. repeat split.
Qed.

Lemma transition_state_filed signal_id new_state kw now m :
  filed m -> filed (final_state (transition_state signal_id new_state kw now m)).
Proof.
  intros Hm.
  destruct (active_signals m !! signal_id) as [r |] eqn:Hk;
    [| unfold transition_state; rewrite Hk; exact Hm].
  destruct (proj1 Hm _ _ Hk) as (signal & Hr & Hid & Hnotfinal).
  destruct (Lifecycle._is_valid_transition (StrategicSignal.state signal) new_state) eqn:Hvalid;
    [| unfold transition_state; rewrite Hk, Hr, Hvalid; exact Hm].
  destruct (transition_state_store signal_id new_state kw now m r signal Hk Hr Hid Hvalid)
    as (Ho & Hrest).
  set (m' := final_state _) in *. clearbody m'.
  assert (Hothers : forall k r', k <> signal_id -> active_signals m !! k = Some r' ->
             exists s, objects m' !! r' = Some s /\ StrategicSignal.id s = k /\
                       Lifecycle.is_final (StrategicSignal.state s) = false).
  { intros k r' Hne Hk'. destruct (proj1 Hm _ _ Hk') as (s & Hs & Hsid & Hsf).
    exists s. split; [| split; assumption]. rewrite Ho.
    rewrite list_lookup_insert_ne; [exact Hs |].
    intros <-. apply Hne. exact (filed_one_key m _ _ _ Hm Hk' Hk). }
  destruct (Lifecycle.is_final new_state) eqn:Hfinal; destruct Hrest as [Ha Hh].
  - split; [| rewrite Hh; apply length_deque_append].
    intros k r' Hk'. rewrite Ha in Hk'. apply lookup_delete_Some in Hk' as [Hne Hk'].
    exact (Hothers k r' (not_eq_sym Hne) Hk').
  - split; [| rewrite Hh; apply Hm].
    intros k r' Hk'. rewrite Ha in Hk'.
    destruct (decide (k = signal_id)) as [-> | Hne]; [| exact (Hothers k r' Hne Hk')].
    rewrite Hk in Hk'. injection Hk' as <-.
    eexists. split; [rewrite Ho; apply list_lookup_insert_eq, (lookup_lt_Some _ _ _ Hr) |].
    rewrite update_state_id, update_state_state. split; [exact Hid | exact Hfinal].
Qed.

Lemma transition_state_archived signal_id new_state kw now m :
  filed m -> archived m ->
  archived (final_state (transition_state signal_id new_state kw now m)).
Proof.
  intros Hm Harch.
  destruct (active_signals m !! signal_id) as [r |] eqn:Hk;
    [| unfold transition_state; rewrite Hk; exact Harch].
  destruct (proj1 Hm _ _ Hk) as (signal & Hr & Hid & Hnotfinal).
  destruct (Lifecycle._is_valid_transition (StrategicSignal.state signal) new_state) eqn:Hvalid;
    [| unfold transition_state; rewrite Hk, Hr, Hvalid; exact Harch].
  destruct (transition_state_store signal_id new_state kw now m r signal Hk Hr Hid Hvalid)
    as (Ho & Hrest).
  set (m' := final_state _) in *. clearbody m'.
  assert (Hold : forall r', r' ∈ signal_history m ->
             exists s, objects m' !! r' = Some s /\
                       Lifecycle.is_final (StrategicSignal.state s) = true).
  { intros r' Hin. destruct (Harch _ Hin) as (s & Hs & Hsf).
    exists s. split; [| exact Hsf]. rewrite Ho.
    rewrite list_lookup_insert_ne; [exact Hs |].
    intros <-. rewrite Hr in Hs. injection Hs as <-. congruence. }
  destruct (Lifecycle.is_final new_state) eqn:Hfinal; destruct Hrest as [_ Hh];
    intros r' Hin; rewrite Hh in Hin; [| exact (Hold r' Hin)].
  apply elem_of_deque_append in Hin as [Hin | ->]; [exact (Hold r' Hin) |].
  eexists. split; [rewrite Ho; apply list_lookup_insert_eq, (lookup_lt_Some _ _ _ Hr) |].
  rewrite update_state_state. exact Hfinal.
Qed.

Lemma emit_same_store e m : same_store m (emit e m).
Proof. repeat split. Qed.

(** A property of managers that the transitions and the events keep is kept
    by every call that registers nothing. *)
Section Kept.
Variable P : ObjectManager -> Prop.
Hypothesis P_transition :
  forall signal_id new_state kw now m,
    P m -> P (final_state (transition_state signal_id new_state kw now m)).
Hypothesis P_same_store : forall m m', same_store m m' -> P m -> P m'.

Lemma auto_activate_kept signal_id now m :
  P m -> P (final_state (_auto_activate_signal signal_id now m)).
Proof.
  intros Hm. unfold _auto_activate_signal.
  destruct (state_of signal_id m) as [signal |]; [| exact Hm].
  destruct (decide _); [| exact Hm].
  pose proof (P_transition signal_id ACTIVE StrategicSignal.no_kwargs now m Hm) as H.
  destruct (transition_state _ _ _ _ m); exact H.
Qed.

Lemma monitor_pass_kept signal_ids now :
  forall m, P m -> P (final_state (monitor_pass signal_ids now m)).
Proof.
  induction signal_ids as [| signal_id rest IH]; intros m Hm; cbn [monitor_pass];
    [exact Hm |].
  destruct (active_signals m !! signal_id) as [r |]; [| apply IH, Hm].
  destruct (objects m !! r) as [signal |]; [| apply IH, Hm].
  destruct (LifecycleSweep.due now signal); [| apply IH, Hm].
  pose proof (P_transition signal_id EXPIRED StrategicSignal.no_kwargs now m Hm) as H.
  destruct (transition_state _ _ _ _ m) as [ok m1 | e m1]; cbn [final_state] in *;
    [| exact H].
  apply IH. exact (P_same_store _ _ (emit_same_store _ m1) H).
Qed.

Lemma expire_each_kept expired_ids now :
  forall m, P m -> P (final_state (expire_each expired_ids now m)).
Proof.
  induction expired_ids as [| signal_id rest IH]; intros m Hm; cbn [expire_each];
    [exact Hm |].
  pose proof (P_transition signal_id EXPIRED StrategicSignal.no_kwargs now m Hm) as H.
  destruct (transition_state _ _ _ _ m) as [ok m1 | e m1]; cbn [final_state] in *;
    [apply IH, H | exact H].
Qed.

Lemma cleanup_expired_kept signal_ids now m :
  P m -> P (final_state (cleanup_expired signal_ids now m)).
Proof.
  intros Hm. unfold cleanup_expired.
  match goal with |- context [expire_each ?ids now m] =>
    pose proof (expire_each_kept ids now m Hm) as H;
    destruct (expire_each ids now m) end; exact H.
Qed.

End Kept.

Lemma call_filed c now m : filed m -> filed (call c now m).
Proof.
  intros Hm. destruct c as [signal | r | signal_id new_state kw | signal_id | ids | ids];
    cbn [call].
  - pose proof (new_object_filed signal m Hm) as H.
    destruct (new_object signal m) as [r m1]. apply create_signal_filed, H.
  - apply create_signal_filed, Hm.
  - apply transition_state_filed, Hm.
  - apply (auto_activate_kept filed); [intros; apply transition_state_filed; assumption | exact Hm].
  - apply (monitor_pass_kept filed);
      [intros; apply transition_state_filed; assumption | apply filed_same_store | exact Hm].
  - apply (cleanup_expired_kept filed);
      [intros; apply transition_state_filed; assumption | exact Hm].
Qed.

Lemma call_archived c now m :
  registers_new_objects c = true ->
  filed m /\ archived m -> filed (call c now m) /\ archived (call c now m).
Proof.
  intros Hc [Hm Harch]. split; [apply call_filed, Hm |].
  assert (Hboth : forall signal_id new_state kw now0 m0,
             filed m0 /\ archived m0 ->
             filed (final_state (transition_state signal_id new_state kw now0 m0)) /\
             archived (final_state (transition_state signal_id new_state kw now0 m0))).
  { intros signal_id new_state kw now0 m0 [H1 H2].
    split; [apply transition_state_filed, H1 | apply transition_state_archived; assumption]. }
  assert (Hsame : forall m0 m1, same_store m0 m1 ->
             filed m0 /\ archived m0 -> filed m1 /\ archived m1).
  { intros m0 m1 Hs [H1 H2].
    split; [exact (filed_same_store _ _ Hs H1) | exact (archived_same_store _ _ Hs H2)]. }
  destruct c as [signal | r | signal_id new_state kw | signal_id | ids | ids];
    cbn [call]; try discriminate Hc.
  - pose proof (new_object_archived signal m Harch) as [H Hnew].
    destruct (new_object signal m) as [r m1]. cbn [fst snd] in *.
    apply create_signal_archived; [| exact H].
    exact Hnew.
  - apply transition_state_archived; assumption.
  - apply (auto_activate_kept (fun m0 => filed m0 /\ archived m0) Hboth); split; assumption.
  - apply (monitor_pass_kept (fun m0 => filed m0 /\ archived m0) Hboth Hsame); split; assumption.
  - apply (cleanup_expired_kept (fun m0 => filed m0 /\ archived m0) Hboth); split; assumption.
Qed.

(** X2. Whatever calls are made on a manager, in whatever order and at
    whatever times (signals created, objects registered again, transitions
    requested, timers fired, monitor passes, manual sweeps), every entry of
    the active map refers to a signal that carries the key as its id and is
    in no final state (EXPIRED, STOPPED, TARGET_HIT), and the history never
    holds more than 100 signals.  When no object is registered twice, every
    signal in the history is in a final state.  That condition is needed: a
    signal that has expired and is handed to [create_signal] again is PENDING
    in the history as well, since the history holds the object itself. *)
Theorem active_signals_are_never_final :
  (forall cfg calls,
      let m := call_all calls (init cfg) in
      (forall k r, active_signals m !! k = Some r ->
                   exists s, objects m !! r = Some s /\ StrategicSignal.id s = k /\
                             StrategicSignal.state s ∈ [PENDING; ACTIVE; EXECUTED]) /\
      (length (signal_history m) <= 100)%nat /\
      (Forall (fun c => registers_new_objects (fst c) = true) calls ->
       forall r, r ∈ signal_history m ->
                 exists s, objects m !! r = Some s /\
                           StrategicSignal.state s ∈ [EXPIRED; STOPPED; TARGET_HIT])) /\
  (let m := call_all [ (CreateNew Samples.wdo_buy, 0%Z);
                       (MonitorPass ["sig-1"], seconds 601);
                       (CreateAgain 0%nat, seconds 700) ]
              (init Samples.default_timeouts) in
   signal_history m = [0%nat] /\
   (StrategicSignal.state <$> objects m !! 0%nat) = Some PENDING).
Proof.
  split; [| cbv zeta; split; vm_compute; reflexivity].
  intros cfg calls m.
  assert (H0 : filed (init cfg) /\ archived (init cfg)).
  { split; [split |].
    - intros k r H. cbn in H. rewrite lookup_empty in H. discriminate H.
    - cbn. lia.
    - intros r H. cbn in H. apply not_elem_of_nil in H. contradiction. }
  assert (Hfiled : filed m).
  { subst m. destruct H0 as [H0 _]. revert H0. generalize (init cfg).
    induction calls as [| [c now] rest IH]; intros m0 H0; cbn [call_all]; [exact H0 |].
    apply IH, call_filed, H0. }
  split; [| split; [apply Hfiled |]].
  - intros k r Hk. destruct (proj1 Hfiled _ _ Hk) as (s & Hs & Hid & Hstate).
    exists s. split; [exact Hs |]. split; [exact Hid |].
    destruct (StrategicSignal.state s); try discriminate Hstate; repeat constructor.
  - intros Hnew.
    assert (Harch : filed m /\ archived m).
    { subst m. clear Hfiled. revert H0. generalize (init cfg).
      induction calls as [| [c now] rest IH]; intros m0 H0; cbn [call_all]; [exact H0 |].
      apply Forall_cons in Hnew as [Hc Hrest].
      apply (IH Hrest). apply call_archived; [exact Hc | exact H0]. }
    intros r Hin. destruct (proj2 Harch _ Hin) as (s & Hs & Hstate).
    exists s. split; [exact Hs |].
    destruct (StrategicSignal.state s); try discriminate Hstate; repeat constructor.
Qed.

Lemma active_signals_are_never_final_witness :
  let m := call_all [ (CreateNew Samples.wdo_buy, 0%Z);
                      (MonitorPass ["sig-1"], seconds 601) ]
             (init Samples.default_timeouts) in
  signal_history m = [0%nat] /\
  forall r, r ∈ signal_history m ->
            exists s, objects m !! r = Some s /\
                      StrategicSignal.state s ∈ [EXPIRED; STOPPED; TARGET_HIT].
Proof.
  intros m. split; [vm_compute; reflexivity |].
  apply (proj1 active_signals_are_never_final Samples.default_timeouts
           [ (CreateNew Samples.wdo_buy, 0%Z); (MonitorPass ["sig-1"], seconds 601) ]).
  repeat constructor.
Defined.

End LifecycleObjectProperties.

(** ** Signal queries *)

Section SignalQueryProperties.
Import SignalQueries.

(** X6. The three clocks of a signal agree: [is_expired] holds exactly when
    [time_remaining] is zero, [time_remaining] is never negative, and a signal
    that [is_active] is not expired. *)
Theorem expiry_clocks_agree :
  forall now s,
    (StrategicSignal.is_expired now s = true <-> time_remaining now s = 0%Z) /\
    (0 <= time_remaining now s)%Z /\
    (is_active now s = true -> StrategicSignal.is_expired now s = false).
Proof.
  intros now s. unfold StrategicSignal.is_expired, time_remaining, is_active.
  split; [| split].
  - rewrite Z.leb_le. lia.
  - lia.
  - intros H. apply andb_prop in H as [_ H]. apply Z.ltb_lt in H. apply Z.leb_gt. exact H.
Qed.

(** X7. [get_reward_points] on an index outside the list: with no target, or
    with an index at or past the end, it returns 0 and does not fail; an index
    from -len to -1 counts from the last target; an index below -len of a
    non-empty list is an IndexError. *)
Theorem reward_points_index_bounds :
  forall s target_index,
    let n := Z.of_nat (length (StrategicSignal.targets s)) in
    (StrategicSignal.targets s = [] \/ (n <= target_index)%Z ->
     get_reward_points target_index s = Some 0%Q) /\
    (StrategicSignal.targets s <> [] -> (target_index < - n)%Z ->
     get_reward_points target_index s = None) /\
    ((- n <= target_index < 0)%Z ->
     get_reward_points target_index s = get_reward_points (n + target_index) s).
Proof.
  intros s target_index n. unfold get_reward_points, py_index. subst n.
  destruct (StrategicSignal.targets s) as [| t0 ts] eqn:Hts.
  - split; [reflexivity |]. split; [congruence |]. cbn. lia.
  - set (targets := t0 :: ts). set (n := Z.of_nat (length targets)).
    assert (Hn : (0 < n)%Z) by (unfold n, targets; cbn [length]; lia).
    split; [| split].
    + intros [H | H]; [discriminate H |].
      destruct (Z.leb_spec n target_index); [reflexivity | lia].
    + intros _ H.
      destruct (Z.leb_spec n target_index); [lia |].
      destruct (Z.leb_spec 0 target_index); [lia |].
      destruct (Z.leb_spec 0 (n + target_index)); [lia | reflexivity].
    + intros H.
      destruct (Z.leb_spec n target_index); [lia |].
      destruct (Z.leb_spec 0 target_index); [lia |].
      destruct (Z.leb_spec 0 (n + target_index)); [| lia].
      destruct (Z.leb_spec n (n + target_index)); [lia |]. reflexivity.
Qed.

End SignalQueryProperties.

(** ** Risk governor, continued *)

Section RiskMoreProperties.
Import Risk RiskRuns.

Lemma close_trades_snoc pnls pnl s :
  close_trades (pnls ++ [pnl]) s = _handle_trade_closed (Some pnl) (close_trades pnls s).
Proof. unfold close_trades. rewrite fold_left_app. reflexivity. Qed.

Lemma close_trades_limit pnls s :
  consecutive_losses_limit (close_trades pnls s) = consecutive_losses_limit s /\
  max_drawdown_percent (close_trades pnls s) = max_drawdown_percent s /\
  emergency_stop_loss (close_trades pnls s) = emergency_stop_loss s.
Proof.
  unfold close_trades. revert s.
  induction pnls as [| pnl pnls IH]; intros s; cbn [fold_left]; [repeat split |].
  destruct (IH (_handle_trade_closed (Some pnl) s)) as (H1 & H2 & H3).
  rewrite H1, H2, H3. repeat split.
Qed.

(** X8. A run of losing trades (every P&L below zero) raises the streak of
    consecutive losses by its length, and after it the consecutive-losses
    breaker is set exactly when the streak has reached the limit; one trade
    that is not a loss (P&L zero or above) puts the streak back to 0. *)
Theorem losing_streak_counts_and_trips :
  forall s losses,
    losses <> [] ->
    Forall (fun pnl => (pnl < 0)%Q) losses ->
    let s' := close_trades losses s in
    let streak := (consecutive_losses (performance_metrics s) + Z.of_nat (length losses))%Z in
    consecutive_losses (performance_metrics s') = streak /\
    cb_consecutive_losses (circuit_breakers s') =
      Qgeb (inject_Z streak) (consecutive_losses_limit s) /\
    (forall pnl, ~ (pnl < 0)%Q ->
       consecutive_losses (performance_metrics (_handle_trade_closed (Some pnl) s')) = 0%Z).
Proof.
  intros s losses Hne Hall s' streak. subst s' streak.
  assert (Hcount : forall l, Forall (fun pnl => (pnl < 0)%Q) l ->
            consecutive_losses (performance_metrics (close_trades l s))
            = (consecutive_losses (performance_metrics s) + Z.of_nat (length l))%Z).
  { induction l as [| pnl l IH] using rev_ind; intros Hl.
    - cbn. lia.
    - apply Forall_app in Hl as [Hl Hpnl]. apply Forall_cons in Hpnl as [Hpnl _].
      rewrite close_trades_snoc, length_app. cbn [length].
      unfold _handle_trade_closed. cbn [performance_metrics _update_circuit_breakers
        with_breakers with_metrics consecutive_losses default from_option id].
      apply Qltb_true in Hpnl. rewrite Hpnl, (IH Hl). lia. }
  split; [exact (Hcount losses Hall) |]. split.
  - destruct losses as [| pnl l _] using rev_ind; [congruence |].
    rewrite <- (Hcount _ Hall). rewrite close_trades_snoc.
    destruct (close_trades_limit l s) as (Hlimit & _).
    unfold _handle_trade_closed, _update_circuit_breakers.
    cbn [circuit_breakers with_breakers cb_consecutive_losses performance_metrics with_metrics
         consecutive_losses consecutive_losses_limit].
    rewrite Hlimit. reflexivity.
  - intros pnl Hpnl. unfold _handle_trade_closed.
    cbn [performance_metrics _update_circuit_breakers with_breakers with_metrics
         consecutive_losses default from_option id].
    destruct (Qltb pnl 0) eqn:E; [| reflexivity].
    apply Qltb_true in E. contradiction.
Qed.

Lemma losing_streak_counts_and_trips_witness :
  cb_consecutive_losses
    (circuit_breakers
       (close_trades [(-10)%Q; (-10)%Q; (-10)%Q; (-10)%Q; (-10)%Q] (init default_settings)))
  = Qgeb (inject_Z (0 + 5)) 5.
Proof.
  apply (losing_streak_counts_and_trips (init default_settings)
           [(-10)%Q; (-10)%Q; (-10)%Q; (-10)%Q; (-10)%Q]).
  - discriminate.
  - repeat constructor.
Defined.

Lemma trade_closed_peak_and_drawdown pnl s :
  let m := performance_metrics s in
  let m' := performance_metrics (_handle_trade_closed (Some pnl) s) in
  daily_pnl m' = (daily_pnl m + pnl)%Q /\
  peak_pnl m' = (if Qgtb (daily_pnl m + pnl) (peak_pnl m) then (daily_pnl m + pnl)%Q
                 else peak_pnl m) /\
  current_drawdown m' =
    (if Qgtb (peak_pnl m') 0
     then ((peak_pnl m' - daily_pnl m') / peak_pnl m' * 100)%Q else 0%Q).
Proof. repeat split. Qed.

(** X9. While the day has never been in profit the drawdown breaker cannot
    trip: starting from a service whose peak P&L is not above zero and whose
    daily P&L is not above the peak (as after construction or a daily reset),
    a run of trades none of which is a gain leaves the peak where it was, the
    drawdown at exactly 0 and, for a positive drawdown limit, the drawdown
    breaker off, however deep the loss. *)
Theorem drawdown_never_trips_without_profit :
  forall s pnls,
    (peak_pnl (performance_metrics s) <= 0)%Q ->
    (daily_pnl (performance_metrics s) <= peak_pnl (performance_metrics s))%Q ->
    (0 < max_drawdown_percent s)%Q ->
    pnls <> [] ->
    Forall (fun pnl => (pnl <= 0)%Q) pnls ->
    let s' := close_trades pnls s in
    peak_pnl (performance_metrics s') = peak_pnl (performance_metrics s) /\
    current_drawdown (performance_metrics s') = 0%Q /\
    cb_drawdown (circuit_breakers s') = false.
Proof.
  intros s pnls Hpeak Hdaily Hlimit Hne Hall s'. subst s'.
  assert (Hinv : forall l, Forall (fun pnl => (pnl <= 0)%Q) l ->
            peak_pnl (performance_metrics (close_trades l s)) = peak_pnl (performance_metrics s) /\
            (daily_pnl (performance_metrics (close_trades l s))
             <= peak_pnl (performance_metrics s))%Q).
  { induction l as [| pnl l IH] using rev_ind; intros Hl; [split; [reflexivity | exact Hdaily] |].
    apply Forall_app in Hl as [Hl Hpnl]. apply Forall_cons in Hpnl as [Hpnl _].
    destruct (IH Hl) as [IHpeak IHdaily].
    rewrite close_trades_snoc.
    destruct (trade_closed_peak_and_drawdown pnl (close_trades l s)) as (Hd & Hp & _).
    cbv zeta in Hd, Hp. rewrite Hp, Hd, IHpeak.
    assert (Hle : (daily_pnl (performance_metrics (close_trades l s)) + pnl
                   <= peak_pnl (performance_metrics s))%Q).
    { rewrite <- (Qplus_0_r (peak_pnl (performance_metrics s))).
      apply Qplus_le_compat; assumption. }
    apply Qgtb_false in Hle. rewrite Hle. split; [reflexivity |].
    apply Qgtb_false. exact Hle. }
  destruct pnls as [| pnl l _] using rev_ind; [congruence |].
  destruct (Hinv _ Hall) as [Hp _]. split; [exact Hp |].
  rewrite close_trades_snoc in Hp |- *.
  destruct (close_trades_limit l s) as (_ & Hmax & _).
  destruct (trade_closed_peak_and_drawdown pnl (close_trades l s)) as (_ & _ & Hdd).
  cbv zeta in Hdd.
  assert (Hzero : current_drawdown
                    (performance_metrics (_handle_trade_closed (Some pnl) (close_trades l s)))
                  = 0%Q).
  { rewrite Hdd, Hp. apply Qgtb_false in Hpeak. rewrite Hpeak. reflexivity. }
  split; [exact Hzero |].
  change (cb_drawdown (circuit_breakers (_handle_trade_closed (Some pnl) (close_trades l s))))
    with (Qgeb (current_drawdown
                  (performance_metrics (_handle_trade_closed (Some pnl) (close_trades l s))))
               (max_drawdown_percent (close_trades l s))).
  rewrite Hzero, Hmax. apply Qltb_true in Hlimit. unfold Qltb in Hlimit.
  apply negb_true_iff in Hlimit. exact Hlimit.
Qed.

Lemma drawdown_never_trips_without_profit_witness :
  cb_drawdown
    (circuit_breakers (close_trades [(-400)%Q; (-500)%Q] (init default_settings)))
  = false.
Proof.
  apply (drawdown_never_trips_without_profit (init default_settings) [(-400)%Q; (-500)%Q]).
  - apply Qle_bool_iff; reflexivity.
  - apply Qle_bool_iff; reflexivity.
  - reflexivity.
  - discriminate.
  - repeat constructor; apply Qle_bool_iff; reflexivity.
Defined.

(** X10. After every trade-closed event the daily P&L is at most the peak and
    the drawdown percentage is not negative. *)
Theorem drawdown_is_never_negative :
  forall s trade_pnl,
    let m' := performance_metrics (_handle_trade_closed trade_pnl s) in
    (daily_pnl m' <= peak_pnl m')%Q /\ (0 <= current_drawdown m')%Q.
Proof.
  intros s trade_pnl m'. subst m'.
  assert (Hgen : forall pnl,
             let m' := performance_metrics (_handle_trade_closed (Some pnl) s) in
             (daily_pnl m' <= peak_pnl m')%Q /\ (0 <= current_drawdown m')%Q).
  { intros pnl. destruct (trade_closed_peak_and_drawdown pnl s) as (Hd & Hp & Hdd).
    cbv zeta in *.
    assert (Hle : (daily_pnl (performance_metrics (_handle_trade_closed (Some pnl) s))
                   <= peak_pnl (performance_metrics (_handle_trade_closed (Some pnl) s)))%Q).
    { rewrite Hp, Hd.
      destruct (Qgtb _ _) eqn:E; [apply Qle_refl | apply Qgtb_false; exact E]. }
    split; [exact Hle |]. rewrite Hdd.
    destruct (Qgtb _ 0) eqn:E; [| apply Qle_refl].
    apply Qgtb_true in E.
    apply Qmult_le_0_compat; [| discriminate].
    apply Qle_shift_div_l; [exact E |]. rewrite Qmult_0_l.
    unfold Qminus. rewrite <- (Qplus_opp_r (daily_pnl
      (performance_metrics (_handle_trade_closed (Some pnl) s)))).
    apply Qplus_le_compat; [exact Hle | apply Qle_refl]. }
  destruct trade_pnl as [pnl |]; [apply Hgen | apply (Hgen 0%Q)].
Qed.

(** X11. The quality score of every signal, whatever its source, level and
    details, lies in (0, 1]: the four weighted criteria sum to at most their
    total weight 4.6 and the source and level always contribute. *)
Theorem quality_score_is_normalised :
  forall signal,
    (0 < q_score (_evaluate_signal_quality signal))%Q /\
    (q_score (_evaluate_signal_quality signal) <= 1)%Q.
Proof.
  intros signal. unfold _evaluate_signal_quality.
  set (details := Signal.details signal).
  match goal with |- context [let '(_, _) := ?m in _] => set (first := m) end.
  assert (H1 : (0.4 <= fst first)%Q /\ (fst first <= 1.5)%Q)
    by (unfold first; destruct (Signal.source signal); cbn [fst]; split; lra).
  destruct first as [x1 l1]. cbn [fst] in H1. clear - H1.
  match goal with
  | |- context [match Signal.level signal with
                | INFO => ?a | WARNING => ?b | ALERT => ?c end] =>
      set (x2 := match Signal.level signal with
                 | INFO => a | WARNING => b | ALERT => c end)
  end.
  assert (H2 : (0.6 <= x2)%Q /\ (x2 <= 2.3)%Q)
    by (unfold x2; destruct (Signal.level signal); split; lra).
  clearbody x2. clear H1 x1.
  match goal with |- context [let '(_, _) := ?m in _] => set (third := m) end.
  assert (H3 : (0.6 <= fst third)%Q /\ (fst third <= 3.1)%Q).
  { unfold third. destruct (profit_reais details), (profit details);
      cbn [default from_option id];
      repeat match goal with |- context [if ?b then _ else _] => destruct b end;
      cbn [fst]; split; lra. }
  destruct third as [x3 l3]. cbn [fst] in H3. clear H2 x2.
  match goal with |- context [let '(_, _) := ?m in _] => set (fourth := m) end.
  assert (H4 : (0.6 <= fst fourth)%Q /\ (fst fourth <= 3.8)%Q).
  { unfold fourth. destruct (confirmations details);
      repeat match goal with |- context [if ?b then _ else _] => destruct b end;
      cbn [fst]; split; lra. }
  destruct fourth as [x4 l4]. cbn [fst] in H4. clear H3 x3.
  match goal with
  | |- context [if bool_decide ?P then ?a else ?b] =>
      set (x5 := if bool_decide P then a else b)
  end.
  assert (H5 : (0.6 <= x5)%Q /\ (x5 <= 4.6)%Q).
  { unfold x5. repeat match goal with |- context [if ?b then _ else _] => destruct b end;
      split; lra. }
  clearbody x5. clear H4 x4.
  cbn [q_score].
  change (Qgtb (1.5 + 0.8 + 1.5 + 0.8) 0) with true. cbv iota.
  split.
  - apply Qlt_shift_div_l; lra.
  - apply Qle_shift_div_r; lra.
Qed.

(** X12. An approval is sound and is recorded: when [evaluate_signal] returns
    true, none of the five breakers is set, the frequency check passed, the
    quality score is not below the threshold and the assessed risk is LOW or
    MEDIUM; and the call has appended [now] to the 'all' deque, counted the
    signal as received and approved, and published SIGNAL_APPROVED last. *)
Theorem approval_is_sound_and_recorded :
  forall signal now s a s',
    evaluate_signal signal now s = (true, a, s') ->
    circuit_breakers s = mkBreakers false false false false false /\
    _check_signal_frequency signal now s = None /\
    (signal_quality_threshold s <= q_score (_evaluate_signal_quality signal))%Q /\
    (assessed_risk a = LOW \/ assessed_risk a = MEDIUM) /\
    approved a = true /\
    last (ts_all (signal_timestamps s')) = Some now /\
    total_signals (performance_metrics s') = (total_signals (performance_metrics s) + 1)%Z /\
    signals_approved (performance_metrics s')
    = (signals_approved (performance_metrics s) + 1)%Z /\
    last (events s') = Some (SIGNAL_APPROVED signal a).
Proof.
  intros signal now s a s'. unfold evaluate_signal.
  destruct (negb (fst (_check_circuit_breakers s))) eqn:Hcb; [discriminate |].
  destruct (_check_signal_frequency signal now s) eqn:Hfreq; [discriminate |].
  destruct (Qltb _ _) eqn:Hq; [discriminate |].
  destruct (bool_decide _) eqn:Hctx; [discriminate |].
  intros [= <- <-].
  split.
  { unfold _check_circuit_breakers in Hcb.
    destruct (circuit_breakers s) as [[] [] [] [] []]; cbn in Hcb;
      try discriminate Hcb; reflexivity. }
  split; [reflexivity |].
  split; [apply Qltb_false; exact Hq |].
  split.
  { apply bool_decide_eq_false in Hctx. cbn [assessed_risk].
    destruct (ctx_level _); auto; exfalso; apply Hctx; set_solver. }
  split; [reflexivity |].
  split.
  { unfold _record_signal_approval.
    cbn [signal_timestamps publish with_history with_timestamps with_metrics].
    unfold append_for_source at 2. cbn [String.eqb Ascii.eqb Bool.eqb ts_all].
    destruct (Signal.source signal); cbn; apply last_deque_append. }
  repeat split. cbn. apply last_snoc.
Qed.

Lemma approval_is_sound_and_recorded_witness :
  exists a s',
    evaluate_signal Samples.confluence_alert Samples.noon (init default_settings)
    = (true, a, s') /\
    last (ts_all (signal_timestamps s')) = Some Samples.noon.
Proof.
  assert (H : exists a s',
             evaluate_signal Samples.confluence_alert Samples.noon (init default_settings)
             = (true, a, s')) by (vm_compute; eauto).
  destruct H as (a & s' & H). exists a, s'. split; [exact H |].
  apply (approval_is_sound_and_recorded _ _ _ _ _ H).
Defined.

(** X13. [manual_override] on a name that is not one of the five breakers
    changes nothing and publishes nothing; on a breaker it sets that breaker
    to the requested value, leaves the other four as they were, and publishes
    one RISK_OVERRIDE event carrying the value the breaker had before. *)
Theorem manual_override_sets_one_breaker :
  forall breaker active reason now s,
    (breaker_get breaker (circuit_breakers s) = None ->
     manual_override breaker active reason now s = s) /\
    (forall old_state,
        breaker_get breaker (circuit_breakers s) = Some old_state ->
        let s' := manual_override breaker active reason now s in
        breaker_get breaker (circuit_breakers s') = Some active /\
        (forall other, other <> breaker ->
                       breaker_get other (circuit_breakers s')
                       = breaker_get other (circuit_breakers s)) /\
        events s' = events s ++ [RISK_OVERRIDE breaker old_state active reason now] /\
        performance_metrics s' = performance_metrics s /\
        signal_timestamps s' = signal_timestamps s).
Proof.
  intros breaker active reason now s. split.
  - intros H. unfold manual_override. rewrite H. reflexivity.
  - intros old_state H s'. subst s'. unfold manual_override. rewrite H.
    cbn [circuit_breakers publish with_breakers events performance_metrics signal_timestamps].
    split; [| split; [| repeat split]].
    + unfold breaker_get, breaker_set in *.
      repeat match goal with
             | |- context [breaker =? ?k] => destruct (breaker =? k); [reflexivity |]
             end.
      discriminate H.
    + intros other Hne. unfold breaker_get, breaker_set in *.
      repeat match goal with
             | |- context [String.eqb breaker ?k] =>
                 destruct (String.eqb_spec breaker k) as [-> | ?];
                 [repeat match goal with
                         | |- context [String.eqb other ?k'] =>
                             destruct (String.eqb_spec other k') as [-> | ?];
                             [reflexivity || congruence |]
                         end; reflexivity |]
             end.
      discriminate H.
Qed.

Lemma manual_override_sets_one_breaker_witness :
  breaker_get "drawdown"
    (circuit_breakers (manual_override "drawdown" true "operator" 0 (init default_settings)))
  = Some true.
Proof.
  apply (proj2 (manual_override_sets_one_breaker "drawdown" true "operator" 0
                  (init default_settings)) false).
  reflexivity.
Defined.

End RiskMoreProperties.

(** ** Risk governor: the daily reset, the deques and the rate limits *)

Section RiskRunProperties.
Import Risk RiskRuns.

(** X14. The daily reset zeroes the daily P&L, its peak and the drawdown and
    clears the emergency breaker only: the other four breakers and the streak
    of consecutive losses stay as they were, so a governor stopped by the
    drawdown or the consecutive-losses breaker still rejects every signal
    after the reset. *)
Theorem daily_reset_clears_only_emergency :
  forall now s,
    let s' := reset_daily_metrics now s in
    (cb_emergency (circuit_breakers s') = false /\
     cb_frequency (circuit_breakers s') = cb_frequency (circuit_breakers s) /\
     cb_quality (circuit_breakers s') = cb_quality (circuit_breakers s) /\
     cb_drawdown (circuit_breakers s') = cb_drawdown (circuit_breakers s) /\
     cb_consecutive_losses (circuit_breakers s')
     = cb_consecutive_losses (circuit_breakers s)) /\
    (daily_pnl (performance_metrics s') = 0%Q /\
     peak_pnl (performance_metrics s') = 0%Q /\
     current_drawdown (performance_metrics s') = 0%Q /\
     consecutive_losses (performance_metrics s')
     = consecutive_losses (performance_metrics s)) /\
    (cb_drawdown (circuit_breakers s) = true
     \/ cb_consecutive_losses (circuit_breakers s) = true ->
     forall signal later,
       fst (fst (evaluate_signal signal later s')) = false /\
       snd (evaluate_signal signal later s') = s').
Proof.
  intros now s s'. subst s'.
  split; [repeat split |]. split; [repeat split |].
  intros H signal later. unfold evaluate_signal.
  assert (Hcb : fst (_check_circuit_breakers (reset_daily_metrics now s)) = false).
  { unfold _check_circuit_breakers, reset_daily_metrics.
    cbn [circuit_breakers with_timestamps with_breakers with_metrics
         cb_emergency cb_frequency cb_quality cb_drawdown cb_consecutive_losses].
    destruct (circuit_breakers s) as [f q d c e].
    cbn [cb_emergency cb_frequency cb_quality cb_drawdown cb_consecutive_losses] in *.
    destruct H as [-> | ->]; destruct f, q; try destruct c; try destruct d; reflexivity. }
  rewrite Hcb. split; reflexivity.
Qed.

Lemma daily_reset_clears_only_emergency_witness :
  fst (fst (evaluate_signal Samples.confluence_alert Samples.noon
              (reset_daily_metrics 0
                 (manual_override "drawdown" true "operator" 0 (init default_settings)))))
  = false.
Proof.
  apply (proj2 (proj2 (daily_reset_clears_only_emergency 0
                  (manual_override "drawdown" true "operator" 0 (init default_settings))))).
  left. reflexivity.
Defined.

Lemma append_for_source_lengths key now t :
  (length (ts_all t) <= 500)%nat -> (length (ts_confluence t) <= 100)%nat ->
  (length (ts_arbitrage t) <= 200)%nat -> (length (ts_tape_reading t) <= 300)%nat ->
  let t' := append_for_source key now t in
  (length (ts_all t') <= 500)%nat /\ (length (ts_confluence t') <= 100)%nat /\
  (length (ts_arbitrage t') <= 200)%nat /\ (length (ts_tape_reading t') <= 300)%nat.
Proof.
  intros H1 H2 H3 H4. unfold append_for_source.
  repeat match goal with
         | |- context [key =? ?k] => destruct (key =? k)
         end;
    cbn [ts_all ts_confluence ts_arbitrage ts_tape_reading];
    repeat split; assumption || apply length_deque_append.
Qed.

Lemma record_signal_approval_within signal assessment now s :
  within_maxlen s -> within_maxlen (_record_signal_approval signal assessment now s).
Proof.
  intros (H1 & H2 & H3 & H4 & H5). unfold within_maxlen, _record_signal_approval.
  cbn [signal_timestamps signal_history publish with_history with_timestamps with_metrics].
  destruct (append_for_source_lengths "all" now (signal_timestamps s) H1 H2 H3 H4)
    as (G1 & G2 & G3 & G4).
  destruct (append_for_source_lengths (source_key (Signal.source signal)) now _ G1 G2 G3 G4)
    as (K1 & K2 & K3 & K4).
  repeat split; try assumption. apply length_deque_append.
Qed.

Lemma evaluate_signal_within signal now s :
  within_maxlen s -> within_maxlen (snd (evaluate_signal signal now s)).
Proof.
  intros H. unfold evaluate_signal.
  destruct (negb _); [exact H |].
  destruct (_check_signal_frequency _ _ _); [exact H |].
  destruct (Qltb _ _); [exact H |].
  destruct (bool_decide _); [exact H |].
  cbn [snd]. apply record_signal_approval_within, H.
Qed.

Lemma call_within c now s : within_maxlen s -> within_maxlen (call c now s).
Proof.
  intros H. destruct c as [signal | signal | trade_pnl | | breaker active reason]; cbn [call].
  - apply evaluate_signal_within, H.
  - unfold _handle_signal_generated.
    pose proof (evaluate_signal_within signal now s H) as H'.
    destruct (evaluate_signal signal now s) as [[ok assessment] s']. cbn [snd] in H'.
    destruct ok; [exact H' | exact H'].
  - exact H.
  - destruct H as (H1 & H2 & H3 & H4 & H5). unfold within_maxlen, reset_daily_metrics.
    cbn [signal_timestamps signal_history with_timestamps with_breakers with_metrics
         ts_all ts_confluence ts_arbitrage ts_tape_reading].
    repeat split; try assumption;
      (eapply Nat.le_trans; [apply length_filter | assumption]).
  - unfold manual_override. destruct (breaker_get _ _); exact H.
Qed.

(** X15. Whatever reaches the governor, in whatever order (candidates to
    evaluate, signals from the bus, closed trades, daily resets, operator
    overrides), the timestamp deques and the signal history never hold more
    than their [maxlen]: 500 for 'all', 100 for 'confluence', 200 for
    'arbitrage', 300 for 'tape_reading' and 1000 for the history. *)
Theorem risk_deques_stay_within_maxlen :
  forall cfg calls,
    let s := call_all calls (init cfg) in
    (length (ts_all (signal_timestamps s)) <= 500)%nat /\
    (length (ts_confluence (signal_timestamps s)) <= 100)%nat /\
    (length (ts_arbitrage (signal_timestamps s)) <= 200)%nat /\
    (length (ts_tape_reading (signal_timestamps s)) <= 300)%nat /\
    (length (signal_history s) <= 1000)%nat.
Proof.
  intros cfg calls s. change (within_maxlen s). subst s.
  assert (H0 : within_maxlen (init cfg)) by (repeat split; cbn; lia).
  revert H0. generalize (init cfg).
  induction calls as [| [c now] rest IH]; intros s0 H0; cbn [call_all]; [exact H0 |].
  apply IH, call_within, H0.
Qed.

Lemma count_after_deque_append bound n d x :
  (count_after bound (deque_append n d x) <= count_after bound d + 1)%Z.
Proof.
  unfold count_after, deque_append.
  set (l := d ++ [x]).
  assert (H : (length (filter (fun ts => bound < ts)%Z (drop (length l - n) l))
               <= length (filter (fun ts => bound < ts)%Z l))%nat).
  { generalize (length l - n)%nat. intros k.
    rewrite <- (take_drop k l) at 2. rewrite filter_app, length_app. lia. }
  assert (H' : (length (filter (fun ts => bound < ts)%Z l)
                <= length (filter (fun ts => bound < ts)%Z d) + 1)%nat).
  { unfold l. rewrite filter_app, length_app.
    pose proof (length_filter (fun ts => bound < ts)%Z [x]) as Hx. cbn [length] in Hx. lia. }
  lia.
Qed.

(** X16. The rate limits hold after every approval: when [evaluate_signal]
    approves a signal at [now], the approvals recorded in the 'all' deque for
    the last minute, the new one included, are at most
    [max_signals_per_minute], and those for the last hour at most
    [max_signals_per_hour]. *)
Theorem approvals_respect_rate_limits :
  forall signal now s assessment s',
    evaluate_signal signal now s = (true, assessment, s') ->
    (count_after (now - seconds 60) (ts_all (signal_timestamps s'))
     <= max_signals_per_minute s')%Z /\
    (count_after (now - seconds 3600) (ts_all (signal_timestamps s'))
     <= max_signals_per_hour s')%Z.
Proof.
  intros signal now s assessment s' H. unfold evaluate_signal in H.
  destruct (negb _); [discriminate H |].
  destruct (_check_signal_frequency signal now s) eqn:Hfreq; [discriminate H |].
  destruct (Qltb _ _); [discriminate H |].
  destruct (bool_decide _); [discriminate H |].
  injection H as _ <-.
  unfold _check_signal_frequency in Hfreq.
  destruct (Z.leb_spec (max_signals_per_minute s)
              (count_after (now - seconds 60) (ts_all (signal_timestamps s))));
    [discriminate Hfreq |].
  destruct (Z.leb_spec (max_signals_per_hour s)
              (count_after (now - seconds 3600) (ts_all (signal_timestamps s))));
    [discriminate Hfreq |].
  clear Hfreq.
  assert (Hall : forall bound,
             (count_after bound
                (ts_all (signal_timestamps (_record_signal_approval signal
                   (mkAssessment true (ctx_level (_evaluate_contextual_risk signal now s))
                      (q_rating (_evaluate_signal_quality signal)) []
                      (_get_risk_recommendations (_evaluate_signal_quality signal)) now)
                   now s)))
              <= count_after bound (ts_all (signal_timestamps s)) + 1)%Z).
  { intros bound. unfold _record_signal_approval.
    cbn [signal_timestamps publish with_history with_timestamps with_metrics].
    unfold append_for_source at 2. cbn ["=?" Ascii.eqb Bool.eqb].
    unfold append_for_source.
    destruct (source_key (Signal.source signal) =? "all") eqn:E.
    { destruct (Signal.source signal); discriminate E. }
    repeat match goal with
           | |- context [source_key ?a =? ?k] => destruct (source_key a =? k)
           end;
      cbn [ts_all]; apply count_after_deque_append. }
  split.
  - etransitivity; [apply Hall |].
    unfold _record_signal_approval; cbn [max_signals_per_minute publish with_history
      with_timestamps with_metrics]. lia.
  - etransitivity; [apply Hall |].
    unfold _record_signal_approval; cbn [max_signals_per_hour publish with_history
      with_timestamps with_metrics]. lia.
Qed.

Lemma approvals_respect_rate_limits_witness :
  exists assessment s',
    evaluate_signal Samples.confluence_alert Samples.noon (init default_settings)
    = (true, assessment, s') /\
    (count_after (Samples.noon - seconds 60) (ts_all (signal_timestamps s'))
     <= max_signals_per_minute s')%Z.
Proof.
  assert (H : exists assessment s',
             evaluate_signal Samples.confluence_alert Samples.noon (init default_settings)
             = (true, assessment, s')) by (vm_compute; eauto).
  destruct H as (a & s' & H). exists a, s'. split; [exact H |].
  apply (proj1 (approvals_respect_rate_limits _ _ _ _ _ H)).
Defined.

End RiskRunProperties.

(** ** Positions: prices, stops and targets *)

Section PositionPriceProperties.
Import Positions PositionQueries.

Lemma py_max_ge_l a b : (a <= py_max a b)%Q.
Proof.
  unfold py_max. destruct (Qgtb b a) eqn:E; [| apply Qle_refl].
  apply Qgtb_true in E. apply Qlt_le_weak, E.
Qed.

Lemma py_min_le_l a b : (py_min a b <= a)%Q.
Proof.
  unfold py_min. destruct (Qltb b a) eqn:E; [| apply Qle_refl].
  apply Qltb_true in E. apply Qlt_le_weak, E.
Qed.

(** X17. [update_price] with a number never fails and keeps the excursions in
    step with the running P&L: afterwards [max_loss <= pnl <= max_profit],
    the best excursion has not gone down and the worst has not gone up; the
    P&L is the distance from the entry, in the direction of the position,
    times the size times 10. *)
Theorem update_price_tracks_excursions :
  forall price p,
    let p' := final_state (Position.update_price (Some price) p) in
    Position.update_price (Some price) p = Returned tt p' /\
    Position.current_price p' = Some price /\
    Position.pnl p'
    = ((if Position.direction p =? "COMPRA"
        then price - Position.entry_price p else Position.entry_price p - price)
       * inject_Z (Position.size p) * 10)%Q /\
    (Position.max_loss p' <= Position.pnl p')%Q /\
    (Position.pnl p' <= Position.max_profit p')%Q /\
    (Position.max_profit p <= Position.max_profit p')%Q /\
    (Position.max_loss p' <= Position.max_loss p)%Q.
Proof.
  intros price p p'. subst p'. unfold Position.update_price.
  cbn [final_state Position.set_pnl Position.set_current_price Position.current_price
       Position.pnl Position.max_loss Position.max_profit Position.direction
       Position.entry_price Position.size].
  split; [reflexivity |]. split; [reflexivity |]. split; [reflexivity |].
  split; [apply py_min_le_r |]. split; [apply py_max_ge_r |].
  split; [apply py_max_ge_l | apply py_min_le_l].
Qed.

(** X18. Neither way of moving a stop ever loosens it: after [_tighten_stop]
    (whatever the factor) and after [_update_trailing_stop] the stop of a buy
    is at or above where it was and the stop of any other position at or
    below. *)
Theorem stops_are_never_loosened :
  forall m factor p,
    let tightened := Position.stop_loss (_tighten_stop factor p) in
    let trailed := Position.stop_loss (_update_trailing_stop m p) in
    if Position.direction p =? "COMPRA"
    then (Position.stop_loss p <= tightened)%Q /\ (Position.stop_loss p <= trailed)%Q
    else (tightened <= Position.stop_loss p)%Q /\ (trailed <= Position.stop_loss p)%Q.
Proof.
  intros m factor p. cbv zeta. unfold _tighten_stop, _update_trailing_stop.
  destruct (Position.direction p =? "COMPRA") eqn:Hdir.
  - split; [cbn [Position.stop_loss Position.set_stop_loss]; apply py_max_ge_l |].
    destruct (Position.current_price p) as [price |]; [| apply Qle_refl].
    destruct (Qgtb _ _) eqn:E; [| apply Qle_refl].
    cbn [Position.stop_loss Position.set_stop_loss].
    apply Qgtb_true in E. apply Qlt_le_weak, E.
  - split; [cbn [Position.stop_loss Position.set_stop_loss]; apply py_min_le_l |].
    destruct (Position.current_price p) as [price |]; [| apply Qle_refl].
    destruct (Qltb _ _) eqn:E; [| apply Qle_refl].
    cbn [Position.stop_loss Position.set_stop_loss].
    apply Qltb_true in E. apply Qlt_le_weak, E.
Qed.

Lemma first_target_hit_spec buy price ts :
  forall i,
    match Position.first_target_hit buy price i ts with
    | Some k =>
        exists target,
          (i <= k)%nat /\ ts !! (k - i)%nat = Some target /\ beyond buy price target = true /\
          (forall j earlier, (j < k - i)%nat -> ts !! j = Some earlier ->
                             beyond buy price earlier = false)
    | None => forall target, target ∈ ts -> beyond buy price target = false
    end.
Proof.
  induction ts as [| t ts IH]; intros i; cbn [Position.first_target_hit].
  - intros target H. apply not_elem_of_nil in H. contradiction.
  - change (if buy then Qgeb price t else Qleb price t) with (beyond buy price t).
    destruct (beyond buy price t) eqn:Ht.
    + exists t. rewrite Nat.sub_diag. repeat split; [lia | exact Ht |].
      intros j earlier Hj. lia.
    + specialize (IH (S i)).
      destruct (Position.first_target_hit buy price (S i) ts) as [k |].
      * destruct IH as (target & Hle & Hk & Hhit & Hbefore).
        exists target. split; [lia |].
        replace (k - i)%nat with (S (k - S i)) by lia.
        split; [exact Hk |]. split; [exact Hhit |].
        intros [| j] earlier Hj Hlook.
        -- cbn in Hlook. injection Hlook as <-. exact Ht.
        -- cbn in Hlook. apply (Hbefore j); [lia | exact Hlook].
      * intros target Hin. apply elem_of_cons in Hin as [-> | Hin]; [exact Ht |].
        apply IH, Hin.
Qed.

(** X19. [check_targets] on a position that has a current price reports the
    first target reached, counting from 0: the target at the reported index
    is reached (price at or above it for a buy, at or below it otherwise)
    and none before it is; [None] is reported exactly when no target is
    reached.  It does not fail. *)
Theorem check_targets_reports_first_reached :
  forall p price,
    Position.current_price p = Some price ->
    let reached := beyond (Position.direction p =? "COMPRA") price in
    match Position.check_targets p with
    | Some (Some i) =>
        exists target,
          Position.targets p !! i = Some target /\ reached target = true /\
          (forall j earlier, (j < i)%nat -> Position.targets p !! j = Some earlier ->
                             reached earlier = false)
    | Some None => forall target, target ∈ Position.targets p -> reached target = false
    | None => False
    end.
Proof.
  intros p price Hprice reached. subst reached. unfold Position.check_targets.
  rewrite Hprice.
  destruct (Position.targets p) as [| t ts] eqn:Hts.
  - intros target H. apply not_elem_of_nil in H. contradiction.
  - pose proof (first_target_hit_spec (Position.direction p =? "COMPRA") price (t :: ts) 0)
      as H.
    destruct (Position.first_target_hit _ price 0 (t :: ts)) as [k |].
    + destruct H as (target & _ & Hk & Hhit & Hbefore).
      rewrite Nat.sub_0_r in Hk, Hbefore. exists target. auto.
    + exact H.
Qed.

Lemma check_targets_reports_first_reached_witness :
  let p := Position.mk "POS_WDO_20240102_100000" "sig-1" "WDO" "COMPRA" 5000 0 1 4990
             [5020%Q; 5040%Q] (Some 5030%Q) 300 30 "OPEN" None None None 300 0 [] in
  exists target,
    Position.targets p !! 0%nat = Some target /\
    beyond true 5030 target = true /\
    (forall j earlier, (j < 0)%nat -> Position.targets p !! j = Some earlier ->
                       beyond true 5030 earlier = false).
Proof.
  intros p.
  exact (check_targets_reports_first_reached p 5030 eq_refl).
Defined.

End PositionPriceProperties.

(** ** Positions: opening, closing and the books *)

Section PositionBookProperties.
Import Positions PositionQueries.

Lemma dict_get_set p d : dict_get (Position.id p) (dict_set p d) = Some p.
Proof.
  induction d as [| q d IH]; cbn.
  - rewrite String.eqb_refl. reflexivity.
  - destruct (Position.id q =? Position.id p) eqn:E; cbn.
    + rewrite String.eqb_refl. reflexivity.
    + rewrite E. exact IH.
Qed.

Lemma length_dict_set_present p d :
  is_Some (dict_get (Position.id p) d) -> length (dict_set p d) = length d.
Proof.
  induction d as [| q d IH]; cbn; [intros [? [=]] |].
  destruct (Position.id q =? Position.id p); cbn; [reflexivity |].
  intros H. rewrite (IH H). reflexivity.
Qed.

Lemma length_dict_del_present key d :
  is_Some (dict_get key d) -> (S (length (dict_del key d)) <= length d)%nat.
Proof.
  unfold dict_del. induction d as [| q d IH]; cbn [dict_get]; [intros [? [=]] |].
  rewrite filter_cons.
  destruct (String.eqb_spec (Position.id q) key) as [Heq | Hne].
  - intros _. destruct (decide (Position.id q <> key)) as [Hq | _]; [contradiction |].
    pose proof (length_filter (fun q => Position.id q <> key) d). cbn [length]. lia.
  - intros H. destruct (decide (Position.id q <> key)) as [_ | Hq]; [| contradiction].
    specialize (IH H). cbn [length]. lia.
Qed.

(** X20. Opening and looking up: when the ceiling allows it, [_open_position]
    files a position that [get_position_by_signal] then finds under the id of
    the signal.  The position has the symbol, direction, stop and targets of
    the signal, is entered at the execution price when there is one that is
    not zero and at the entry price otherwise, is OPEN with no P&L, and is the
    one announced by the POSITION_OPENED event; the count of opened positions
    goes up by one. *)
Theorem opened_position_is_found_by_its_signal :
  forall signal now stamp m,
    can_open_position m = true ->
    let m' := _open_position signal now stamp m in
    exists position,
      get_position_by_signal (StrategicSignal.id signal) m' = Some position /\
      Position.id position = ("POS_" ++ StrategicSignal.symbol signal ++ "_" ++ stamp)%string /\
      Position.signal_id position = StrategicSignal.id signal /\
      Position.symbol position = StrategicSignal.symbol signal /\
      Position.direction position = StrategicSignal.direction signal /\
      Position.stop_loss position = StrategicSignal.stop_loss signal /\
      Position.targets position = StrategicSignal.targets signal /\
      Position.entry_price position
      = py_or (StrategicSignal.execution_price signal) (StrategicSignal.entry_price signal) /\
      Position.current_price position = Some (Position.entry_price position) /\
      Position.size position = _calculate_position_size signal m /\
      Position.status position = "OPEN" /\
      Position.pnl position = 0.0%Q /\
      Position.warnings_received position = [] /\
      last (events m') = Some (POSITION_OPENED position signal) /\
      total_opened (stats m') = (total_opened (stats m) + 1)%Z.
Proof.
  intros signal now stamp m Hopen m'. subst m'. unfold _open_position.
  rewrite Hopen. cbn [negb].
  eexists. split.
  - unfold get_position_by_signal.
    cbn [signal_to_position positions publish with_stats with_signal_to_position
         with_positions].
    rewrite lookup_insert_eq.
    match goal with |- (if ?c then _ else _) = _ =>
      change c with false; cbv iota end.
    match goal with |- dict_get ?k (dict_set ?p ?d) = _ =>
      exact (dict_get_set p d) end.
  - cbn [Position.id Position.signal_id Position.symbol Position.direction
         Position.stop_loss Position.targets Position.entry_price Position.current_price
         Position.size Position.status Position.pnl Position.warnings_received
         events publish stats with_stats total_opened].
    repeat match goal with |- _ /\ _ => split end; try reflexivity.
    apply last_snoc.
Qed.

Lemma opened_position_is_found_by_its_signal_witness :
  exists position,
    get_position_by_signal "sig-1"
      (_open_position Samples.wdo_buy 0 "20240102_100000"
         (init (mkSettings None None None None None)))
    = Some position /\
    Position.id position = "POS_WDO_20240102_100000".
Proof.
  destruct (opened_position_is_found_by_its_signal Samples.wdo_buy 0 "20240102_100000"
              (init (mkSettings None None None None None)) eq_refl)
    as (position & Hfound & Hid & _).
  exists position. split; [exact Hfound | exact Hid].
Defined.

(** X21. Position ids have a resolution of one second: when two signals on
    the same symbol are opened with the same time stamp, the second position
    takes the place of the first in the dict.  Two positions are counted as
    opened but the dict has grown by at most one, and looking up the first
    signal now yields the position of the second. *)
Theorem same_second_positions_collide :
  forall first second now later stamp m,
    StrategicSignal.symbol first = StrategicSignal.symbol second ->
    can_open_position m = true ->
    let m1 := _open_position first now stamp m in
    can_open_position m1 = true ->
    let m2 := _open_position second later stamp m1 in
    length (positions m2) = length (positions m1) /\
    total_opened (stats m2) = (total_opened (stats m) + 2)%Z /\
    exists position,
      get_position_by_signal (StrategicSignal.id first) m2 = Some position /\
      get_position_by_signal (StrategicSignal.id second) m2 = Some position /\
      Position.signal_id position = StrategicSignal.id second /\
      Position.entry_time position = later.
Proof.
  intros first second now later stamp m Hsym Hopen m1 Hopen1 m2.
  assert (Hpos1 : exists p1,
             positions m1 = dict_set p1 (positions m) /\
             Position.id p1 = ("POS_" ++ StrategicSignal.symbol first ++ "_" ++ stamp)%string /\
             signal_to_position m1
             = <[StrategicSignal.id first := Position.id p1]> (signal_to_position m) /\
             total_opened (stats m1) = (total_opened (stats m) + 1)%Z).
  { subst m1. unfold _open_position. rewrite Hopen. cbn [negb].
    eexists. split; [reflexivity |]. split; [reflexivity |]. split; reflexivity. }
  destruct Hpos1 as (p1 & Hp1 & Hid1 & Hmap1 & Hcount1).
  assert (Hpos2 : exists p2,
             positions m2 = dict_set p2 (positions m1) /\
             Position.id p2 = ("POS_" ++ StrategicSignal.symbol second ++ "_" ++ stamp)%string /\
             Position.signal_id p2 = StrategicSignal.id second /\
             Position.entry_time p2 = later /\
             signal_to_position m2
             = <[StrategicSignal.id second := Position.id p2]> (signal_to_position m1) /\
             total_opened (stats m2) = (total_opened (stats m1) + 1)%Z).
  { subst m2. unfold _open_position. rewrite Hopen1. cbn [negb].
    eexists. split; [reflexivity |].
    repeat match goal with |- _ /\ _ => split end; reflexivity. }
  destruct Hpos2 as (p2 & Hp2 & Hid2 & Hsig2 & Htime2 & Hmap2 & Hcount2).
  assert (Hsame : Position.id p2 = Position.id p1) by (rewrite Hid1, Hid2, Hsym; reflexivity).
  assert (Hne : (Position.id p2 =? "") = false) by (rewrite Hid2; reflexivity).
  split; [| split].
  - rewrite Hp2. apply length_dict_set_present.
    rewrite Hp1, Hsame. rewrite dict_get_set. eauto.
  - rewrite Hcount2, Hcount1. lia.
  - exists p2. unfold get_position_by_signal. rewrite Hmap2, Hmap1, Hp2.
    split; [| split; [| split; [exact Hsig2 | exact Htime2]]].
    + destruct (decide (StrategicSignal.id second = StrategicSignal.id first)) as [Heq | Hdiff].
      * rewrite Heq, lookup_insert_eq, Hne. apply dict_get_set.
      * rewrite lookup_insert_ne by exact Hdiff. rewrite lookup_insert_eq.
        rewrite <- Hsame, Hne. apply dict_get_set.
    + rewrite lookup_insert_eq, Hne. apply dict_get_set.
Qed.

Lemma same_second_positions_collide_witness :
  length (positions
            (_open_position Samples.wdo_buy (seconds 10) "20240102_100000"
               (_open_position Samples.wdo_buy 0 "20240102_100000"
                  (init (mkSettings None None None None None)))))
  = length (positions
              (_open_position Samples.wdo_buy 0 "20240102_100000"
                 (init (mkSettings None None None None None)))).
Proof.
  apply (same_second_positions_collide Samples.wdo_buy Samples.wdo_buy 0 (seconds 10)
           "20240102_100000" (init (mkSettings None None None None None)) eq_refl eq_refl
           eq_refl).
Defined.

End PositionBookProperties.

(** ** Positions: the books over any run of deliveries *)

Section PositionRunProperties.
Import Positions PositionQueries.

Lemma accounted_refl m : accounted m m.
Proof. unfold accounted. cbv zeta. repeat split; lia. Qed.

Lemma accounted_trans m1 m2 m3 : accounted m1 m2 -> accounted m2 m3 -> accounted m1 m3.
Proof. unfold accounted. cbv zeta. intros H1 H2. repeat split; lia. Qed.

Lemma accounted_positions m d :
  length d = length (positions m) -> accounted m (with_positions d m).
Proof. intros H. unfold accounted. cbn. rewrite H. repeat split; lia. Qed.

Lemma accounted_close position reason exit_price now m :
  accounted m (final_state (_close_position position reason exit_price now m)).
Proof.
  unfold _close_position.
  destruct (Position.update_price exit_price _) as [[] p | e p]; cbn [final_state].
  - destruct (dict_get (Position.id p) (positions m)) as [q |] eqn:Hq; cbn [final_state];
      [| apply accounted_refl].
    pose proof (length_dict_del_present (Position.id p) (positions m)
                  ltac:(rewrite Hq; eauto)) as Hlen.
    unfold accounted.
    assert (Hpos : forall m0 : PositionManager,
               positions (match signal_to_position m0 !! Position.signal_id p with
                          | Some _ => with_signal_to_position
                                        (delete (Position.signal_id p) (signal_to_position m0)) m0
                          | None => m0
                          end) = positions m0
               /\ stats (match signal_to_position m0 !! Position.signal_id p with
                         | Some _ => with_signal_to_position
                                       (delete (Position.signal_id p) (signal_to_position m0)) m0
                         | None => m0
                         end) = stats m0)
      by (intros m0; destruct (_ !! _); split; reflexivity).
    cbn [stats positions publish with_stats with_closed].
    rewrite (proj1 (Hpos _)), (proj2 (Hpos _)).
    cbn [stats positions with_positions total_opened total_closed win_count loss_count
         total_stopped total_target_hit].
    destruct (reason =? "STOP_LOSS"); cbn [negb andb];
      destruct (Qgtb (Position.pnl p) 0); try destruct (starts_with_TARGET reason);
      repeat match goal with |- _ /\ _ => split end; lia.
  - apply accounted_positions, length_dict_mutate.
Qed.

(** Every handler but the one that opens a position is made of rewrites of
    the dict that keep its size and of calls of [_close_position]. *)
Section Handlers.
Variable R : PositionManager -> PositionManager -> Prop.
Hypothesis R_refl : forall m, R m m.
Hypothesis R_trans : forall m1 m2 m3, R m1 m2 -> R m2 m3 -> R m1 m3.
Hypothesis R_positions :
  forall m d, length d = length (positions m) -> R m (with_positions d m).
Hypothesis R_close :
  forall position reason exit_price now m,
    R m (final_state (_close_position position reason exit_price now m)).

Lemma warn_positions_related todo symbol direction warning now m :
  R m (final_state (warn_positions todo symbol direction warning now m)).
Proof.
  revert m. induction todo as [| p todo IH]; intros m; cbn [warn_positions];
    [apply R_refl |].
  destruct (_ && _); [| apply IH].
  set (m1 := with_positions _ m).
  assert (H1 : R m m1) by (apply R_positions, length_dict_mutate).
  destruct (_ && auto_manage m1).
  - pose proof (R_close (Position.add_warning warning p) "MULTIPLE_WARNINGS"
                  (Position.current_price (Position.add_warning warning p)) now m1) as H2.
    destruct (_close_position _ _ _ _ m1); cbn [final_state] in *;
      exact (R_trans _ _ _ H1 H2).
  - exact (R_trans _ _ _ H1 (IH m1)).
Qed.

Lemma check_positions_related todo current_price now m :
  R m (final_state (check_positions todo current_price now m)).
Proof.
  revert m. induction todo as [| p todo IH]; intros m; cbn [check_positions];
    [apply R_refl |].
  destruct (Position.update_price (Some current_price) p) as [[] p1 | e p1];
    cbn [final_state]; [| apply R_positions, length_dict_mutate].
  set (m1 := with_positions _ m).
  assert (H1 : R m m1) by (apply R_positions, length_dict_mutate).
  destruct (Position.should_stop p1) as [[|] |]; cbn [final_state]; [| | exact H1].
  - pose proof (R_close p1 "STOP_LOSS" (Some current_price) now m1) as H2.
    destruct (_close_position _ _ _ _ m1) as [[] m2 | e m2]; cbn [final_state] in *.
    + exact (R_trans _ _ _ (R_trans _ _ _ H1 H2) (IH m2)).
    + exact (R_trans _ _ _ H1 H2).
  - destruct (Position.check_targets p1) as [[i |] |]; cbn [final_state]; [| | exact H1].
    + pose proof (R_close p1 ("TARGET_" ++ pretty (i + 1)%nat)%string
                    (Some current_price) now m1) as H2.
      destruct (_close_position _ _ _ _ m1) as [[] m2 | e m2]; cbn [final_state] in *.
      * exact (R_trans _ _ _ (R_trans _ _ _ H1 H2) (IH m2)).
      * exact (R_trans _ _ _ H1 H2).
    + eapply R_trans; [| apply IH].
      destruct (_ && _); [| exact H1].
      refine (R_trans _ _ _ H1 _). apply R_positions, length_dict_mutate.
Qed.

Lemma update_symbols_related todo now m :
  R m (final_state (update_symbols todo now m)).
Proof.
  revert m. induction todo as [| d todo IH]; intros m; cbn [update_symbols];
    [apply R_refl |].
  destruct (MarketSymbolData.trades d) as [| first trades]; [apply IH |].
  match goal with |- context [check_positions ?t ?c now m] =>
    pose proof (check_positions_related t c now m) as H1;
    destruct (check_positions t c now m) as [[] m1 | e m1] end; cbn [final_state] in *.
  - exact (R_trans _ _ _ H1 (IH m1)).
  - exact H1.
Qed.

Lemma close_each_related todo reason now m :
  R m (final_state (close_each todo reason now m)).
Proof.
  revert m. induction todo as [| p todo IH]; intros m; cbn [close_each];
    [apply R_refl |].
  pose proof (R_close p reason (Position.current_price p) now m) as H1.
  destruct (_close_position _ _ _ _ m) as [[] m1 | e m1]; cbn [final_state] in *.
  - exact (R_trans _ _ _ H1 (IH m1)).
  - exact H1.
Qed.

Lemma handle_related d now stamp m :
  R m (final_state (handle d now stamp m)) \/
  exists signal,
    can_open_position m = true /\
    final_state (handle d now stamp m) = _open_position signal now stamp m.
Proof.
  destruct d as [data | signal | signal | symbol | market_data | breaker new_state];
    cbn [handle].
  - unfold _handle_signal_state_changed.
    destruct (sc_signal data) as [signal |]; [| left; apply R_refl].
    destruct (bool_decide _ && can_open_position m) eqn:E.
    { right. exists signal. apply andb_prop in E as [_ E]. split; [exact E | reflexivity]. }
    left.
    destruct (_ !! _) as [pid |]; [| apply R_refl].
    destruct (dict_get pid (positions m)) as [p |]; [| apply R_refl].
    destruct (sc_new_state data); try apply R_refl; apply R_close.
  - left. unfold _handle_signal_expired.
    destruct signal as [signal |]; [| apply R_refl].
    destruct (_ !! _) as [pid |]; [| apply R_refl].
    destruct (dict_get pid (positions m)) as [p |]; [| apply R_refl].
    destruct (Qltb _ _); [apply R_close | apply R_refl].
  - left. unfold _handle_divergence_warning.
    destruct (divergence_event _); [| apply R_refl].
    apply warn_positions_related.
  - left. unfold _handle_manipulation_warning.
    destruct symbol as [symbol |]; [| apply R_refl].
    destruct (symbol =? ""); [apply R_refl |].
    cbn [final_state]. apply R_positions, length_map.
  - left. apply update_symbols_related.
  - left. unfold _handle_risk_override.
    destruct (_ && _); [| apply R_refl].
    apply close_each_related.
Qed.

End Handlers.

Lemma balanced_accounted m m' : balanced m -> accounted m m' -> balanced m'.
Proof. unfold balanced, accounted. cbv zeta. intros H1 H2. repeat split; lia. Qed.

Lemma balanced_open signal now stamp m :
  balanced m -> balanced (_open_position signal now stamp m).
Proof.
  unfold balanced, _open_position. cbv zeta. intros H.
  destruct (negb (can_open_position m)); [exact H |].
  cbn [stats positions publish with_stats with_signal_to_position with_positions
       total_opened total_closed win_count loss_count total_stopped total_target_hit].
  match goal with |- context [dict_set ?p ?d] => pose proof (length_dict_set p d) end.
  repeat split; lia.
Qed.

(** X22. The books of the position manager balance after any run of
    deliveries (each handled to its end or to the exception the bus catches):
    every close is counted once as a win or as a loss, stops and target hits
    together never exceed the closes, and the positions still open plus those
    closed never exceed those opened. *)
Theorem position_books_balance :
  forall cfg ds,
    let m := deliver_all ds (init cfg) in
    (total_closed (stats m) = win_count (stats m) + loss_count (stats m))%Z /\
    (total_stopped (stats m) + total_target_hit (stats m) <= total_closed (stats m))%Z /\
    (Z.of_nat (length (positions m)) + total_closed (stats m) <= total_opened (stats m))%Z.
Proof.
  intros cfg ds m.
  assert (Hm : balanced m).
  { subst m.
    assert (H0 : balanced (init cfg)) by (unfold balanced; cbn; repeat split; lia).
    revert H0. generalize (init cfg).
    induction ds as [| [[d now] stamp] rest IH]; intros m0 H0; cbn [deliver_all];
      [exact H0 |].
    apply IH.
    destruct (handle_related accounted accounted_refl accounted_trans accounted_positions
                accounted_close d now stamp m0) as [H | (signal & _ & ->)].
    - exact (balanced_accounted _ _ H0 H).
    - apply balanced_open, H0. }
  unfold balanced in Hm. cbv zeta in Hm. repeat split; lia.
Qed.

End PositionRunProperties.

(** ** Positions: ticks, stops and the emergency stop *)

Section PositionTickProperties.
Import Positions PositionQueries.

(** What [_close_position] does to the manager when the price is known and
    the position is in the dict. *)
Lemma close_position_books position reason price now m :
  is_Some (dict_get (Position.id position) (positions m)) ->
  exists m',
    _close_position position reason (Some price) now m = Returned tt m' /\
    positions m' = dict_del (Position.id position) (positions m) /\
    signal_to_position m' = delete (Position.signal_id position) (signal_to_position m) /\
    closed_positions m'
    = deque_append 100 (closed_positions m) (closed_at position reason price now) /\
    events m' = events m ++ [POSITION_CLOSED (closed_at position reason price now) reason
                               (Position.pnl (closed_at position reason price now))] /\
    total_closed (stats m') = (total_closed (stats m) + 1)%Z /\
    total_stopped (stats m')
    = (if reason =? "STOP_LOSS"
       then (total_stopped (stats m) + 1)%Z else total_stopped (stats m)) /\
    total_target_hit (stats m')
    = (if negb (reason =? "STOP_LOSS") && starts_with_TARGET reason
       then (total_target_hit (stats m) + 1)%Z else total_target_hit (stats m)).
Proof.
  intros [q Hq]. unfold _close_position. cbn [Position.update_price].
  cbn [Position.id Position.signal_id Position.set_pnl Position.set_current_price
       Position.set_exit].
  rewrite Hq. eexists. split; [reflexivity |].
  split; [destruct (_ !! _); reflexivity |].
  split.
  { cbn [with_positions signal_to_position].
    destruct (signal_to_position m !! Position.signal_id position) eqn:Hmap;
      [reflexivity | symmetry; apply delete_id, Hmap]. }
  split; [destruct (_ !! _); reflexivity |].
  split; [destruct (_ !! _); reflexivity |].
  split; [destruct (_ !! _); reflexivity |].
  split; [destruct (_ !! _); cbn; destruct (reason =? "STOP_LOSS"); reflexivity |].
  destruct (_ !! _); cbn; destruct (negb (reason =? "STOP_LOSS") && starts_with_TARGET reason);
    reflexivity.
Qed.

Lemma elem_of_dict_del q key d :
  q ∈ dict_del key d <-> q ∈ d /\ Position.id q <> key.
Proof. unfold dict_del. rewrite list_elem_of_filter. tauto. Qed.

Lemma dict_get_elem_of p d : p ∈ d -> is_Some (dict_get (Position.id p) d).
Proof.
  induction d as [| q d IH]; intros H; [apply not_elem_of_nil in H; contradiction |].
  cbn. destruct (Position.id q =? Position.id p) eqn:E; [eauto |].
  apply elem_of_cons in H as [-> | H]; [| apply IH, H].
  rewrite String.eqb_refl in E. discriminate E.
Qed.

Lemma close_position_keeps_unlinked position reason exit_price now m key :
  signal_to_position m !! key = None ->
  signal_to_position (final_state (_close_position position reason exit_price now m)) !! key
  = None.
Proof.
  intros H. unfold _close_position.
  destruct (Position.update_price exit_price _) as [[] p | e p]; cbn [final_state];
    [| exact H].
  destruct (dict_get (Position.id p) (positions m)); cbn [final_state]; [| exact H].
  cbn [signal_to_position publish with_stats with_closed].
  destruct (signal_to_position (with_positions _ m) !! Position.signal_id p) eqn:E;
    cbn [signal_to_position with_signal_to_position with_positions] in *; [| exact H].
  destruct (decide (Position.signal_id p = key)) as [-> | Hne]; [apply lookup_delete_eq |].
  rewrite lookup_delete_ne by exact Hne. exact H.
Qed.

Lemma close_each_keeps_unlinked reason now key todo :
  forall m,
    signal_to_position m !! key = None ->
    signal_to_position (final_state (close_each todo reason now m)) !! key = None.
Proof.
  induction todo as [| p todo IH]; intros m H; cbn [close_each]; [exact H |].
  pose proof (close_position_keeps_unlinked p reason (Position.current_price p) now m key H)
    as H1.
  destruct (_close_position _ _ _ _ m) as [[] m1 | e m1]; cbn [final_state] in *.
  - apply IH, H1.
  - exact H1.
Qed.

Lemma close_each_closes_all reason now todo :
  forall m,
    NoDup (map Position.id todo) ->
    Forall (fun p => is_Some (Position.current_price p)) todo ->
    (forall p, p ∈ todo -> is_Some (dict_get (Position.id p) (positions m))) ->
    exists m',
      close_each todo reason now m = Returned tt m' /\
      (forall q, q ∈ positions m' -> q ∈ positions m /\ Position.id q ∉ map Position.id todo) /\
      (forall p, p ∈ todo -> signal_to_position m' !! Position.signal_id p = None) /\
      total_closed (stats m') = (total_closed (stats m) + Z.of_nat (length todo))%Z /\
      (length (events m') = length (events m) + length todo)%nat.
Proof.
  induction todo as [| p todo IH]; intros m Hnodup Hprice Hin; cbn [close_each].
  - exists m. split; [reflexivity |]. split; [| split; [| split; [cbn; lia | cbn; lia]]].
    + intros q Hq. split; [exact Hq | apply not_elem_of_nil].
    + intros p Hp. apply not_elem_of_nil in Hp. contradiction.
  - cbn [map] in Hnodup. apply NoDup_cons in Hnodup as [Hfresh Hnodup].
    apply Forall_cons in Hprice as [[price Hp] Hprice]. rewrite Hp.
    destruct (close_position_books p reason price now m (Hin p ltac:(left)))
      as (m1 & -> & Hpos1 & Hmap1 & _ & Hev1 & Hclosed1 & _ & _).
    destruct (IH m1 Hnodup Hprice) as (m' & Hrun & Hpos' & Hmap' & Hclosed' & Hev').
    { intros q Hq. rewrite Hpos1.
      destruct (Hin q ltac:(right; exact Hq)) as [found Hfound].
      rewrite dict_get_del_ne; [eauto |].
      intros Heq. apply Hfresh. rewrite <- Heq. apply list_elem_of_fmap_2, Hq. }
    exists m'. split; [exact Hrun |]. split; [| split; [| split]].
    + intros q Hq. destruct (Hpos' q Hq) as [Hq1 Hq2].
      rewrite Hpos1 in Hq1. apply elem_of_dict_del in Hq1 as [Hq1 Hne].
      split; [exact Hq1 |]. cbn [map]. apply not_elem_of_cons. split; assumption.
    + intros q Hq. apply elem_of_cons in Hq as [-> | Hq]; [| apply Hmap', Hq].
      (* the entry of [p] was deleted first, and closing never adds one *)
      pose proof (close_each_keeps_unlinked reason now (Position.signal_id p) todo m1) as Hk.
      rewrite Hrun in Hk. apply Hk. rewrite Hmap1. apply lookup_delete_eq.
    + rewrite Hclosed', Hclosed1. cbn [length]. lia.
    + rewrite Hev', Hev1, length_app. cbn [length]. lia.
Qed.

(** X23. The emergency stop: a RISK_OVERRIDE that sets the 'emergency'
    breaker closes every open position, provided each has a current price
    (the keys of the dict being distinct): the dict of open positions is left
    empty, no signal of a closed position is linked to a position any more,
    and one close is counted and one POSITION_CLOSED event published per
    position.  An override of another breaker, or one that clears the
    breaker, changes nothing. *)
Theorem emergency_override_closes_every_position :
  forall now m,
    NoDup (map Position.id (positions m)) ->
    Forall (fun p => is_Some (Position.current_price p)) (positions m) ->
    (exists m',
        _handle_risk_override "emergency" true now m = Returned tt m' /\
        positions m' = [] /\
        (forall p, p ∈ positions m -> get_position_by_signal (Position.signal_id p) m' = None) /\
        total_closed (stats m')
        = (total_closed (stats m) + Z.of_nat (length (positions m)))%Z /\
        (length (events m') = length (events m) + length (positions m))%nat) /\
    (forall breaker new_state,
        breaker <> "emergency" \/ new_state = false ->
        _handle_risk_override breaker new_state now m = Returned tt m).
Proof.
  intros now m Hnodup Hprice. split.
  - unfold _handle_risk_override, close_all_positions. cbn [String.eqb Ascii.eqb Bool.eqb andb].
    destruct (close_each_closes_all "EMERGENCY_STOP" now (positions m) m Hnodup Hprice)
      as (m' & Hrun & Hpos & Hmap & Hclosed & Hev).
    { intros p Hp. apply dict_get_elem_of, Hp. }
    exists m'. split; [exact Hrun |]. split; [| split; [| split; assumption]].
    + destruct (positions m') as [| q rest] eqn:E; [reflexivity |].
      destruct (Hpos q ltac:(left)) as [Hq Hnot].
      exfalso. apply Hnot, list_elem_of_fmap_2, Hq.
    + intros p Hp. unfold get_position_by_signal. rewrite (Hmap p Hp). reflexivity.
  - intros breaker new_state H. unfold _handle_risk_override.
    destruct H as [H | ->]; [| rewrite andb_false_r; reflexivity].
    destruct (String.eqb_spec breaker "emergency"); [contradiction | reflexivity].
Qed.

Lemma emergency_override_closes_every_position_witness :
  exists m',
    _handle_risk_override "emergency" true (seconds 30) Samples.manager_losing
    = Returned tt m' /\
    positions m' = [].
Proof.
  assert (Hnodup : NoDup (map Position.id (positions Samples.manager_losing))).
  { vm_compute. apply NoDup_singleton. }
  assert (Hprice : Forall (fun p => is_Some (Position.current_price p))
                     (positions Samples.manager_losing)).
  { vm_compute. repeat constructor. eauto. }
  destruct (proj1 (emergency_override_closes_every_position (seconds 30)
                     Samples.manager_losing Hnodup Hprice))
    as (m' & Hrun & Hpos & _).
  exists m'. split; [exact Hrun | exact Hpos].
Defined.

Lemma filter_none {A} (P : A -> Prop) `{forall x, Decision (P x)} (l : list A) :
  (forall x, x ∈ l -> ~ P x) -> filter P l = [].
Proof.
  induction l as [| x l IH]; intros Hnone; [reflexivity |].
  rewrite filter_cons. destruct (decide (P x)) as [Hx | _].
  - exfalso. apply (Hnone x); [left | exact Hx].
  - apply IH. intros y Hy. apply Hnone. right. exact Hy.
Qed.

(** X24. A market update touches only the positions of the symbols that
    traded: when no open position is on the symbol of the first trade of any
    entry of the update (entries without trades are skipped), the handler
    returns and the manager is exactly as it was. *)
Theorem tick_on_other_symbols_changes_nothing :
  forall market_data now m,
    (forall key symbol_data first p,
        (key, symbol_data) ∈ MarketData.data market_data ->
        head (MarketSymbolData.trades symbol_data) = Some first ->
        p ∈ positions m ->
        Position.symbol p <> Trade.symbol first) ->
    _handle_market_update market_data now m = Returned tt m.
Proof.
  intros market_data now m H. unfold _handle_market_update.
  assert (Hall : forall symbol_data first p,
             symbol_data ∈ map snd (MarketData.data market_data) ->
             head (MarketSymbolData.trades symbol_data) = Some first ->
             p ∈ positions m -> Position.symbol p <> Trade.symbol first).
  { intros symbol_data first p Hin. apply list_elem_of_fmap in Hin as [[key sd] [-> Hin]].
    exact (H key sd first p Hin). }
  clear H. induction (map snd (MarketData.data market_data)) as [| sd rest IH];
    cbn [update_symbols]; [reflexivity |].
  destruct (MarketSymbolData.trades sd) as [| first trades] eqn:Htrades.
  - apply IH. intros symbol_data f p Hin. apply Hall. right. exact Hin.
  - rewrite filter_none.
    + cbn [check_positions]. apply IH. intros symbol_data f p Hin. apply Hall. right. exact Hin.
    + intros p Hp. apply (Hall sd first p); [left | rewrite Htrades; reflexivity | exact Hp].
Qed.

Lemma tick_on_other_symbols_changes_nothing_witness :
  _handle_market_update
    (MarketData.mk 0 [("DOL", MarketSymbolData.mk [Trade.mk "DOL" 5001 1 "BUY" 0 "10:00:05"]
                                (OrderBook.mk [] []) 5001 1)])
    (seconds 20) Samples.manager_losing
  = Returned tt Samples.manager_losing.
Proof.
  apply tick_on_other_symbols_changes_nothing.
  intros key symbol_data first p Hin Hfirst Hp.
  apply list_elem_of_singleton in Hin. injection Hin as -> ->.
  cbn in Hfirst. injection Hfirst as <-.
  vm_compute in Hp. apply list_elem_of_singleton in Hp. subst p.
  cbn. discriminate.
Defined.

End PositionTickProperties.

(** ** Positions: sizing, and a tick through the stop *)

Section PositionSizeProperties.
Import Positions PositionQueries.

Lemma py_int_scaled z n d :
  py_int (inject_Z z * (Z.pos n # d)) = (z * Z.pos n ÷ Z.pos d)%Z.
Proof. unfold py_int. cbn. reflexivity. Qed.

(** X25. With a default size of at least 1 the size of a position is at
    least 1 and at most twice the default size, whatever the confidence and
    the setup type; with the default size of 1 it is always 1, the increases
    for high confidence and for breakouts being truncated away. *)
Theorem position_size_bounds :
  forall signal m,
    (1 <= default_size m)%Z ->
    (1 <= _calculate_position_size signal m <= 2 * default_size m)%Z /\
    (default_size m = 1%Z -> _calculate_position_size signal m = 1%Z).
Proof.
  intros signal m Hdefault. unfold _calculate_position_size.
  change 1.5%Q with (15 # 10)%Q. change 0.7%Q with (7 # 10)%Q.
  change 0.8%Q with (8 # 10)%Q at 2. change 1.2%Q with (12 # 10)%Q.
  rewrite !py_int_scaled.
  destruct (Qgtb _ _); [| destruct (Qltb _ _)];
    destruct (StrategicSignal.setup_type signal);
    split; try intros ->; Z.to_euclidean_division_equations; lia.
Qed.

Lemma position_size_bounds_witness :
  (1 <= _calculate_position_size Samples.wdo_buy (init (mkSettings None None None None None))
   <= 2 * default_size (init (mkSettings None None None None None)))%Z.
Proof.
  apply (position_size_bounds Samples.wdo_buy (init (mkSettings None None None None None))).
  cbn. lia.
Defined.

(** X26. A tick through the stop closes the position, whatever its targets:
    for a manager whose one open position is on the symbol that traded, a
    last trade at or below the stop of a buy (at or above the stop of any
    other position) makes the market-update handler close it at that price
    with reason STOP_LOSS.  The position leaves the dict with status STOPPED,
    is the last of the closed history and of the POSITION_CLOSED events, and
    counts as one stop and as no target hit. *)
Theorem tick_through_the_stop_closes_the_position :
  forall position first rest book last_price total_volume key timestamp now m,
    positions m = [position] ->
    Trade.symbol first = Position.symbol position ->
    let price := Trade.price (List.last (first :: rest) first) in
    (if Position.direction position =? "COMPRA"
     then price <= Position.stop_loss position
     else Position.stop_loss position <= price)%Q ->
    exists m' closed,
      _handle_market_update
        (MarketData.mk timestamp
           [(key, MarketSymbolData.mk (first :: rest) book last_price total_volume)]) now m
      = Returned tt m' /\
      positions m' = [] /\
      last (closed_positions m') = Some closed /\
      last (events m') = Some (POSITION_CLOSED closed "STOP_LOSS" (Position.pnl closed)) /\
      Position.id closed = Position.id position /\
      Position.status closed = "STOPPED" /\
      Position.exit_reason closed = Some "STOP_LOSS" /\
      Position.exit_price closed = Some price /\
      Position.exit_time closed = Some now /\
      total_stopped (stats m') = (total_stopped (stats m) + 1)%Z /\
      total_target_hit (stats m') = total_target_hit (stats m).
Proof.
  intros position first rest book last_price total_volume key timestamp now m Hpos Hsym
         price Hstop.
  unfold _handle_market_update.
  cbn [map snd MarketData.data update_symbols MarketSymbolData.trades].
  fold price. rewrite Hpos.
  rewrite filter_cons, decide_True by (symmetry; exact Hsym).
  rewrite filter_nil. cbn [check_positions].
  cbn [Position.update_price].
  set (p1 := Position.set_pnl _ _ _ _ _).
  assert (Hid : Position.id p1 = Position.id position) by reflexivity.
  assert (Hshould : Position.should_stop p1 = Some true).
  { unfold Position.should_stop. subst p1.
    cbn [Position.current_price Position.set_pnl Position.set_current_price
         Position.direction Position.stop_loss].
    destruct (Position.direction position =? "COMPRA");
      f_equal; [apply Qleb_true | apply Qgeb_true]; exact Hstop. }
  rewrite Hshould.
  set (m1 := with_positions _ m).
  assert (Hm1 : positions m1 = [p1]).
  { subst m1. cbn [positions with_positions]. rewrite Hpos. cbn [dict_mutate map].
    rewrite Hid, String.eqb_refl. reflexivity. }
  destruct (close_position_books p1 "STOP_LOSS" price now m1)
    as (m2 & Hrun & Hpos2 & _ & Hhist & Hev & _ & Hstopped & Htarget).
  { rewrite Hm1. cbn [dict_get]. rewrite String.eqb_refl. eauto. }
  rewrite Hrun. cbn [check_positions].
  exists m2, (closed_at p1 "STOP_LOSS" price now).
  split; [reflexivity |]. split.
  { rewrite Hpos2, Hm1. unfold dict_del. rewrite filter_cons, decide_False by tauto.
    reflexivity. }
  split; [rewrite Hhist; apply last_deque_append |].
  split; [rewrite Hev; apply last_snoc |].
  split; [reflexivity |]. split; [reflexivity |]. split; [reflexivity |].
  split; [reflexivity |]. split; [reflexivity |].
  split; [exact Hstopped | exact Htarget].
Qed.

Lemma tick_through_the_stop_closes_the_position_witness :
  exists m' closed,
    handle (Samples.wdo_tick 4990) (seconds 20) "20240102_100010" Samples.manager_losing
    = Returned tt m' /\
    positions m' = [] /\
    last (closed_positions m') = Some closed /\
    Position.status closed = "STOPPED".
Proof.
  assert (Hpos : positions Samples.manager_losing = [Samples.losing_position])
    by (vm_compute; reflexivity).
  destruct (tick_through_the_stop_closes_the_position Samples.losing_position
              (Samples.wdo_trade 4990) [] (OrderBook.mk [] []) 4990 1 "WDO" 0 (seconds 20)
              Samples.manager_losing Hpos eq_refl)
    as (m' & closed & Hrun & Hnone & Hlast & _ & _ & Hstatus & _).
  { apply Qle_bool_iff. vm_compute. reflexivity. }
  exists m', closed. repeat match goal with |- _ /\ _ => split end; assumption.
Defined.

End PositionSizeProperties.

(** ** Context filters and the signal factory, continued *)

Section FilterAndFactoryProperties.
Import Factory.

Lemma check_manipulation_score f b :
  FilterResult.score (Filters._check_manipulation f b) = 1.0%Q \/
  FilterResult.score (Filters._check_manipulation f b) = 0.5%Q.
Proof.
  unfold Filters._check_manipulation.
  destruct (OrderBook.bids b); [left; reflexivity |].
  destruct (OrderBook.asks b); [left; reflexivity |].
  destruct (_ || _); [left; reflexivity |].
  destruct (Qgtb _ _); [right | left]; reflexivity.
Qed.

Lemma apply_all_passes f signal context :
  Qleb (StrategicSignal.stop_loss signal) 0 || Qleb (StrategicSignal.entry_price signal) 0
  = false ->
  Consolidated.passed (Filters.apply_all f signal context) = true.
Proof.
  intros H. unfold Filters.apply_all.
  destruct (negb (Filters.enabled f)); [reflexivity |].
  unfold Filters._check_basic_validity. rewrite H.
  assert (Hvol : forall v,
             FilterResult.score (Filters._adjust_for_volatility v) = 0.8%Q \/
             FilterResult.score (Filters._adjust_for_volatility v) = 1.0%Q).
  { intros v. unfold Filters._adjust_for_volatility. cbn [FilterResult.score].
    destruct (bool_decide _); [left | right]; reflexivity. }
  destruct (Qltb (StrategicSignal.risk_reward signal) 1.0); cbn [negb FilterResult.passed];
    (destruct (Filters.book context) as [b |];
     [destruct (check_manipulation_score f b) as [Hs | Hs]; revert Hs;
      generalize (Filters._check_manipulation f b); intros [rp rs rr ra rw] Hs;
      cbn [FilterResult.score] in Hs; subst rs |]);
    (destruct (Filters.volatility context) as [v |];
     [destruct (v =? "");
      [| destruct (Hvol v) as [Hv | Hv]; revert Hv;
         generalize (Filters._adjust_for_volatility v); intros [vp vs vr va vw] Hv;
         cbn [FilterResult.score] in Hv; subst vs] |]);
    vm_compute; reflexivity.
Qed.

(** X27. The context filters reject a signal only for its prices: [apply_all]
    answers [passed = False] exactly when the filters are enabled and the
    stop or the entry price is not positive.  An unbalanced book, high
    volatility and a risk/reward below 1 lower the score but never below the
    pass mark. *)
Theorem filters_reject_only_invalid_prices :
  forall f signal context,
    Consolidated.passed (Filters.apply_all f signal context) = false <->
    Filters.enabled f = true /\
    ((StrategicSignal.stop_loss signal <= 0)%Q \/ (StrategicSignal.entry_price signal <= 0)%Q).
Proof.
  intros f signal context. split.
  - intros H.
    destruct (Filters.enabled f) eqn:Hen;
      [| unfold Filters.apply_all in H; rewrite Hen in H; discriminate H].
    split; [reflexivity |].
    destruct (Qleb (StrategicSignal.stop_loss signal) 0
              || Qleb (StrategicSignal.entry_price signal) 0) eqn:E.
    + apply orb_prop in E as [E | E]; [left | right]; apply Qleb_true, E.
    + rewrite (apply_all_passes f signal context E) in H. discriminate H.
  - intros [Hen Hprice]. unfold Filters.apply_all, Filters._check_basic_validity.
    rewrite Hen. cbn [negb].
    assert (E : Qleb (StrategicSignal.stop_loss signal) 0
                || Qleb (StrategicSignal.entry_price signal) 0 = true).
    { apply orb_true_iff. destruct Hprice as [H | H]; [left | right]; apply Qleb_true, H. }
    rewrite E. reflexivity.
Qed.

(** X28. The confluence step never keeps both legs: after [_check_confluence]
    no candidate is waiting for the other symbol, and WDO and DOL are never
    both waiting.  When the answer is the unresolved "waiting pair" the new
    candidate has been stored under its own symbol; when a pair was analysed
    the slot of its own symbol is as it was. *)
Theorem confluence_never_keeps_both_legs :
  forall signal now s,
    let r := _check_confluence signal now s in
    let symbol := StrategicSignal.symbol signal in
    pending_confluence (snd r) !! other_symbol_of symbol = None /\
    (pending_confluence (snd r) !! "WDO" = None \/ pending_confluence (snd r) !! "DOL" = None) /\
    (details (fst r) = WaitingPair ->
     pending_confluence (snd r) !! symbol = Some (mkSlot signal now)) /\
    (details (fst r) <> WaitingPair ->
     pending_confluence (snd r) !! symbol = pending_confluence s !! symbol).
Proof.
  intros signal now s r symbol.
  assert (Hne : other_symbol_of symbol <> symbol).
  { unfold other_symbol_of. destruct (String.eqb_spec symbol "WDO") as [-> | Hne];
      [discriminate | congruence]. }
  assert (Hother : pending_confluence (snd r) !! other_symbol_of symbol = None /\
                   (details (fst r) = WaitingPair ->
                    pending_confluence (snd r) !! symbol = Some (mkSlot signal now)) /\
                   (details (fst r) <> WaitingPair ->
                    pending_confluence (snd r) !! symbol = pending_confluence s !! symbol)).
  { subst r. unfold _check_confluence. fold symbol.
    destruct (pending_confluence s !! other_symbol_of symbol) as [slot |] eqn:Hslot;
      [destruct (slot_timed_out _ _ _) |];
      cbn [fst snd pending_confluence with_pending details].
    - split; [| split].
      + rewrite lookup_insert_ne by congruence. apply lookup_delete_eq.
      + intros _. apply lookup_insert_eq.
      + intros H. contradiction.
    - split; [apply lookup_delete_eq |]. split.
      + unfold _analyze_confluence.
        repeat match goal with
               | |- context [if ?c then _ else _] => destruct c
               end; cbn [details]; discriminate.
      + intros _. apply lookup_delete_ne. exact Hne.
    - split; [| split].
      + rewrite lookup_insert_ne by congruence. exact Hslot.
      + intros _. apply lookup_insert_eq.
      + intros H. contradiction. }
  destruct Hother as (H1 & H2 & H3).
  split; [exact H1 |]. split; [| split; assumption].
  unfold other_symbol_of in H1.
  destruct (symbol =? "WDO"); [right | left]; exact H1.
Qed.

(** X29. The [tighten_stop] adjustment moves the stop away from the entry:
    the distance between entry and stop is divided by the factor, so for a
    factor between 0 and 1 (the filters use 0.8) the stop of a buy that was
    below the entry ends lower than it was, and the stop of a sell that was
    above the entry ends higher. *)
Theorem tighten_adjustment_moves_the_stop_away :
  forall adjustments signal factor,
    tighten_stop adjustments = Some factor ->
    (0 < factor)%Q -> (factor < 1)%Q ->
    let entry := StrategicSignal.entry_price signal in
    let stop := StrategicSignal.stop_loss signal in
    let adjusted := StrategicSignal.stop_loss (_apply_filter_adjustments adjustments signal) in
    if StrategicSignal.direction signal =? "COMPRA"
    then (stop < entry -> adjusted < stop)%Q /\ (entry - adjusted == (entry - stop) / factor)%Q
    else (entry < stop -> stop < adjusted)%Q /\ (adjusted - entry == (stop - entry) / factor)%Q.
Proof.
  intros adjustments signal factor Htight Hpos Hlt entry stop adjusted.
  assert (Hgrow : forall d, (0 < d)%Q -> (d < d / factor)%Q).
  { intros d Hd. apply Qlt_shift_div_l; [exact Hpos |]. nra. }
  assert (Hadj : adjusted
                 = if StrategicSignal.direction signal =? "COMPRA"
                   then (entry - (entry - stop) / factor)%Q
                   else (entry + (stop - entry) / factor)%Q).
  { subst adjusted. unfold _apply_filter_adjustments. rewrite Htight. fold entry stop.
    destruct (StrategicSignal.direction signal =? "COMPRA");
      destruct (use_limit_orders adjustments);
      repeat match goal with |- context [bool_decide ?P] => destruct (bool_decide P) end;
      destruct (adjustments_nonempty adjustments); reflexivity. }
  rewrite Hadj. clear Hadj. clearbody entry stop.
  destruct (StrategicSignal.direction signal =? "COMPRA").
  - split; [| ring].
    intros H. specialize (Hgrow (entry - stop)%Q ltac:(lra)).
    set (x := ((entry - stop) / factor)%Q) in *. clearbody x. lra.
  - split; [| ring].
    intros H. specialize (Hgrow (stop - entry)%Q ltac:(lra)).
    set (x := ((stop - entry) / factor)%Q) in *. clearbody x. lra.
Qed.

Lemma tighten_adjustment_moves_the_stop_away_witness :
  (StrategicSignal.stop_loss
     (_apply_filter_adjustments
        (FilterResult.adjustments (Filters._adjust_for_volatility "LOW")) Samples.wdo_buy)
   < StrategicSignal.stop_loss Samples.wdo_buy)%Q.
Proof.
  apply (tighten_adjustment_moves_the_stop_away
           (FilterResult.adjustments (Filters._adjust_for_volatility "LOW")) Samples.wdo_buy
           0.8%Q eq_refl); reflexivity.
Defined.

End FilterAndFactoryProperties.

(** ** When the factory drops a proposal *)

Section FactoryDropProperties.
Import Factory FactoryQueries.







End FactoryDropProperties.
